(** * JarvisStreamer: a shallow embedding of the Go sources and the
      properties checked against them.

    Conventions of the embedding.
    - A Go [string] is a byte sequence: Stdlib's [string] (a list of [ascii]).
      Literals that hold accented letters are kept as their UTF-8 bytes.
    - A Go [float64] is Rocq's primitive [float] (IEEE 754 binary64), so the
      arithmetic of the sources is evaluated bit for bit.
    - A Go [int] is a [Z]; the sources only use it for lengths and indices.
    - A call that can panic returns an explicit panic outcome.
    - Calls to the outside world (HTTP, providers, executors) are recorded in
      an event trace, and what the world answers is an argument of the
      model. *)

From Stdlib Require Import ZArith String Ascii List Bool Lia Floats Uint63.
From Stdlib Require Import DecimalString.
From Stdlib.Strings Require Import Byte.
From stdpp Require Import base option list gmap strings.
Import ListNotations.

#[local] Set Warnings "-register-all,-inexact-float".

Local Open Scope string_scope.
Local Open Scope Z_scope.

(** ** The parts of Go's standard library the sources call *)
Module Go.

(** A Go [error] value is identified with its message. *)
Definition error := string.

(** Arithmetic on [int64] wraps around. *)
Definition wrap64 (z : Z) : Z := (z + 2 ^ 63) mod 2 ^ 64 - 2 ^ 63.

(** [float64(z)] for an integer [z] with [|z| < 2^63]: correctly rounded. *)
Definition float64_of_Z (z : Z) : float :=
  if z <? 0 then PrimFloat.opp (PrimFloat.of_uint63 (Uint63.of_Z (- z)))
  else PrimFloat.of_uint63 (Uint63.of_Z z).

Definition len (s : string) : Z := Z.of_nat (String.length s).

(** [s[lo:hi]]; [None] stands for the run-time panic on bad bounds. *)
Definition slice (s : string) (lo hi : Z) : option string :=
  if (0 <=? lo) && (lo <=? hi) && (hi <=? len s)
  then Some (String.substring (Z.to_nat lo) (Z.to_nat (hi - lo)) s)
  else None.

(** [strings.Index(s, c)] for a one-byte [c]; [-1] when absent. *)
Fixpoint IndexByte (s : string) (c : ascii) : Z :=
  match s with
  | EmptyString => -1
  | String a s' =>
      if Ascii.eqb a c then 0
      else let r := IndexByte s' c in if r =? -1 then -1 else r + 1
  end.

(** [strings.LastIndex(s, c)] for a one-byte [c]; [-1] when absent. *)
Fixpoint LastIndexByte (s : string) (c : ascii) : Z :=
  match s with
  | EmptyString => -1
  | String a s' =>
      let r := LastIndexByte s' c in
      if r =? -1 then (if Ascii.eqb a c then 0 else -1) else r + 1
  end.

(** [strings.ReplaceAll] of a one-byte [old] by the empty string. *)
Fixpoint RemoveByte (s : string) (old : ascii) : string :=
  match s with
  | EmptyString => EmptyString
  | String a s' =>
      if Ascii.eqb a old then RemoveByte s' old else String a (RemoveByte s' old)
  end.

Definition forallb_string (p : ascii -> bool) (s : string) : bool :=
  forallb p (list_ascii_of_string s).

Definition existsb_string (p : ascii -> bool) (s : string) : bool :=
  existsb p (list_ascii_of_string s).

(** [regexp.Split(s, -1)] for a pattern that is a class of single bytes:
    the pieces between the separators, the separators themselves dropped
    (a capture group changes nothing), empty pieces kept. *)
Fixpoint Split (isSep : ascii -> bool) (s : string) : list string :=
  match s with
  | EmptyString => [EmptyString]
  | String a s' =>
      if isSep a then EmptyString :: Split isSep s'
      else match Split isSep s' with
           | [] => [String a EmptyString]
           | p :: ps => String a p :: ps
           end
  end.

Definition isSpace (c : ascii) : bool :=
  let n := Z.of_N (N_of_ascii c) in
  (n =? 32) || ((9 <=? n) && (n <=? 13)).

Fixpoint TrimLeft (s : string) : string :=
  match s with
  | EmptyString => EmptyString
  | String a s' => if isSpace a then TrimLeft s' else s
  end.

Fixpoint TrimRight (s : string) : string :=
  match s with
  | EmptyString => EmptyString
  | String a s' =>
      match TrimRight s' with
      | EmptyString => if isSpace a then EmptyString else String a EmptyString
      | t => String a t
      end
  end.

(** [strings.TrimSpace] on ASCII white space. *)
Definition TrimSpace (s : string) : string := TrimRight (TrimLeft s).

Definition isDigit (c : ascii) : bool :=
  let n := Z.of_N (N_of_ascii c) in (48 <=? n) && (n <=? 57).

Definition digitVal (c : ascii) : Z := Z.of_N (N_of_ascii c) - 48.

(** Reads a run of decimal digits: the number read so far, how many digits
    were read, and what follows them. *)
Fixpoint scanDigits (s : string) (acc n : Z) : Z * Z * string :=
  match s with
  | String a s' =>
      if isDigit a then scanDigits s' (10 * acc + digitVal a) (n + 1)
      else (acc, n, s)
  | EmptyString => (acc, n, s)
  end.

Inductive ParseResult :=
| Parsed (f : float)
| SyntaxError
| NotModelled.

Definition isLetter (c : ascii) : bool :=
  let n := Z.of_N (N_of_ascii c) in
  ((65 <=? n) && (n <=? 90)) || ((97 <=? n) && (n <=? 122)).

(** The bytes that occur in some string [strconv.ParseFloat] accepts:
    digits, the point, signs, the digit separator and letters (exponent
    marks, hexadecimal digits, [Inf], [NaN]). *)
Definition isFloatLiteralByte (c : ascii) : bool :=
  isDigit c || Ascii.eqb c "." || Ascii.eqb c "+" || Ascii.eqb c "-"
  || Ascii.eqb c "_" || isLetter c.

Definition isDigitOrPoint (c : ascii) : bool := isDigit c || Ascii.eqb c ".".

(** [strconv.ParseFloat(s, 64)] on unsigned decimal literals without an
    exponent. When the digits read as an integer below [2^53] with at most
    18 of them after the point, both the integer and the power of ten are
    binary64 values and one IEEE division is the correctly rounded result
    (the exact path of Go's own parser). A string of digits and points that
    is not such a literal, or a string holding a byte no literal can hold,
    is a syntax error in Go. Everything else (signs, exponents, [Inf],
    longer literals) is outside this model. *)
Definition ParseFloat (s : string) : ParseResult :=
  let '(m1, n1, r1) := scanDigits s 0 0 in
  let '(m, nfrac, r) :=
    match r1 with
    | String "." r1' => scanDigits r1' m1 0
    | _ => (m1, 0, r1)
    end in
  if (String.eqb r EmptyString) && (1 <=? n1 + nfrac) then
    if (m <? 2 ^ 53) && (nfrac <=? 18)
    then Parsed (PrimFloat.div (float64_of_Z m) (float64_of_Z (10 ^ nfrac)))
    else NotModelled
  else if forallb_string isDigitOrPoint s then SyntaxError
  else if negb (forallb_string isFloatLiteralByte s) then SyntaxError
  else NotModelled.

Definition decimal (n : Z) : string :=
  NilZero.string_of_uint (N.to_uint (Z.to_N n)).

(** [fmt.Sprintf("%d", z)] *)
Definition FormatD (z : Z) : string :=
  if z <? 0 then "-" ++ decimal (- z) else decimal z.

(** The value of a finite binary64 [m * 2^e] when it is an integer. *)
Definition integerValue (m : positive) (e : Z) : option Z :=
  if 0 <=? e then Some (Z.pos m * 2 ^ e)
  else if (Z.pos m) mod 2 ^ (- e) =? 0 then Some (Z.pos m / 2 ^ (- e))
  else None.

(** [fmt.Sprintf("%g", x)]: the shortest decimal that reads back as [x].
    For an integer below [10^6] that is its digits (no shorter decimal lies
    within half a unit of it, and the exponent form starts at [10^6]);
    the special values print as [NaN], [+Inf] and [-Inf]. Other values are
    outside this model. *)
Definition FormatG (x : float) : option string :=
  match Prim2SF x with
  | S754_nan => Some "NaN"
  | S754_infinity false => Some "+Inf"
  | S754_infinity true => Some "-Inf"
  | S754_zero sign => Some (if sign then "-0" else "0")
  | S754_finite sign m e =>
      match integerValue m e with
      | Some n =>
          if n <? 10 ^ 6
          then Some ((if sign then "-" else EmptyString) ++ decimal n)
          else None
      | None => None
      end
  end.

(** Rounds [m * 2^e] to the nearest integer, ties to even. *)
Definition roundHalfEven (m : positive) (e : Z) : Z :=
  if 0 <=? e then Z.pos m * 2 ^ e
  else
    let d := 2 ^ (- e) in
    let q := Z.pos m / d in
    let r := Z.pos m mod d in
    if 2 * r <? d then q
    else if d <? 2 * r then q + 1
    else if Z.even q then q else q + 1.

(** [fmt.Sprintf("%.0f", x)]: the nearest integer, ties to even, with the
    sign of [x]. *)
Definition FormatF0 (x : float) : string :=
  match Prim2SF x with
  | S754_nan => "NaN"
  | S754_infinity false => "+Inf"
  | S754_infinity true => "-Inf"
  | S754_zero sign => if sign then "-0" else "0"
  | S754_finite sign m e =>
      (if sign then "-" else EmptyString) ++ decimal (roundHalfEven m e)
  end.

(** [int(x)] for a [float64]: truncation toward zero; outside the range of
    [int] Go leaves the result to the implementation, and amd64 gives the
    least [int]. *)
Definition int_of_float64 (x : float) : Z :=
  match Prim2SF x with
  | S754_finite sign m e =>
      let n := if 0 <=? e then Z.pos m * 2 ^ e else Z.pos m / 2 ^ (- e) in
      let n := if sign then - n else n in
      if (- 2 ^ 63 <=? n) && (n <? 2 ^ 63) then n else - 2 ^ 63
  | S754_zero _ => 0
  | _ => - 2 ^ 63
  end.

(** [append(elems, x)] for a slice of strings. *)
Definition push (elems : list string) (x : string) : list string :=
  (elems ++ [x])%list.

(** [strings.Join] *)
Fixpoint Join (elems : list string) (sep : string) : string :=
  match elems with
  | [] => EmptyString
  | [e] => e
  | e :: rest => e ++ sep ++ Join rest sep
  end.

(** [strings.Count(s, c)] for a one-byte [c]. *)
Fixpoint Count (s : string) (c : ascii) : nat :=
  match s with
  | EmptyString => O
  | String a s' => ((if Ascii.eqb a c then 1 else 0) + Count s' c)%nat
  end.

(** [strings.Contains] *)
Fixpoint Contains (s substr : string) : bool :=
  String.prefix substr s
  || match s with
     | EmptyString => false
     | String _ s' => Contains s' substr
     end.

(** What [path/filepath] takes from the operating system it is built
    for: [os.IsPathSeparator], [filepath.Separator], and the length of
    [filepath.VolumeName(path)], which is at most the length of the path. *)
Record Platform := mkPlatform {
  IsPathSeparator : ascii -> bool;
  Separator : ascii;
  volumeNameLen : string -> Z;
}.

(** Unix: the slash separates and there is no volume name. *)
Definition unix : Platform :=
  mkPlatform (fun c => Ascii.eqb c "/") "/" (fun _ => 0).

(** Windows: the backslash and the slash both separate; the volume name
    (a drive letter, a UNC share) is whatever [volumeNameLen] measures. *)
Definition windows (volumeNameLen : string -> Z) : Platform :=
  mkPlatform (fun c => Ascii.eqb c "\" || Ascii.eqb c "/") "\" volumeNameLen.

(** The scan of [filepath.Ext], from the last byte backwards. *)
Fixpoint extScan (os : Platform) (rev acc : list ascii) : string :=
  match rev with
  | [] => EmptyString
  | c :: rest =>
      if IsPathSeparator os c then EmptyString
      else if Ascii.eqb c "." then string_of_list_ascii (c :: acc)
      else extScan os rest (c :: acc)
  end.

(** [filepath.Ext] *)
Definition Ext (os : Platform) (path : string) : string :=
  extScan os (List.rev (list_ascii_of_string path)) [].

(** The trailing separators dropped, on the reversed path. *)
Fixpoint dropSeparators (os : Platform) (rev : list ascii) : list ascii :=
  match rev with
  | c :: rest => if IsPathSeparator os c then dropSeparators os rest else rev
  | [] => []
  end.

(** What follows the last separator, on the reversed path. *)
Fixpoint lastElement (os : Platform) (rev acc : list ascii) : list ascii :=
  match rev with
  | c :: rest => if IsPathSeparator os c then acc else lastElement os rest (c :: acc)
  | [] => acc
  end.

(** [filepath.Base]: the trailing separators are stripped, the volume name
    is thrown away, and the last element is what is left after the last
    separator; a path of separators only gives the separator. *)
Definition Base (os : Platform) (path : string) : string :=
  if String.eqb path EmptyString then "."
  else
    let stripped :=
      List.rev (dropSeparators os (List.rev (list_ascii_of_string path))) in
    let vol := volumeNameLen os (string_of_list_ascii stripped) in
    let rest := List.skipn (Z.to_nat vol) stripped in
    let elem := string_of_list_ascii (lastElement os (List.rev rest) []) in
    if String.eqb elem EmptyString then String (Separator os) EmptyString
    else elem.

(** [strings.HasPrefix] *)
Definition HasPrefix (s prefix : string) : bool := String.prefix prefix s.

End Go.

(** ** internal/brain: the restricted arithmetic evaluator *)
Module Calc.
Import Go.

Inductive EvalResult :=
| Value (f : float)
| Error (msg : error)
| Panic (msg : string)
| Unmodelled
| OutOfFuel.

(** The character class of [validChars]: [[0-9+\-*/.()^]]. *)
Definition isValidChar (c : ascii) : bool :=
  isDigit c
  || Ascii.eqb c "+" || Ascii.eqb c "-" || Ascii.eqb c "*" || Ascii.eqb c "/"
  || Ascii.eqb c "." || Ascii.eqb c "(" || Ascii.eqb c ")" || Ascii.eqb c "^".

(** [validChars.MatchString]: the anchored pattern [^[...]+$]. *)
Definition validChars_MatchString (s : string) : bool :=
  negb (String.eqb s EmptyString) && forallb_string isValidChar s.

Definition isPlusMinus (c : ascii) : bool := Ascii.eqb c "+" || Ascii.eqb c "-".
Definition isMulDiv (c : ascii) : bool := Ascii.eqb c "*" || Ascii.eqb c "/".

(** [s[len(s)-1:]]: the last byte as a string; panics on the empty string. *)
Definition lastChar (s : string) : option string := slice s (len s - 1) (len s).

Definition index (parts : list string) (i : Z) : option string :=
  if i <? 0 then None else nth_error parts (Z.to_nat i).

Definition sliceBoundsPanic : string := "slice bounds out of range [-1:]".
Definition indexPanic : string := "index out of range".

(** The loop of [parseAndMultiplyDivide]: [for i := 1; i < len(parts); i += 2]. *)
Fixpoint mulDivLoop (fuel : nat) (parts : list string) (i : Z) (result : float)
  : EvalResult :=
  match fuel with
  | O => OutOfFuel
  | S fuel' =>
      if i <? Z.of_nat (List.length parts) then
        match index parts (i - 1) with
        | None => Panic indexPanic
        | Some prev =>
            match lastChar prev with
            | None => Panic sliceBoundsPanic
            | Some operator =>
                match index parts i with
                | None => Panic indexPanic
                | Some nextStr =>
                    match ParseFloat nextStr with
                    | NotModelled => Unmodelled
                    | SyntaxError => Error ("número inválido: " ++ nextStr)
                    | Parsed nextVal =>
                        if String.eqb operator "*" then
                          mulDivLoop fuel' parts (i + 2) (PrimFloat.mul result nextVal)
                        else if String.eqb operator "/" then
                          if PrimFloat.eqb nextVal 0%float
                          then Error "división entre cero"
                          else mulDivLoop fuel' parts (i + 2)
                                 (PrimFloat.div result nextVal)
                        else mulDivLoop fuel' parts (i + 2) result
                    end
                end
            end
        end
      else Value result
  end.

Definition parseAndMultiplyDivide (expr : string) : EvalResult :=
  let expr := TrimSpace expr in
  if String.eqb expr EmptyString then Error "expresión vacía"
  else
    let parts := Split isMulDiv expr in
    match index parts 0 with
    | None => Panic indexPanic
    | Some p0 =>
        match ParseFloat p0 with
        | NotModelled => Unmodelled
        | SyntaxError => Error ("número inválido: " ++ p0)
        | Parsed result => mulDivLoop (List.length parts) parts 1 result
        end
    end.

(** The second loop of [simpleEval]: [for i := 1; i < len(parts); i += 2],
    whose body may step [i] back by one. *)
Fixpoint addSubLoop (fuel : nat) (parts : list string) (i : Z) (result : float)
  : EvalResult :=
  match fuel with
  | O => OutOfFuel
  | S fuel' =>
      if i <? Z.of_nat (List.length parts) then
        match index parts (i - 1) with
        | None => Panic indexPanic
        | Some prev =>
            match lastChar prev with
            | None => Panic sliceBoundsPanic
            | Some op0 =>
                let known := String.eqb op0 "+" || String.eqb op0 "-" in
                let operator := if known then op0 else "+" in
                let i := if known then i else i - 1 in
                match index parts i with
                | None => Panic indexPanic
                | Some part =>
                    match parseAndMultiplyDivide part with
                    | Value nextVal =>
                        let result :=
                          if String.eqb operator "+"
                          then PrimFloat.add result nextVal
                          else PrimFloat.sub result nextVal in
                        addSubLoop fuel' parts (i + 2) result
                    | other => other
                    end
                end
            end
        end
      else Value result
  end.

(** [simpleEval] once no parenthesis is left. *)
Definition evalFlat (expr : string) : EvalResult :=
  let parts := Split isPlusMinus expr in
  if Z.of_nat (List.length parts) =? 0 then Error "expresión vacía"
  else
    match index parts 0 with
    | None => Panic indexPanic
    | Some p0 =>
        match parseAndMultiplyDivide p0 with
        | Value result => addSubLoop (S (List.length parts)) parts 1 result
        | other => other
        end
    end.

(** [simpleEval]: each round of its first loop resolves the group opened by
    the last [(]; [fuel] bounds the rounds and the depth of the recursion. *)
Fixpoint simpleEval (fuel : nat) (expr : string) : EvalResult :=
  match fuel with
  | O => OutOfFuel
  | S fuel' =>
      let openIdx := LastIndexByte expr "(" in
      if openIdx =? -1 then evalFlat expr
      else
        match slice expr openIdx (len expr) with
        | None => Panic indexPanic
        | Some tail =>
            let closeIdx := IndexByte tail ")" in
            if closeIdx =? -1 then Error "paréntesis no balanceados"
            else
              let closeIdx := closeIdx + openIdx in
              match slice expr (openIdx + 1) closeIdx,
                    slice expr 0 openIdx,
                    slice expr (closeIdx + 1) (len expr) with
              | Some inner, Some before, Some after =>
                  match simpleEval fuel' inner with
                  | Value result =>
                      match FormatG result with
                      | Some text => simpleEval fuel' (before ++ text ++ after)
                      | None => Unmodelled
                      end
                  | other => other
                  end
              | _, _, _ => Panic indexPanic
              end
        end
  end.

Definition evaluateExpression (expr : string) : EvalResult :=
  let expr := RemoveByte expr " " in
  if negb (validChars_MatchString expr) then Error "expresión inválida"
  else simpleEval (S (String.length expr)) expr.

End Calc.

(** ** internal/llm: actions and the provider interface *)
Module Llm.
Import Go.

(** The dynamic values of a [map[string]interface{}]. *)
Inductive Value :=
| VString (s : string)
| VFloat64 (f : float)
| VInt (z : Z)
| VInt64 (z : Z)
| VBool (b : bool)
| VMap (kvs : list (string * Value))
| VNil.

Record Action := mkAction {
  Action_name : string;            (* the field [Action] *)
  Params : gmap string Value;
  Reply : string;
}.

Definition GetStringParam (a : Action) (key : string) : string :=
  match Params a !! key with
  | Some (VString s) => s
  | _ => EmptyString
  end.

Definition GetFloatParam (a : Action) (key : string) : float :=
  match Params a !! key with
  | Some (VFloat64 val) => val
  | Some (VInt val) => float64_of_Z val
  | Some (VInt64 val) => float64_of_Z val
  | _ => 0%float
  end.

End Llm.

(** ** The outside world: what is observed of a run, and who answers *)
Module World.
Import Go Llm.

Inductive result (A : Type) :=
| Ok (a : A)
| Err (e : error).
Arguments Ok {A} a.
Arguments Err {A} e.

(** An HTTP request as the Twitch client builds it. *)
Record Request := mkRequest {
  Method : string;
  URL : string;
  Header : list (string * string);
  Form : list (string * string);   (* a url-encoded body, before encoding *)
  ReqBody : option string;
}.

(** An HTTP response: the status, the bytes [io.ReadAll] returns and the
    error it may return with them, and what decoding the body as a token
    reply gives. *)
Record Response := mkResponse {
  StatusCode : Z;
  Body : string;
  ReadErr : option error;
  Tokens : result (string * string);
}.

(** A frame of the OBS websocket protocol: the opcode and the raw data. *)
Record ObsMessage := mkObsMessage {
  Op : Z;
  D : string;
}.

(** A request to OBS over the websocket. *)
Record RequestData := mkRequestData {
  RequestType : string;
  RequestID : string;
  RequestData_ : option (list (string * Value));   (* the field [RequestData] *)
}.

Inductive Event :=
| EvLLMIsAvailable
| EvLLMComplete (prompt : string)
| EvTTSIsAvailable
| EvTTSSpeak (text : string)
| EvExecute (executor action : string)     (* an executor's [Execute] entered *)
| EvHTTP (req : Request) (resp : result Response)   (* [client.Do] *)
| EvRefresh (err : option error)           (* [refreshAccessToken] returned *)
| EvObsDial (url : string) (err : option error)
| EvObsRead (msg : result ObsMessage)
| EvObsIdentify (authentication : string) (err : option error)
| EvObsClose
| EvObsSend (req : RequestData) (err : option error)
| EvTranscribe (audio : list Byte.byte)
| EvOnTranscript (text : string)
| EvOnResponse (text : string)
| EvOnError (err : error)
| EvOnStateChange (state : Z)
| EvKillPlayer                              (* [currentCmd.Process.Kill()] *)
| EvStartPlayLoop                           (* [go e.playLoop()] *)
| EvStopSignal                              (* the send tried on [stopChan] *)
| EvPlayTrack (path : string)
| EvSpawnRecorder.                          (* [go func() { recordUntilSilence; processRecordedAudio }] *)

Definition Trace := list Event.

(** A function returns normally or panics; [OutsideModel] marks a run that
    leaves what the library models above cover. *)
Inductive Outcome (A : Type) :=
| Returns (a : A)
| Panics (msg : string)
| OutsideModel.
Arguments Returns {A} a.
Arguments Panics {A} msg.
Arguments OutsideModel {A}.

End World.

(** ** internal/executor: results, the executor interface, the registry *)
Module Executor.
Import Go Llm World.

Record Result := mkResult {
  Success : bool;
  Message : string;
  Data : list (string * Value);
  Error : string;
}.

Definition NewResult (message : string) : Result :=
  mkResult true message [] EmptyString.

Definition NewResultWithData (message : string) (data : list (string * Value))
  : Result :=
  mkResult true message data EmptyString.

Definition NewErrorResult (err : error) : Result :=
  mkResult false EmptyString [] err.

(** The interface [Executor], for an implementation whose state is [E].
    [Execute] is given what happened so far; it may change the state of its
    receiver, and it returns the events it adds to the trace. *)
Class ExecutorOps (E : Type) := {
  Name : E -> string;
  SupportedActions : E -> list string;
  CanHandle : E -> string -> bool;
  Execute : E -> Action -> Trace ->
            Outcome (Result * option error) * E * list Event;
  IsAvailable : E -> bool;
}.

(** A value of interface type: an implementation together with its state. *)
Record AnyExecutor := pack {
  carrier : Type;
  ops : ExecutorOps carrier;
  self : carrier;
}.
Arguments pack {carrier ops} self.

Definition any_Name (x : AnyExecutor) : string := @Name _ (ops x) (self x).
Definition any_SupportedActions (x : AnyExecutor) : list string :=
  @SupportedActions _ (ops x) (self x).
Definition any_CanHandle (x : AnyExecutor) (action : string) : bool :=
  @CanHandle _ (ops x) (self x) action.
Definition any_IsAvailable (x : AnyExecutor) : bool :=
  @IsAvailable _ (ops x) (self x).
Definition any_Execute (x : AnyExecutor) (action : Action) (tr : Trace)
  : Outcome (Result * option error) * AnyExecutor * Trace :=
  let '(out, s', added) := @Execute _ (ops x) (self x) action tr in
  (out, @pack _ (ops x) s', (tr ++ added)%list).

(** The registry: the entries of the map [executors], listed in the order
    in which [range] visits them (Go leaves that order open; every
    statement below holds for every order). *)
Record Registry := mkRegistry {
  executors : list (string * AnyExecutor);
}.

Definition NewRegistry : Registry := mkRegistry [].

Fixpoint assign (kvs : list (string * AnyExecutor)) (k : string) (v : AnyExecutor)
  : list (string * AnyExecutor) :=
  match kvs with
  | [] => [(k, v)]
  | (k', v') :: rest =>
      if String.eqb k' k then (k, v) :: rest else (k', v') :: assign rest k v
  end.

Definition Register (r : Registry) (exec : AnyExecutor) : Registry :=
  mkRegistry (assign (executors r) (any_Name exec) exec).

Definition Get (r : Registry) (name : string) : option AnyExecutor :=
  option_map snd (List.find (fun kv => String.eqb (fst kv) name) (executors r)).

(** [FindExecutor]: the first visited executor that can handle the action,
    with the key it is stored under. *)
Definition FindExecutor (r : Registry) (action : string)
  : result (string * AnyExecutor) :=
  match List.find (fun kv => any_CanHandle (snd kv) action) (executors r) with
  | Some kv => Ok kv
  | None => Err ("no executor found for action: " ++ action)
  end.

(** [Registry.Execute]. The executors are held by reference, so the state
    [Execute] leaves its receiver in is stored back under the same key. *)
Definition Registry_Execute (r : Registry) (action : Action) (tr : Trace)
  : Outcome (Result * option error) * Registry * Trace :=
  match FindExecutor r (Action_name action) with
  | Err err => (Returns (NewErrorResult err, Some err), r, tr)
  | Ok (key, exec) =>
      if negb (any_IsAvailable exec) then
        let err := "executor " ++ any_Name exec ++ " is not available" in
        (Returns (NewErrorResult err, Some err), r, tr)
      else
        let '(out, exec', tr') :=
          any_Execute exec action
            (tr ++ [EvExecute (any_Name exec) (Action_name action)])%list in
        (out, mkRegistry (assign (executors r) key exec'), tr')
  end.

Definition GetAllActions (r : Registry) : list string :=
  flat_map (fun kv => any_SupportedActions (snd kv)) (executors r).

End Executor.

(** ** pkg/utils: audio helpers *)
Module Utils.
Import Go.

(** [int16(u)] for a 16-bit pattern [u]. *)
Definition int16 (u : Z) : Z := if 2 ^ 15 <=? u then u - 2 ^ 16 else u.

Definition byteVal (b : Byte.byte) : Z := Z.of_N (Byte.to_N b).

(** [BytesToInt16]: little-endian pairs; an odd last byte is dropped. *)
Fixpoint BytesToInt16 (data : list Byte.byte) : list Z :=
  match data with
  | b0 :: b1 :: rest => int16 (byteVal b0 + 256 * byteVal b1) :: BytesToInt16 rest
  | _ => []
  end.

(** [CalculateRMS]: samples are [int16] values. *)
Definition CalculateRMS (samples : list Z) : float :=
  if Z.of_nat (List.length samples) =? 0 then 0%float
  else
    let sum :=
      fold_left
        (fun sum sample =>
           PrimFloat.add sum
             (PrimFloat.mul (float64_of_Z sample) (float64_of_Z sample)))
        samples 0%float in
    PrimFloat.div sum (float64_of_Z (Z.of_nat (List.length samples))).

End Utils.

(** ** internal/config *)
Module Config.
Import Go World.

Record GeneralConfig := mkGeneral {
  General_Language : string;
  General_LogLevel : string;
  General_DataDir : string;
}.

Record VADConfig := mkVAD {
  VAD_Enabled : bool;
  VAD_Sensitivity : float;
  VAD_SilenceThresholdMs : Z;
  VAD_MinSpeechMs : Z;
}.

Record WakeWordConfig := mkWakeWord {
  WakeWord_Enabled : bool;
  WakeWord_Word : string;
  WakeWord_Threshold : float;
}.

Record AudioConfig := mkAudio {
  Audio_Device : string;
  Audio_SampleRate : Z;
  Audio_Channels : Z;
  Audio_ChunkSize : Z;
  Audio_VAD : VADConfig;
  Audio_WakeWord : WakeWordConfig;
}.

Record HotkeyConfig := mkHotkey {
  Hotkey_Enabled : bool;
  Hotkey_Key : string;
  Hotkey_Mode : string;
}.

Record WhisperConfig := mkWhisper {
  Whisper_BinaryPath : string;
  Whisper_ModelPath : string;
  Whisper_Language : string;
}.

Record OpenAISTTConfig := mkOpenAISTT {
  OpenAISTT_APIKey : string;
  OpenAISTT_Model : string;
}.

Record STTConfig := mkSTT {
  STT_Provider : string;
  STT_Whisper : WhisperConfig;
  STT_OpenAI : OpenAISTTConfig;
}.

Record OllamaConfig := mkOllama {
  Ollama_URL : string;
  Ollama_Model : string;
  Ollama_TimeoutSeconds : Z;
}.

Record OpenAILLMConfig := mkOpenAILLM {
  OpenAILLM_APIKey : string;
  OpenAILLM_Model : string;
  OpenAILLM_Temperature : float;
}.

Record LLMConfig := mkLLM {
  LLM_Provider : string;
  LLM_Ollama : OllamaConfig;
  LLM_OpenAI : OpenAILLMConfig;
}.

Record PiperConfig := mkPiper {
  Piper_BinaryPath : string;
  Piper_ModelPath : string;
  Piper_Speed : float;
}.

Record OpenAITTSConfig := mkOpenAITTS {
  OpenAITTS_APIKey : string;
  OpenAITTS_Model : string;
  OpenAITTS_Voice : string;
}.

Record TTSConfig := mkTTS {
  TTS_Provider : string;
  TTS_Piper : PiperConfig;
  TTS_OpenAI : OpenAITTSConfig;
}.

Record TwitchConfig := mkTwitch {
  Twitch_Enabled : bool;
  Twitch_ClientID : string;
  Twitch_ClientSecret : string;
  Twitch_RedirectURI : string;
  Twitch_BroadcasterID : string;
  Twitch_AccessToken : string;
  Twitch_RefreshToken : string;
}.

Record OBSConfig := mkOBS {
  OBS_Enabled : bool;
  OBS_URL : string;
  OBS_Password : string;
}.

Record MusicConfig := mkMusic {
  Music_Enabled : bool;
  Music_Folders : list string;
  Music_SupportedFormats : list string;
  Music_DefaultVolume : float;
  Music_Shuffle : bool;
}.

Record SoundsConfig := mkSounds {
  Sounds_Enabled : bool;
  Sounds_Wake : string;
  Sounds_Error : string;
  Sounds_StartRecording : string;
  Sounds_StopRecording : string;
}.

Record Config := mkConfig {
  General : GeneralConfig;
  Audio : AudioConfig;
  Hotkey : HotkeyConfig;
  STT : STTConfig;
  LLM : LLMConfig;
  TTS : TTSConfig;
  Twitch : TwitchConfig;
  OBS : OBSConfig;
  Music : MusicConfig;
  Sounds : SoundsConfig;
}.

Definition ConfigPaths : list string :=
  ["."; "./config"; "$HOME/.jarvis"; "/etc/jarvis"].

Definition ConfigName : string := "jarvis.config".

Definition DefaultConfig : Config :=
  mkConfig
    (mkGeneral "es" "info" "./data")
    (mkAudio "default" 16000 1 1024
       (mkVAD true 0.5%float 1500 300)
       (mkWakeWord true "jarvis" 0.7%float))
    (mkHotkey true "F4" "hold")
    (mkSTT "whisper"
       (mkWhisper "./bin/whisper" "./assets/models/whisper/ggml-base.bin" "es")
       (mkOpenAISTT EmptyString "whisper-1"))
    (mkLLM "ollama"
       (mkOllama "http://localhost:11434" "llama3.2:3b" 30)
       (mkOpenAILLM EmptyString "gpt-4o-mini" 0.3%float))
    (mkTTS "piper"
       (mkPiper "./bin/piper" "./assets/voices/piper/es_ES-davefx-medium.onnx"
          1.0%float)
       (mkOpenAITTS EmptyString "tts-1" "nova"))
    (mkTwitch false EmptyString EmptyString "http://localhost:3000/callback" EmptyString EmptyString EmptyString)
    (mkOBS false "ws://localhost:4455" EmptyString)
    (mkMusic true ["./music"] [".mp3"; ".wav"; ".ogg"; ".flac"] 0.5%float false)
    (mkSounds true "./assets/sounds/wake.wav" "./assets/sounds/error.wav"
       "./assets/sounds/beep_start.wav" "./assets/sounds/beep_end.wav").

(** A default for a field that is empty, and its numeric counterparts. *)
Definition orStr (v d : string) : string := if String.eqb v EmptyString then d else v.
Definition orInt (v d : Z) : Z := if v =? 0 then d else v.
Definition orFloat (v d : float) : float := if PrimFloat.eqb v 0%float then d else v.
Definition orList (v d : list string) : list string :=
  if Z.of_nat (List.length v) =? 0 then d else v.

Definition ApplyDefaults (cfg : Config) : Config :=
  let defaults := DefaultConfig in
  let g := General cfg in let dg := General defaults in
  let a := Audio cfg in let da := Audio defaults in
  let v := Audio_VAD a in let dv := Audio_VAD da in
  let w := Audio_WakeWord a in let dw := Audio_WakeWord da in
  let h := Hotkey cfg in let dh := Hotkey defaults in
  let s := STT cfg in let ds := STT defaults in
  let l := LLM cfg in let dl := LLM defaults in
  let t := TTS cfg in let dt := TTS defaults in
  let tw := Twitch cfg in let dtw := Twitch defaults in
  let o := OBS cfg in let do := OBS defaults in
  let m := Music cfg in let dm := Music defaults in
  let so := Sounds cfg in let dso := Sounds defaults in
  mkConfig
    (mkGeneral (orStr (General_Language g) (General_Language dg))
       (orStr (General_LogLevel g) (General_LogLevel dg))
       (orStr (General_DataDir g) (General_DataDir dg)))
    (mkAudio (orStr (Audio_Device a) (Audio_Device da))
       (orInt (Audio_SampleRate a) (Audio_SampleRate da))
       (orInt (Audio_Channels a) (Audio_Channels da))
       (orInt (Audio_ChunkSize a) (Audio_ChunkSize da))
       (mkVAD (VAD_Enabled v) (VAD_Sensitivity v)
          (orInt (VAD_SilenceThresholdMs v) (VAD_SilenceThresholdMs dv))
          (orInt (VAD_MinSpeechMs v) (VAD_MinSpeechMs dv)))
       (mkWakeWord (WakeWord_Enabled w)
          (orStr (WakeWord_Word w) (WakeWord_Word dw))
          (orFloat (WakeWord_Threshold w) (WakeWord_Threshold dw))))
    (mkHotkey (Hotkey_Enabled h)
       (orStr (Hotkey_Key h) (Hotkey_Key dh))
       (orStr (Hotkey_Mode h) (Hotkey_Mode dh)))
    (mkSTT (orStr (STT_Provider s) (STT_Provider ds))
       (mkWhisper
          (orStr (Whisper_BinaryPath (STT_Whisper s)) (Whisper_BinaryPath (STT_Whisper ds)))
          (Whisper_ModelPath (STT_Whisper s))
          (orStr (Whisper_Language (STT_Whisper s)) (Whisper_Language (STT_Whisper ds))))
       (mkOpenAISTT (OpenAISTT_APIKey (STT_OpenAI s))
          (orStr (OpenAISTT_Model (STT_OpenAI s)) (OpenAISTT_Model (STT_OpenAI ds)))))
    (mkLLM (orStr (LLM_Provider l) (LLM_Provider dl))
       (mkOllama
          (orStr (Ollama_URL (LLM_Ollama l)) (Ollama_URL (LLM_Ollama dl)))
          (orStr (Ollama_Model (LLM_Ollama l)) (Ollama_Model (LLM_Ollama dl)))
          (orInt (Ollama_TimeoutSeconds (LLM_Ollama l))
             (Ollama_TimeoutSeconds (LLM_Ollama dl))))
       (mkOpenAILLM (OpenAILLM_APIKey (LLM_OpenAI l))
          (orStr (OpenAILLM_Model (LLM_OpenAI l)) (OpenAILLM_Model (LLM_OpenAI dl)))
          (orFloat (OpenAILLM_Temperature (LLM_OpenAI l))
             (OpenAILLM_Temperature (LLM_OpenAI dl)))))
    (mkTTS (orStr (TTS_Provider t) (TTS_Provider dt))
       (mkPiper
          (orStr (Piper_BinaryPath (TTS_Piper t)) (Piper_BinaryPath (TTS_Piper dt)))
          (Piper_ModelPath (TTS_Piper t))
          (orFloat (Piper_Speed (TTS_Piper t)) (Piper_Speed (TTS_Piper dt))))
       (mkOpenAITTS (OpenAITTS_APIKey (TTS_OpenAI t))
          (orStr (OpenAITTS_Model (TTS_OpenAI t)) (OpenAITTS_Model (TTS_OpenAI dt)))
          (orStr (OpenAITTS_Voice (TTS_OpenAI t)) (OpenAITTS_Voice (TTS_OpenAI dt)))))
    (mkTwitch (Twitch_Enabled tw) (Twitch_ClientID tw) (Twitch_ClientSecret tw)
       (orStr (Twitch_RedirectURI tw) (Twitch_RedirectURI dtw))
       (Twitch_BroadcasterID tw) (Twitch_AccessToken tw) (Twitch_RefreshToken tw))
    (mkOBS (OBS_Enabled o) (orStr (OBS_URL o) (OBS_URL do)) (OBS_Password o))
    (mkMusic (Music_Enabled m)
       (orList (Music_Folders m) (Music_Folders dm))
       (orList (Music_SupportedFormats m) (Music_SupportedFormats dm))
       (orFloat (Music_DefaultVolume m) (Music_DefaultVolume dm))
       (Music_Shuffle m))
    (mkSounds (Sounds_Enabled so)
       (orStr (Sounds_Wake so) (Sounds_Wake dso))
       (orStr (Sounds_Error so) (Sounds_Error dso))
       (orStr (Sounds_StartRecording so) (Sounds_StartRecording dso))
       (orStr (Sounds_StopRecording so) (Sounds_StopRecording dso))).

(** What the configuration library and the process environment answer. *)
Inductive ReadInConfigResult :=
| ConfigFileNotFoundError
| ReadError (err : error)
| ReadOk (unmarshal : result Config).

Record Env := mkEnv {
  (** [os.ExpandEnv] *)
  ExpandEnv : string -> string;
  (** [v.ReadInConfig] followed by [v.Unmarshal], given the explicit
      configuration file, if one was set, and the search paths added. *)
  ReadInConfig : option string -> list string -> ReadInConfigResult;
}.

Definition expandEnvVars (env : Env) (cfg : Config) : Config :=
  let x := ExpandEnv env in
  let s := STT cfg in
  let l := LLM cfg in
  let t := TTS cfg in
  let g := General cfg in
  let m := Music cfg in
  let so := Sounds cfg in
  mkConfig
    (mkGeneral (General_Language g) (General_LogLevel g) (x (General_DataDir g)))
    (Audio cfg)
    (Hotkey cfg)
    (mkSTT (STT_Provider s)
       (mkWhisper (x (Whisper_BinaryPath (STT_Whisper s)))
          (x (Whisper_ModelPath (STT_Whisper s)))
          (Whisper_Language (STT_Whisper s)))
       (mkOpenAISTT (x (OpenAISTT_APIKey (STT_OpenAI s)))
          (OpenAISTT_Model (STT_OpenAI s))))
    (mkLLM (LLM_Provider l) (LLM_Ollama l)
       (mkOpenAILLM (x (OpenAILLM_APIKey (LLM_OpenAI l)))
          (OpenAILLM_Model (LLM_OpenAI l))
          (OpenAILLM_Temperature (LLM_OpenAI l))))
    (mkTTS (TTS_Provider t)
       (mkPiper (x (Piper_BinaryPath (TTS_Piper t)))
          (x (Piper_ModelPath (TTS_Piper t)))
          (Piper_Speed (TTS_Piper t)))
       (mkOpenAITTS (x (OpenAITTS_APIKey (TTS_OpenAI t)))
          (OpenAITTS_Model (TTS_OpenAI t))
          (OpenAITTS_Voice (TTS_OpenAI t))))
    (Twitch cfg)
    (OBS cfg)
    (mkMusic (Music_Enabled m) (List.map x (Music_Folders m))
       (Music_SupportedFormats m) (Music_DefaultVolume m) (Music_Shuffle m))
    (mkSounds (Sounds_Enabled so) (x (Sounds_Wake so)) (x (Sounds_Error so))
       (x (Sounds_StartRecording so)) (x (Sounds_StopRecording so))).

Definition newline : string := String (ascii_of_nat 10) EmptyString.

Definition appendIf (c : bool) (msg : string) (errors : list string) : list string :=
  if c then push errors msg else errors.

(** [Validate]: [None] is the nil error. *)
Definition Validate (cfg : Config) : option error :=
  let errors := [] in
  (* STT *)
  let errors :=
    let p := STT_Provider (STT cfg) in
    if String.eqb p "whisper" then errors
    else if String.eqb p "openai" then
      appendIf (String.eqb (OpenAISTT_APIKey (STT_OpenAI (STT cfg))) EmptyString)
        "OpenAI API key required for STT when using OpenAI provider" errors
    else push errors ("invalid STT provider: " ++ p
                       ++ " (must be 'whisper' or 'openai')") in
  (* LLM *)
  let errors :=
    let p := LLM_Provider (LLM cfg) in
    let url := Ollama_URL (LLM_Ollama (LLM cfg)) in
    let key := OpenAILLM_APIKey (LLM_OpenAI (LLM cfg)) in
    if String.eqb p "ollama" then
      let errors :=
        appendIf (String.eqb url EmptyString)
          "Ollama URL required when using Ollama provider" errors in
      appendIf (String.eqb (Ollama_Model (LLM_Ollama (LLM cfg))) EmptyString)
        "Ollama model required when using Ollama provider" errors
    else if String.eqb p "openai" then
      appendIf (String.eqb key EmptyString)
        "OpenAI API key required for LLM when using OpenAI provider" errors
    else if String.eqb p "auto" then
      appendIf (String.eqb key EmptyString && String.eqb url EmptyString)
        "Auto LLM provider requires either Ollama config or OpenAI API key" errors
    else push errors ("invalid LLM provider: " ++ p
                       ++ " (must be 'ollama', 'openai' or 'auto')") in
  (* TTS *)
  let errors :=
    let p := TTS_Provider (TTS cfg) in
    let key := OpenAITTS_APIKey (TTS_OpenAI (TTS cfg)) in
    if String.eqb p "piper" then errors
    else if String.eqb p "openai" then
      appendIf (String.eqb key EmptyString)
        "OpenAI API key required for TTS when using OpenAI provider" errors
    else if String.eqb p "auto" then
      appendIf (String.eqb key EmptyString
                && String.eqb (Piper_BinaryPath (TTS_Piper (TTS cfg))) EmptyString)
        "Auto TTS provider requires either Piper binary or OpenAI API key" errors
    else push errors ("invalid TTS provider: " ++ p
                       ++ " (must be 'piper', 'openai' or 'auto')") in
  (* Twitch *)
  let errors :=
    if Twitch_Enabled (Twitch cfg) then
      appendIf (String.eqb (Twitch_ClientID (Twitch cfg)) EmptyString)
        "Twitch client_id required when Twitch is enabled" errors
    else errors in
  (* audio *)
  let errors :=
    appendIf (Audio_SampleRate (Audio cfg) <=? 0)
      "audio sample_rate must be positive" errors in
  let errors :=
    appendIf (Audio_Channels (Audio cfg) <=? 0)
      "audio channels must be positive" errors in
  (* VAD *)
  let errors :=
    let sens := VAD_Sensitivity (Audio_VAD (Audio cfg)) in
    appendIf (PrimFloat.ltb sens 0%float || PrimFloat.ltb 1%float sens)
      "VAD sensitivity must be between 0 and 1" errors in
  (* hotkey *)
  let errors :=
    if Hotkey_Enabled (Hotkey cfg) then
      appendIf (negb (String.eqb (Hotkey_Mode (Hotkey cfg)) "hold")
                && negb (String.eqb (Hotkey_Mode (Hotkey cfg)) "toggle"))
        "hotkey mode must be 'hold' or 'toggle'" errors
    else errors in
  (* music *)
  let errors :=
    let vol := Music_DefaultVolume (Music cfg) in
    appendIf (PrimFloat.ltb vol 0%float || PrimFloat.ltb 1%float vol)
      "music default_volume must be between 0 and 1" errors in
  if 0 <? Z.of_nat (List.length errors) then
    Some ("validation errors:" ++ newline ++ "- "
            ++ Join errors (newline ++ "- "))
  else None.

(** [Load]. *)
Definition Load (env : Env) (configPath : string) : result Config :=
  let read :=
    if negb (String.eqb configPath EmptyString) then
      ReadInConfig env (Some configPath) []
    else
      ReadInConfig env None (List.map (ExpandEnv env) ConfigPaths) in
  match read with
  | ConfigFileNotFoundError => Ok DefaultConfig
  | ReadError err => Err ("error reading config file: " ++ err)
  | ReadOk (Err err) => Err ("error parsing config file: " ++ err)
  | ReadOk (Ok cfg) =>
      let cfg := ApplyDefaults cfg in
      let cfg := expandEnvVars env cfg in
      match Validate cfg with
      | Some err => Err ("config validation error: " ++ err)
      | None => Ok cfg
      end
  end.

End Config.

(** ** internal/executor/twitch: authenticated requests and token refresh *)
Module TwitchExecutor.
Import Go Llm World.

Definition twitchAPIURL : string := "https://api.twitch.tv/helix".
Definition twitchAuthURL : string := "https://id.twitch.tv/oauth2".

Record Executor := mkExecutor {
  clientID : string;
  clientSecret : string;
  redirectURI : string;
  broadcasterID : string;
  accessToken : string;
  refreshToken : string;
  enabled : bool;
}.

Definition withTokens (e : Executor) (access refresh : string) : Executor :=
  mkExecutor (clientID e) (clientSecret e) (redirectURI e) (broadcasterID e)
    access refresh (enabled e).

(** What the network side answers. [Do] is [e.client.Do]: its answer may
    depend on everything that happened before. [NewRequestError] is the
    error of [http.NewRequestWithContext] for a method and a URL. *)
Record Net := mkNet {
  Do : Trace -> Request -> result Response;
  NewRequestError : string -> string -> option error;
}.

Definition log (tr : Trace) (ev : Event) : Trace := (tr ++ [ev])%list.

Definition refreshRequest (e : Executor) : Request :=
  mkRequest "POST" (twitchAuthURL ++ "/token")
    [("Content-Type", "application/x-www-form-urlencoded")]
    [("client_id", clientID e); ("client_secret", clientSecret e);
     ("grant_type", "refresh_token"); ("refresh_token", refreshToken e)]
    None.

(** The body of [refreshAccessToken]. *)
Definition refreshAccessToken_body (net : Net) (e : Executor) (tr : Trace)
  : option error * Executor * Trace :=
  if String.eqb (refreshToken e) EmptyString then
    (Some "no refresh token available", e, tr)
  else
    match NewRequestError net "POST" (twitchAuthURL ++ "/token") with
    | Some err => (Some err, e, tr)
    | None =>
        let req := refreshRequest e in
        let resp := Do net tr req in
        let tr := log tr (EvHTTP req resp) in
        match resp with
        | Err err => (Some err, e, tr)
        | Ok resp =>
            if negb (StatusCode resp =? 200) then
              (Some ("token refresh failed: " ++ Body resp), e, tr)
            else
              match Tokens resp with
              | Err err => (Some err, e, tr)
              | Ok (access, refresh) => (None, withTokens e access refresh, tr)
              end
        end
    end.

(** [refreshAccessToken]; its return is recorded in the trace. *)
Definition refreshAccessToken (net : Net) (e : Executor) (tr : Trace)
  : option error * Executor * Trace :=
  let '(err, e, tr) := refreshAccessToken_body net e tr in
  (err, e, log tr (EvRefresh err)).

Definition apiRequestOf (e : Executor) (method endpoint : string)
  (body : option string) : Request :=
  mkRequest method (twitchAPIURL ++ endpoint)
    (List.app
       [("Authorization", "Bearer " ++ accessToken e); ("Client-Id", clientID e)]
       match body with
       | Some _ => [("Content-Type", "application/json")]
       | None => []
       end)
    [] body.

(** [apiRequest]. It calls itself after a successful refresh; [fuel] bounds
    the depth of that recursion and [None] is returned when it runs out. *)
Fixpoint apiRequest (net : Net) (fuel : nat) (method endpoint : string)
  (body : option string) (e : Executor) (tr : Trace)
  : option (result string) * Executor * Trace :=
  match fuel with
  | O => (None, e, tr)
  | S fuel' =>
      let reqURL := twitchAPIURL ++ endpoint in
      match NewRequestError net method reqURL with
      | Some err => (Some (Err ("failed to create request: " ++ err)), e, tr)
      | None =>
          let req := apiRequestOf e method endpoint body in
          let resp := Do net tr req in
          let tr := log tr (EvHTTP req resp) in
          match resp with
          | Err err => (Some (Err ("request failed: " ++ err)), e, tr)
          | Ok resp =>
              match ReadErr resp with
              | Some err =>
                  (Some (Err ("failed to read response: " ++ err)), e, tr)
              | None =>
                  if StatusCode resp =? 401 then
                    let '(rerr, e, tr) := refreshAccessToken net e tr in
                    match rerr with
                    | Some err =>
                        (Some (Err ("unauthorized and failed to refresh token: "
                                      ++ err)), e, tr)
                    | None => apiRequest net fuel' method endpoint body e tr
                    end
                  else if 400 <=? StatusCode resp then
                    (Some (Err ("API error " ++ FormatD (StatusCode resp) ++ ": "
                                  ++ Body resp)), e, tr)
                  else (Some (Ok (Body resp)), e, tr)
              end
          end
      end
  end.

(** *** What a trace tells about a call *)

Definition isApiRequest (req : Request) : bool := HasPrefix (URL req) twitchAPIURL.

(** The requests sent to the API. *)
Definition apiRequests (evs : list Event) : nat :=
  List.length
    (List.filter
       (fun ev => match ev with
                  | EvHTTP req _ => isApiRequest req
                  | _ => false
                  end) evs).

(** The API answers that [apiRequest] takes as unauthorized: read without
    error, with status 401. *)
Definition unauthorizedAnswers (evs : list Event) : nat :=
  List.length
    (List.filter
       (fun ev => match ev with
                  | EvHTTP req (Ok resp) =>
                      isApiRequest req
                      && match ReadErr resp with Some _ => false | None => true end
                      && (StatusCode resp =? 401)
                  | _ => false
                  end) evs).

(** The calls of [refreshAccessToken]. *)
Definition refreshAttempts (evs : list Event) : nat :=
  List.length
    (List.filter
       (fun ev => match ev with EvRefresh _ => true | _ => false end) evs).

(** The calls of [refreshAccessToken] that returned nil. *)
Definition refreshSuccesses (evs : list Event) : nat :=
  List.length
    (List.filter
       (fun ev => match ev with EvRefresh None => true | _ => false end) evs).

End TwitchExecutor.

(** ** internal/executor/obs *)
Module ObsExecutor.
Import Go Llm World Executor.

Definition OpHello : Z := 0.
Definition OpIdentify : Z := 1.
Definition OpIdentified : Z := 2.
Definition OpRequest : Z := 6.

Record Authentication := mkAuthentication {
  Challenge : string;
  Salt : string;
}.

Record HelloData := mkHelloData {
  ObsWebSocketVersion : string;
  RPCVersion : Z;
  Hello_Authentication : option Authentication;
}.

Record RequestStatus := mkRequestStatus {
  Status_Result : bool;
  Status_Code : Z;
  Status_Comment : string;
}.

Record ResponseData := mkResponseData {
  Resp_RequestType : string;
  Resp_RequestID : string;
  Resp_RequestStatus : RequestStatus;
  Resp_ResponseData : gmap string Value;
}.

(** How the wait at the end of [sendRequest] ends. *)
Inductive Reply :=
| ReplyData (parsed : result ResponseData)
| CtxDone (err : error)
| Timeout.

(** What the OBS side answers, given what happened before. [generateAuth]
    is the double SHA-256/base64 digest, kept abstract. *)
Record Net := mkNet {
  Dial : Trace -> string -> option error;
  ReadJSON : Trace -> result ObsMessage;
  UnmarshalHello : string -> result HelloData;
  WriteJSON : Trace -> option error;
  Wait : Trace -> RequestData -> Reply;
  generateAuth : string -> string -> string -> string;
}.

Record Executor := mkExecutor {
  url : string;
  password : string;
  conn : bool;            (* [conn != nil] *)
  enabled : bool;
  connected : bool;
  requestID : Z;
}.

Definition NewExecutor (cfg : Config.OBSConfig) : Executor :=
  mkExecutor (Config.OBS_URL cfg) (Config.OBS_Password cfg) false
    (Config.OBS_Enabled cfg) false 0.

Definition Name (e : Executor) : string := "obs".

Definition SupportedActions (e : Executor) : list string :=
  ["obs.scene"; "obs.source.show"; "obs.source.hide"; "obs.volume";
   "obs.mute"; "obs.unmute"; "obs.text"].

Definition CanHandle (e : Executor) (action : string) : bool :=
  HasPrefix action "obs.".

Definition log (tr : Trace) (ev : Event) : Trace := (tr ++ [ev])%list.

Definition setConn (e : Executor) : Executor :=
  mkExecutor (url e) (password e) true (enabled e) (connected e) (requestID e).

Definition setConnected (e : Executor) (b : bool) : Executor :=
  mkExecutor (url e) (password e) (conn e) (enabled e) b (requestID e).

Definition setRequestID (e : Executor) (n : Z) : Executor :=
  mkExecutor (url e) (password e) (conn e) (enabled e) (connected e) n.

(** [Connect]: the handshake. *)
Definition Connect (net : Net) (e : Executor) (tr : Trace)
  : option error * Executor * Trace :=
  if connected e then (None, e, tr)
  else
    let derr := Dial net tr (url e) in
    let tr := log tr (EvObsDial (url e) derr) in
    match derr with
    | Some err => (Some ("failed to connect to OBS: " ++ err), e, tr)
    | None =>
        let e := setConn e in
        let msg := ReadJSON net tr in
        let tr := log tr (EvObsRead msg) in
        match msg with
        | Err err => (Some ("failed to read hello: " ++ err), e, log tr EvObsClose)
        | Ok msg =>
            if negb (Op msg =? OpHello) then
              (Some ("expected Hello, got op " ++ FormatD (Op msg)), e,
               log tr EvObsClose)
            else
              match UnmarshalHello net (D msg) with
              | Err err =>
                  (Some ("failed to parse hello: " ++ err), e, log tr EvObsClose)
              | Ok hello =>
                  let auth :=
                    match Hello_Authentication hello with
                    | Some a =>
                        if negb (String.eqb (password e) EmptyString)
                        then generateAuth net (password e) (Salt a) (Challenge a)
                        else EmptyString
                    | None => EmptyString
                    end in
                  let werr := WriteJSON net tr in
                  let tr := log tr (EvObsIdentify auth werr) in
                  match werr with
                  | Some err =>
                      (Some ("failed to send identify: " ++ err), e,
                       log tr EvObsClose)
                  | None =>
                      let msg := ReadJSON net tr in
                      let tr := log tr (EvObsRead msg) in
                      match msg with
                      | Err err =>
                          (Some ("failed to read identified: " ++ err), e,
                           log tr EvObsClose)
                      | Ok msg =>
                          if negb (Op msg =? OpIdentified) then
                            (Some ("authentication failed, got op "
                                     ++ FormatD (Op msg)), e, log tr EvObsClose)
                          else (None, setConnected e true, tr)
                      end
                  end
              end
        end
    end.

(** [sendRequest] *)
Definition sendRequest (net : Net) (requestType : string)
  (data : option (list (string * Value))) (e : Executor) (tr : Trace)
  : result ResponseData * Executor * Trace :=
  if negb (connected e) then (Err "not connected to OBS", e, tr)
  else
    let reqID := requestID e + 1 in
    let e := setRequestID e reqID in
    let request := mkRequestData requestType (FormatD reqID) data in
    let werr := WriteJSON net tr in
    let tr := log tr (EvObsSend request werr) in
    match werr with
    | Some err => (Err ("failed to send request: " ++ err), e, tr)
    | None =>
        match Wait net tr request with
        | ReplyData (Err err) => (Err ("failed to parse response: " ++ err), e, tr)
        | ReplyData (Ok resp) => (Ok resp, e, tr)
        | CtxDone err => (Err err, e, tr)
        | Timeout => (Err "request timeout", e, tr)
        end
    end.

Definition Ret : Type := (Result * option error) * Executor * Trace.

Definition setScene (net : Net) (action : Action) (e : Executor) (tr : Trace) : Ret :=
  let scene := GetStringParam action "scene" in
  if String.eqb scene EmptyString then
    ((NewErrorResult "scene name is required", None), e, tr)
  else
    let '(resp, e, tr) :=
      sendRequest net "SetCurrentProgramScene"
        (Some [("sceneName", VString scene)]) e tr in
    match resp with
    | Err err => ((NewErrorResult err, Some err), e, tr)
    | Ok resp =>
        if negb (Status_Result (Resp_RequestStatus resp)) then
          ((NewErrorResult ("failed to change scene: "
                              ++ Status_Comment (Resp_RequestStatus resp)), None),
           e, tr)
        else ((NewResult ("Changed to scene: " ++ scene), None), e, tr)
    end.

Definition setSourceVisibility (net : Net) (action : Action) (visible : bool)
  (e : Executor) (tr : Trace) : Ret :=
  let source := GetStringParam action "source" in
  if String.eqb source EmptyString then
    ((NewErrorResult "source name is required", None), e, tr)
  else
    let '(sceneResp, e, tr) := sendRequest net "GetCurrentProgramScene" None e tr in
    match sceneResp with
    | Err err => ((NewErrorResult err, Some err), e, tr)
    | Ok sceneResp =>
        match Resp_ResponseData sceneResp !! "currentProgramSceneName" with
        | Some (VString sceneName) =>
            let '(itemResp, e, tr) :=
              sendRequest net "GetSceneItemId"
                (Some [("sceneName", VString sceneName);
                       ("sourceName", VString source)]) e tr in
            match itemResp with
            | Err err => ((NewErrorResult err, Some err), e, tr)
            | Ok itemResp =>
                if negb (Status_Result (Resp_RequestStatus itemResp)) then
                  ((NewErrorResult ("source not found: " ++ source), None), e, tr)
                else
                  match Resp_ResponseData itemResp !! "sceneItemId" with
                  | Some (VFloat64 sceneItemId) =>
                      let '(resp, e, tr) :=
                        sendRequest net "SetSceneItemEnabled"
                          (Some [("sceneName", VString sceneName);
                                 ("sceneItemId", VInt (int_of_float64 sceneItemId));
                                 ("sceneItemEnabled", VBool visible)]) e tr in
                      match resp with
                      | Err err => ((NewErrorResult err, Some err), e, tr)
                      | Ok resp =>
                          if negb (Status_Result (Resp_RequestStatus resp)) then
                            ((NewErrorResult
                                ("failed to set visibility: "
                                   ++ Status_Comment (Resp_RequestStatus resp)),
                              None), e, tr)
                          else
                            let action_str := if visible then "shown" else "hidden" in
                            ((NewResult ("Source " ++ source ++ " " ++ action_str),
                              None), e, tr)
                      end
                  | _ =>
                      ((NewErrorResult "could not get scene item ID", None), e, tr)
                  end
            end
        | _ => ((NewErrorResult "could not get current scene", None), e, tr)
        end
    end.

(** The clamp at the head of [setVolume]. *)
Definition clampVolume (volume : float) : float :=
  let volume := if PrimFloat.ltb volume 0%float then 0%float else volume in
  if PrimFloat.ltb 1%float volume then 1%float else volume.

(** The mapping to decibels in [setVolume], applied to the clamped volume. *)
Definition volumeDb (volume : float) : float :=
  if PrimFloat.leb volume 0%float then (-100)%float
  else PrimFloat.mul (PrimFloat.mul 20%float (PrimFloat.sub volume 1%float)) 2%float.

Definition setVolume (net : Net) (action : Action) (e : Executor) (tr : Trace) : Ret :=
  let source := GetStringParam action "source" in
  if String.eqb source EmptyString then
    ((NewErrorResult "source name is required", None), e, tr)
  else
    let volume := clampVolume (GetFloatParam action "volume") in
    let '(resp, e, tr) :=
      sendRequest net "SetInputVolume"
        (Some [("inputName", VString source);
               ("inputVolumeDb", VFloat64 (volumeDb volume))]) e tr in
    match resp with
    | Err err => ((NewErrorResult err, Some err), e, tr)
    | Ok resp =>
        if negb (Status_Result (Resp_RequestStatus resp)) then
          ((NewErrorResult ("failed to set volume: "
                              ++ Status_Comment (Resp_RequestStatus resp)), None),
           e, tr)
        else
          ((NewResult ("Volume of " ++ source ++ " set to "
                         ++ FormatF0 (PrimFloat.mul volume 100%float) ++ "%"),
            None), e, tr)
    end.

Definition setMute (net : Net) (action : Action) (muted : bool)
  (e : Executor) (tr : Trace) : Ret :=
  let source := GetStringParam action "source" in
  if String.eqb source EmptyString then
    ((NewErrorResult "source name is required", None), e, tr)
  else
    let '(resp, e, tr) :=
      sendRequest net "SetInputMute"
        (Some [("inputName", VString source); ("inputMuted", VBool muted)]) e tr in
    match resp with
    | Err err => ((NewErrorResult err, Some err), e, tr)
    | Ok resp =>
        if negb (Status_Result (Resp_RequestStatus resp)) then
          ((NewErrorResult ("failed to set mute: "
                              ++ Status_Comment (Resp_RequestStatus resp)), None),
           e, tr)
        else
          let action_str := if muted then "muted" else "unmuted" in
          ((NewResult ("Source " ++ source ++ " " ++ action_str), None), e, tr)
    end.

Definition setText (net : Net) (action : Action) (e : Executor) (tr : Trace) : Ret :=
  let source := GetStringParam action "source" in
  if String.eqb source EmptyString then
    ((NewErrorResult "source name is required", None), e, tr)
  else
    let text := GetStringParam action "text" in
    let '(resp, e, tr) :=
      sendRequest net "SetInputSettings"
        (Some [("inputName", VString source);
               ("inputSettings", VMap [("text", VString text)])]) e tr in
    match resp with
    | Err err => ((NewErrorResult err, Some err), e, tr)
    | Ok resp =>
        if negb (Status_Result (Resp_RequestStatus resp)) then
          ((NewErrorResult ("failed to set text: "
                              ++ Status_Comment (Resp_RequestStatus resp)), None),
           e, tr)
        else ((NewResult "Text updated", None), e, tr)
    end.

(** [Execute] *)
Definition Execute (net : Net) (e : Executor) (action : Action) (tr : Trace) : Ret :=
  if negb (enabled e) then
    ((NewErrorResult "OBS is not enabled", None), e, tr)
  else
    let '(cerr, e, tr) :=
      if negb (connected e) then Connect net e tr else (None, e, tr) in
    match cerr with
    | Some err => ((NewErrorResult err, Some err), e, tr)
    | None =>
        let a := Action_name action in
        if String.eqb a "obs.scene" then setScene net action e tr
        else if String.eqb a "obs.source.show" then
          setSourceVisibility net action true e tr
        else if String.eqb a "obs.source.hide" then
          setSourceVisibility net action false e tr
        else if String.eqb a "obs.volume" then setVolume net action e tr
        else if String.eqb a "obs.mute" then setMute net action true e tr
        else if String.eqb a "obs.unmute" then setMute net action false e tr
        else if String.eqb a "obs.text" then setText net action e tr
        else ((NewErrorResult ("unknown OBS action: " ++ a), None), e, tr)
    end.

Definition IsAvailable (e : Executor) : bool := enabled e && connected e.

(** The OBS executor as an implementation of the interface: the events
    added are those [Execute] has put after the trace it was given. *)
Definition obsOps (net : Net) : ExecutorOps Executor :=
  {| Executor.Name := Name;
     Executor.SupportedActions := SupportedActions;
     Executor.CanHandle := CanHandle;
     Executor.Execute := fun e action tr =>
       let '(r, e, tr') := Execute net e action tr in
       (Returns r, e, List.skipn (List.length tr) tr');
     Executor.IsAvailable := IsAvailable |}.

End ObsExecutor.

(** ** internal/executor/music *)
Module MusicExecutor.
Import Go Llm World Executor.

(** One visit of [filepath.Walk]'s callback. *)
Record WalkEntry := mkWalkEntry {
  path : string;
  IsDir : bool;
  walkErr : bool;       (* the callback's [err != nil] *)
}.

(** The file system and the library calls whose tables are not modelled:
    the operating system [path/filepath] is built for, what
    [filepath.Walk] visits under a folder, [strings.ToLower], and the
    permutation [rand.Shuffle] picks. *)
Record Env := mkEnv {
  OS : Platform;
  Walk : string -> list WalkEntry;
  ToLower : string -> string;
  Shuffle : list string -> list string;
}.

Record Executor := mkExecutor {
  folders : list string;
  supportedFormats : list string;
  defaultVolume : float;
  shuffle : bool;
  enabled : bool;
  playlist : list string;
  currentIdx : Z;
  isPlaying : bool;
  isPaused : bool;
  volume : float;
  currentCmd : bool;      (* [currentCmd != nil && currentCmd.Process != nil] *)
}.

Definition NewExecutor (cfg : Config.MusicConfig) : Executor :=
  mkExecutor (Config.Music_Folders cfg) (Config.Music_SupportedFormats cfg)
    (Config.Music_DefaultVolume cfg) (Config.Music_Shuffle cfg)
    (Config.Music_Enabled cfg) [] 0 false false (Config.Music_DefaultVolume cfg)
    false.

Definition setPlaylist (e : Executor) (pl : list string) : Executor :=
  mkExecutor (folders e) (supportedFormats e) (defaultVolume e) (shuffle e)
    (enabled e) pl (currentIdx e) (isPlaying e) (isPaused e) (volume e)
    (currentCmd e).

Definition setCurrentIdx (e : Executor) (i : Z) : Executor :=
  mkExecutor (folders e) (supportedFormats e) (defaultVolume e) (shuffle e)
    (enabled e) (playlist e) i (isPlaying e) (isPaused e) (volume e)
    (currentCmd e).

Definition setPlaying (e : Executor) (playing paused : bool) : Executor :=
  mkExecutor (folders e) (supportedFormats e) (defaultVolume e) (shuffle e)
    (enabled e) (playlist e) (currentIdx e) playing paused (volume e)
    (currentCmd e).

Definition setVolumeField (e : Executor) (v : float) : Executor :=
  mkExecutor (folders e) (supportedFormats e) (defaultVolume e) (shuffle e)
    (enabled e) (playlist e) (currentIdx e) (isPlaying e) (isPaused e) v
    (currentCmd e).

Definition log (tr : Trace) (ev : Event) : Trace := (tr ++ [ev])%list.

Definition Name (e : Executor) : string := "music".

Definition SupportedActions (e : Executor) : list string :=
  ["music.play"; "music.pause"; "music.resume"; "music.next";
   "music.previous"; "music.volume"; "music.stop"].

Definition CanHandle (e : Executor) (action : string) : bool :=
  HasPrefix action "music.".

Definition IsAvailable (e : Executor) : bool := enabled e.

Definition lenPlaylist (e : Executor) : Z := Z.of_nat (List.length (playlist e)).

(** [playlist[i]]; [None] is the index-out-of-range panic. *)
Definition track_at (e : Executor) (i : Z) : option string :=
  if i <? 0 then None else nth_error (playlist e) (Z.to_nat i).

(** The callback of [filepath.Walk] in [loadPlaylist]: whether the visited
    entry is appended to the playlist. *)
Definition accepted (env : Env) (e : Executor) (query : string) (w : WalkEntry)
  : bool :=
  if walkErr w then false
  else if IsDir w then false
  else
    let ext := ToLower env (Ext (OS env) (path w)) in
    if negb (existsb (fun fmt => String.eqb ext fmt) (supportedFormats e)) then false
    else if negb (String.eqb query EmptyString) then
      Contains (ToLower env (Base (OS env) (path w))) query
    else true.

(** [loadPlaylist]; it always returns a nil error. *)
Definition loadPlaylist (env : Env) (query : string) (e : Executor) : Executor :=
  let query := ToLower env query in
  setPlaylist e
    (flat_map
       (fun folder =>
          List.map path (List.filter (accepted env e query) (Walk env folder)))
       (folders e)).

Definition shufflePlaylist (env : Env) (e : Executor) : Executor :=
  setPlaylist e (Shuffle env (playlist e)).

Definition Ret : Type := Outcome (Result * option error) * Executor * Trace.

(** [play] *)
Definition play (env : Env) (action : Action) (e : Executor) (tr : Trace) : Ret :=
  let query := GetStringParam action "query" in
  let e := loadPlaylist env query e in
  if lenPlaylist e =? 0 then
    (Returns (NewErrorResult "no music found", None), e, tr)
  else
    let e := if shuffle e then shufflePlaylist env e else e in
    let e := setCurrentIdx e 0 in
    let tr := log tr EvStartPlayLoop in
    match track_at e (currentIdx e) with
    | None => (Panics "index out of range", e, tr)
    | Some p =>
        let currentTrack := Base (OS env) p in
        (Returns (NewResultWithData "Playing music"
                    [("track", VString currentTrack);
                     ("total", VInt (lenPlaylist e))], None), e, tr)
    end.

(** One round of [playLoop], run on its own: [None] when the loop returns.
    [stopRequested] tells whether a stop signal is pending once the track
    has ended. *)
Definition playLoop_round (stopRequested : bool) (e : Executor) (tr : Trace)
  : option unit * Executor * Trace :=
  if lenPlaylist e <=? currentIdx e then (None, setPlaying e false (isPaused e), tr)
  else
    match track_at e (currentIdx e) with
    | None => (None, e, tr)
    | Some track =>
        let e := setPlaying e true false in
        let tr := log tr (EvPlayTrack track) in
        if stopRequested then (None, setPlaying e false (isPaused e), tr)
        else (Some tt, setCurrentIdx e (currentIdx e + 1), tr)
    end.

Definition killCurrent (e : Executor) (tr : Trace) : Trace :=
  if currentCmd e then log tr EvKillPlayer else tr.

(** [pause] *)
Definition pause (e : Executor) (tr : Trace) : Ret :=
  if negb (isPlaying e) then
    (Returns (NewErrorResult "nothing is playing", None), e, tr)
  else
    let tr := killCurrent e tr in
    (Returns (NewResult "Music paused", None), setPlaying e (isPlaying e) true, tr).

(** [resume] *)
Definition resume (e : Executor) (tr : Trace) : Ret :=
  if negb (isPaused e) then
    (Returns (NewErrorResult "music is not paused", None), e, tr)
  else
    (Returns (NewResult "Music resumed", None), setPlaying e (isPlaying e) false,
     log tr EvStartPlayLoop).

(** [next] *)
Definition next (env : Env) (e : Executor) (tr : Trace) : Ret :=
  if lenPlaylist e =? 0 then
    (Returns (NewErrorResult "no playlist", None), e, tr)
  else
    let tr := killCurrent e tr in
    let nextIdx := currentIdx e + 1 in
    let nextIdx := if lenPlaylist e <=? nextIdx then 0 else nextIdx in
    if nextIdx <? lenPlaylist e then
      match track_at e nextIdx with
      | None => (Panics "index out of range", e, tr)
      | Some p =>
          (Returns (NewResultWithData "Next track"
                      [("track", VString (Base (OS env) p))], None), e, tr)
      end
    else
      (Returns (NewResultWithData "Next track" [("track", VString EmptyString)], None),
       e, tr).

(** [previous] *)
Definition previous (env : Env) (e : Executor) (tr : Trace) : Ret :=
  if lenPlaylist e =? 0 then
    (Returns (NewErrorResult "no playlist", None), e, tr)
  else
    let tr := killCurrent e tr in
    let e := setCurrentIdx e (currentIdx e - 2) in
    let e := if currentIdx e <? 0 then setCurrentIdx e (lenPlaylist e - 2) else e in
    let e := if currentIdx e <? 0 then setCurrentIdx e 0 else e in
    match track_at e (currentIdx e + 1) with
    | None => (Panics "index out of range", e, tr)
    | Some p =>
        (Returns (NewResultWithData "Previous track"
                    [("track", VString (Base (OS env) p))], None), e, tr)
    end.

(** [setVolume] *)
Definition setVolume (action : Action) (e : Executor) (tr : Trace) : Ret :=
  let volume := GetFloatParam action "volume" in
  let volume := if PrimFloat.ltb volume 0%float then 0%float else volume in
  let volume := if PrimFloat.ltb 1%float volume then 1%float else volume in
  (Returns (NewResult ("Volume set to "
                         ++ FormatF0 (PrimFloat.mul volume 100%float) ++ "%"),
            None), setVolumeField e volume, tr).

(** [stopPlayback] *)
Definition stopPlayback (e : Executor) (tr : Trace) : Executor * Trace :=
  let tr := killCurrent e tr in
  (setPlaying e false false, log tr EvStopSignal).

(** [stop] *)
Definition stop (e : Executor) (tr : Trace) : Ret :=
  let '(e, tr) := stopPlayback e tr in
  (Returns (NewResult "Music stopped", None), e, tr).

(** [Execute] *)
Definition Execute (env : Env) (e : Executor) (action : Action) (tr : Trace) : Ret :=
  if negb (enabled e) then
    (Returns (NewErrorResult "music is not enabled", None), e, tr)
  else
    let a := Action_name action in
    if String.eqb a "music.play" then play env action e tr
    else if String.eqb a "music.pause" then pause e tr
    else if String.eqb a "music.resume" then resume e tr
    else if String.eqb a "music.next" then next env e tr
    else if String.eqb a "music.previous" then previous env e tr
    else if String.eqb a "music.volume" then setVolume action e tr
    else if String.eqb a "music.stop" then stop e tr
    else (Returns (NewErrorResult ("unknown music action: " ++ a), None), e, tr).

Definition musicOps (env : Env) : ExecutorOps Executor :=
  {| Executor.Name := Name;
     Executor.SupportedActions := SupportedActions;
     Executor.CanHandle := CanHandle;
     Executor.Execute := fun e action tr =>
       let '(r, e, tr') := Execute env e action tr in
       (r, e, List.skipn (List.length tr) tr');
     Executor.IsAvailable := IsAvailable |}.

End MusicExecutor.

(** ** internal/brain: the orchestrator *)
Module Brain.
Import Go Llm World Executor.

(** The interface [llm.Provider]; the answers may depend on what happened
    before. *)
Record LLMProvider := mkLLMProvider {
  LLM_Name : string;
  LLM_IsAvailable : Trace -> bool;
  LLM_Complete : Trace -> string -> result Action;
}.

(** The interface [tts.Provider]. *)
Record TTSProvider := mkTTSProvider {
  TTS_Name : string;
  TTS_IsAvailable : Trace -> bool;
  TTS_Speak : Trace -> string -> option error;
}.

(** [Brain]; [None] is a nil provider. *)
Record Brain := mkBrain {
  llmProvider : option LLMProvider;
  ttsProvider : option TTSProvider;
  registry : Registry;
}.

Definition New (llm : option LLMProvider) (tts : option TTSProvider) : Brain :=
  mkBrain llm tts NewRegistry.

Definition RegisterExecutor (b : Brain) (exec : AnyExecutor) : Brain :=
  mkBrain (llmProvider b) (ttsProvider b) (Register (registry b) exec).

Definition setRegistry (b : Brain) (r : Registry) : Brain :=
  mkBrain (llmProvider b) (ttsProvider b) r.

Definition log (tr : Trace) (ev : Event) : Trace := (tr ++ [ev])%list.

Definition unavailableMessage : string :=
  "No hay ningún proveedor de IA disponible. Revisa tu configuración o prueba más tarde.".

Definition Ret : Type := Outcome (string * option error) * Brain * Trace.

(** [handleStatus]; it is only reached with a provider set. *)
Definition handleStatus (b : Brain) (llm : LLMProvider) (tr : Trace) : Ret :=
  let status := [] in
  let avail := LLM_IsAvailable llm tr in
  let tr := log tr EvLLMIsAvailable in
  let status :=
    if avail then push status ("LLM " ++ LLM_Name llm ++ ": activo")
    else push status ("LLM " ++ LLM_Name llm ++ ": no disponible") in
  let '(status, tr) :=
    match ttsProvider b with
    | Some tts =>
        let avail := TTS_IsAvailable tts tr in
        let tr := log tr EvTTSIsAvailable in
        if avail then (push status ("TTS " ++ TTS_Name tts ++ ": activo"), tr)
        else (push status "TTS: no disponible", tr)
    | None => (push status "TTS: no disponible", tr)
    end in
  let status :=
    fold_left
      (fun status actionName =>
         match Get (registry b) actionName with
         | Some exec =>
             if any_IsAvailable exec then push status (actionName ++ ": conectado")
             else push status (actionName ++ ": desconectado")
         | None => status
         end)
      ["twitch"; "obs"; "music"] status in
  (Returns ("Estado del sistema: " ++ Join status ", ", None), b, tr).

(** The number of actions filed under a category by [handleHelp]. *)
Definition categoryCount (actions : list string) (category : string) : Z :=
  Z.of_nat
    (List.length
       (List.filter
          (fun a =>
             let parts := Split (fun c => Ascii.eqb c ".") a in
             (2 <=? Z.of_nat (List.length parts))
             && match parts with
                | p0 :: _ => String.eqb p0 category
                | [] => false
                end)
          actions)).

(** [handleHelp] *)
Definition handleHelp (b : Brain) (tr : Trace) : Ret :=
  let actions := GetAllActions (registry b) in
  let help := ["Puedo ayudarte con:"] in
  let line (category label tail : string) (help : list string) :=
    let n := categoryCount actions category in
    if 0 <? n then push help ("- " ++ label ++ ": " ++ FormatD n ++ tail)
    else help in
  let help := line "twitch" "Twitch" " acciones (clips, título, bans)" help in
  let help := line "obs" "OBS" " acciones (escenas, fuentes, volumen)" help in
  let help := line "music" "Música" " acciones (play, pause, volumen)" help in
  let help := push help "¿Qué necesitas?" in
  (Returns (Join help " ", None), b, tr).

(** [handleCalc] *)
Definition handleCalc (b : Brain) (action : Action) (tr : Trace) : Ret :=
  match Params action !! "expression" with
  | Some (VString expression) =>
      if String.eqb expression EmptyString then
        (Returns ("No entiendo la expresión matemática. Por favor intenta de nuevo.",
                  None), b, tr)
      else
        match Calc.evaluateExpression expression with
        | Calc.Value _ => (Returns (Reply action, None), b, tr)
        | Calc.Error err =>
            (Returns ("No pude calcular esa expresión: " ++ err, None), b, tr)
        | Calc.Panic msg => (Panics msg, b, tr)
        | Calc.Unmodelled | Calc.OutOfFuel => (OutsideModel, b, tr)
        end
  | _ =>
      (Returns ("No entiendo la expresión matemática. Por favor intenta de nuevo.",
                None), b, tr)
  end.

(** [ProcessCommand] *)
Definition ProcessCommand (b : Brain) (text : string) (tr : Trace) : Ret :=
  match llmProvider b with
  | None => (Returns (unavailableMessage, None), b, tr)
  | Some llm =>
      let avail := LLM_IsAvailable llm tr in
      let tr := log tr EvLLMIsAvailable in
      if negb avail then (Returns (unavailableMessage, None), b, tr)
      else
        let completion := LLM_Complete llm tr text in
        let tr := log tr (EvLLMComplete text) in
        match completion with
        | Err err =>
            (Returns (EmptyString, Some ("failed to interpret command: " ++ err)), b, tr)
        | Ok action =>
            let a := Action_name action in
            if String.eqb a "none" || String.eqb a EmptyString then
              (Returns (Reply action, None), b, tr)
            else if String.eqb a "system.status" then handleStatus b llm tr
            else if String.eqb a "system.help" then handleHelp b tr
            else if String.eqb a "calc" then handleCalc b action tr
            else
              let '(out, r, tr) := Registry_Execute (registry b) action tr in
              let b := setRegistry b r in
              match out with
              | Panics msg => (Panics msg, b, tr)
              | OutsideModel => (OutsideModel, b, tr)
              | Returns (result, Some err) =>
                  (Returns (Reply action ++ ". Sin embargo, hubo un error: " ++ err,
                            None), b, tr)
              | Returns (result, None) =>
                  if negb (Success result) then
                    (Returns (Reply action ++ ". Error: " ++ Error result, None),
                     b, tr)
                  else (Returns (Reply action, None), b, tr)
              end
        end
  end.

(** [ProcessAndSpeak] *)
Definition ProcessAndSpeak (b : Brain) (text : string) (tr : Trace)
  : Outcome (option error) * Brain * Trace :=
  let '(out, b, tr) := ProcessCommand b text tr in
  match out with
  | Panics msg => (Panics msg, b, tr)
  | OutsideModel => (OutsideModel, b, tr)
  | Returns (response, err) =>
      let response :=
        match err with
        | Some _ => "Lo siento, ocurrió un error procesando tu solicitud."
        | None => response
        end in
      if String.eqb response EmptyString then (Returns None, b, tr)
      else
        match ttsProvider b with
        | Some tts =>
            let avail := TTS_IsAvailable tts tr in
            let tr := log tr EvTTSIsAvailable in
            if avail then
              let _ := TTS_Speak tts tr response in
              (Returns None, b, log tr (EvTTSSpeak response))
            else (Returns None, b, tr)
        | None => (Returns None, b, tr)
        end
  end.

End Brain.

(** ** internal/pipeline *)
Module Pipeline.
Import Go Llm World.

Inductive State :=
| StateIdle
| StateListening
| StateRecording
| StateProcessing.

Definition State_eqb (a b : State) : bool :=
  match a, b with
  | StateIdle, StateIdle | StateListening, StateListening
  | StateRecording, StateRecording | StateProcessing, StateProcessing => true
  | _, _ => false
  end.

Definition State_code (s : State) : Z :=
  match s with
  | StateIdle => 0
  | StateListening => 1
  | StateRecording => 2
  | StateProcessing => 3
  end.

(** A channel of [struct{}] on which nothing is ever sent: all that matters
    is whether it has been closed. *)
Inductive SignalChan :=
| ChanOpen
| ChanClosed.

(** A [time.Time] as nanoseconds counted from the zero time; [time.Now()]
    is never the zero time. *)
Definition Time := Z.
Definition zeroTime : Time := 0.
Definition IsZero (t : Time) : bool := t =? 0.

Definition Millisecond : Z := 1000000.

(** The interface [stt.Provider], reduced to the text of [Transcribe]. *)
Record STTProvider := mkSTTProvider {
  Transcribe : Trace -> list Byte.byte -> result string;
}.

Record Pipeline := mkPipeline {
  cfg : Config.Config;
  sttProvider : STTProvider;
  brain : Brain.Brain;
  state : State;
  audioBuffer : list Byte.byte;
  wakeWordChan : bool;                 (* capacity 1: a signal is pending *)
  hotkeyDown : bool;
  hotkeyUp : bool;
  audioChan : list (list Byte.byte);    (* capacity 100 *)
  stopChan : SignalChan;
  silenceStart : Time;
  speechStart : Time;
  hasSpeech : bool;
  onStateChange : bool;                (* the callback is not nil *)
  onTranscript : bool;
  onResponse : bool;
  onError : bool;
}.

Definition NewPipeline (cfg : Config.Config) (sttProvider : STTProvider)
  (brn : Brain.Brain) : Pipeline :=
  mkPipeline cfg sttProvider brn StateIdle [] false false false [] ChanOpen
    zeroTime zeroTime false false false false false.

Definition log (tr : Trace) (ev : Event) : Trace := (tr ++ [ev])%list.

Definition withState (p : Pipeline) (s : State) : Pipeline :=
  mkPipeline (cfg p) (sttProvider p) (brain p) s (audioBuffer p)
    (wakeWordChan p) (hotkeyDown p) (hotkeyUp p) (audioChan p) (stopChan p)
    (silenceStart p) (speechStart p) (hasSpeech p)
    (onStateChange p) (onTranscript p) (onResponse p) (onError p).

Definition withBuffer (p : Pipeline) (buf : list Byte.byte) : Pipeline :=
  mkPipeline (cfg p) (sttProvider p) (brain p) (state p) buf
    (wakeWordChan p) (hotkeyDown p) (hotkeyUp p) (audioChan p) (stopChan p)
    (silenceStart p) (speechStart p) (hasSpeech p)
    (onStateChange p) (onTranscript p) (onResponse p) (onError p).

Definition withBrain (p : Pipeline) (b : Brain.Brain) : Pipeline :=
  mkPipeline (cfg p) (sttProvider p) b (state p) (audioBuffer p)
    (wakeWordChan p) (hotkeyDown p) (hotkeyUp p) (audioChan p) (stopChan p)
    (silenceStart p) (speechStart p) (hasSpeech p)
    (onStateChange p) (onTranscript p) (onResponse p) (onError p).

Definition withChans (p : Pipeline) (wake down up : bool)
  (audio : list (list Byte.byte)) (stop : SignalChan) : Pipeline :=
  mkPipeline (cfg p) (sttProvider p) (brain p) (state p) (audioBuffer p)
    wake down up audio stop
    (silenceStart p) (speechStart p) (hasSpeech p)
    (onStateChange p) (onTranscript p) (onResponse p) (onError p).

Definition withVAD (p : Pipeline) (silence speech : Time) (has : bool) : Pipeline :=
  mkPipeline (cfg p) (sttProvider p) (brain p) (state p) (audioBuffer p)
    (wakeWordChan p) (hotkeyDown p) (hotkeyUp p) (audioChan p) (stopChan p)
    silence speech has
    (onStateChange p) (onTranscript p) (onResponse p) (onError p).

Definition SetCallbacks (p : Pipeline) (stateChange transcript response error : bool)
  : Pipeline :=
  mkPipeline (cfg p) (sttProvider p) (brain p) (state p) (audioBuffer p)
    (wakeWordChan p) (hotkeyDown p) (hotkeyUp p) (audioChan p) (stopChan p)
    (silenceStart p) (speechStart p) (hasSpeech p)
    stateChange transcript response error.

(** [setState] *)
Definition setState (p : Pipeline) (s : State) (tr : Trace) : Pipeline * Trace :=
  let oldState := state p in
  let p := withState p s in
  if negb (State_eqb oldState s) && onStateChange p
  then (p, log tr (EvOnStateChange (State_code s)))
  else (p, tr).

Definition GetState (p : Pipeline) : State := state p.

(** [Stop]: closing a closed channel panics. *)
Definition Stop (p : Pipeline) : Outcome Pipeline :=
  match stopChan p with
  | ChanOpen =>
      Returns (withChans p (wakeWordChan p) (hotkeyDown p) (hotkeyUp p)
                 (audioChan p) ChanClosed)
  | ChanClosed => Panics "close of closed channel"
  end.

(** The triggers: non-blocking sends. *)
Definition TriggerWakeWord (p : Pipeline) : Pipeline :=
  withChans p true (hotkeyDown p) (hotkeyUp p) (audioChan p) (stopChan p).

Definition TriggerHotkeyDown (p : Pipeline) : Pipeline :=
  withChans p (wakeWordChan p) true (hotkeyUp p) (audioChan p) (stopChan p).

Definition TriggerHotkeyUp (p : Pipeline) : Pipeline :=
  withChans p (wakeWordChan p) (hotkeyDown p) true (audioChan p) (stopChan p).

Definition FeedAudio (p : Pipeline) (audio : list Byte.byte) : Pipeline :=
  if Z.of_nat (List.length (audioChan p)) <? 100 then
    withChans p (wakeWordChan p) (hotkeyDown p) (hotkeyUp p)
      (audioChan p ++ [audio])%list (stopChan p)
  else p.

(** [startRecording] *)
Definition startRecording (p : Pipeline) (tr : Trace) : Pipeline * Trace :=
  let p := withBuffer p [] in
  let '(p, tr) := setState p StateRecording tr in
  (withVAD p zeroTime zeroTime false, tr).

(** The threshold of the energy test: [500 * (1 - sensitivity)]. *)
Definition vadThreshold (p : Pipeline) : float :=
  PrimFloat.mul (float64_of_Z 500)
    (PrimFloat.sub 1%float
       (Config.VAD_Sensitivity (Config.Audio_VAD (Config.Audio (cfg p))))).

Definition vadEnabled (p : Pipeline) : bool :=
  Config.VAD_Enabled (Config.Audio_VAD (Config.Audio (cfg p))).

(** [analyzeVAD]; [now] is what [time.Now()] returns. *)
Definition analyzeVAD (now : Time) (p : Pipeline) (audio : list Byte.byte)
  : Pipeline :=
  let samples := Utils.BytesToInt16 audio in
  let rms := Utils.CalculateRMS samples in
  let isSpeech := PrimFloat.ltb (vadThreshold p) rms in
  if isSpeech then
    let p :=
      if negb (hasSpeech p) then withVAD p (silenceStart p) now true else p in
    withVAD p zeroTime (speechStart p) (hasSpeech p)
  else if hasSpeech p && IsZero (silenceStart p) then
    withVAD p now (speechStart p) (hasSpeech p)
  else p.

(** [handleAudio] *)
Definition handleAudio (now : Time) (p : Pipeline) (audio : list Byte.byte)
  (tr : Trace) : Pipeline * Trace :=
  let state0 := GetState p in
  let '(p, tr) :=
    if State_eqb state0 StateIdle && vadEnabled p then
      let samples := Utils.BytesToInt16 audio in
      let rms := Utils.CalculateRMS samples in
      if PrimFloat.ltb (vadThreshold p) rms then
        let '(p, tr) := setState p StateListening tr in
        let '(p, tr) := startRecording p tr in
        (p, log tr EvSpawnRecorder)
      else (p, tr)
    else (p, tr) in
  if State_eqb state0 StateListening || State_eqb state0 StateRecording
     || State_eqb (GetState p) StateListening
     || State_eqb (GetState p) StateRecording
  then
    let p := withBuffer p (audioBuffer p ++ audio)%list in
    if vadEnabled p then (analyzeVAD now p audio, tr) else (p, tr)
  else (p, tr).

(** [handleWakeWord] *)
Definition handleWakeWord (p : Pipeline) (tr : Trace) : Pipeline * Trace :=
  let '(p, tr) := setState p StateListening tr in
  let '(p, tr) := startRecording p tr in
  (p, log tr EvSpawnRecorder).

(** [time.Duration(MinSpeechMs) * time.Millisecond] *)
Definition minSpeechOf (p : Pipeline) : Z :=
  wrap64 (Config.VAD_MinSpeechMs (Config.Audio_VAD (Config.Audio (cfg p)))
          * Millisecond).

(** The test of the minimum speech duration in [processRecordedAudio]:
    a speech onset is flagged and [time.Since(speechStart)] is below the
    minimum; [now] is the time at which it is evaluated. The difference of
    two times is taken in [Z]; [time.Since] departs from it only beyond the
    292 years a [Duration] holds. *)
Definition floorApplies (now : Time) (p : Pipeline) : bool :=
  hasSpeech p && negb (IsZero (speechStart p))
  && (now - speechStart p <? minSpeechOf p).

(** The body of [processRecordedAudio] between [setState(StateProcessing)]
    and the deferred [setState(StateIdle)]. *)
Definition processRecordedAudio_body (now : Time) (p : Pipeline) (tr : Trace)
  : Outcome unit * Pipeline * Trace :=
  let audio := audioBuffer p in
  let p := withBuffer p [] in
  if Z.of_nat (List.length audio) =? 0 then (Returns tt, p, tr)
  else
    if floorApplies now p then (Returns tt, p, tr)
    else
      let result := Transcribe (sttProvider p) tr audio in
      let tr := log tr (EvTranscribe audio) in
      match result with
      | Err err =>
          let tr :=
            if onError p then log tr (EvOnError ("transcription failed: " ++ err))
            else tr in
          (Returns tt, p, tr)
      | Ok text =>
          if String.eqb text EmptyString then (Returns tt, p, tr)
          else
            let tr := if onTranscript p then log tr (EvOnTranscript text) else tr in
            let '(out, b, tr) := Brain.ProcessCommand (brain p) text tr in
            let p := withBrain p b in
            match out with
            | Panics msg => (Panics msg, p, tr)
            | OutsideModel => (OutsideModel, p, tr)
            | Returns (response, Some err) =>
                let tr :=
                  if onError p
                  then log tr (EvOnError ("command processing failed: " ++ err))
                  else tr in
                (Returns tt, p, tr)
            | Returns (response, None) =>
                let tr :=
                  if negb (String.eqb response EmptyString) && onResponse p
                  then log tr (EvOnResponse response) else tr in
                let '(out, b, tr) := Brain.ProcessAndSpeak (brain p) text tr in
                let p := withBrain p b in
                match out with
                | Panics msg => (Panics msg, p, tr)
                | OutsideModel => (OutsideModel, p, tr)
                | Returns _ => (Returns tt, p, tr)
                end
            end
      end.

(** [processRecordedAudio] *)
Definition processRecordedAudio (now : Time) (p : Pipeline) (tr : Trace)
  : Outcome unit * Pipeline * Trace :=
  let '(p, tr) := setState p StateProcessing tr in
  let '(out, p, tr) := processRecordedAudio_body now p tr in
  let '(p, tr) := setState p StateIdle tr in
  (out, p, tr).

(** [handleHotkeyRelease] *)
Definition handleHotkeyRelease (now : Time) (p : Pipeline) (tr : Trace)
  : Outcome unit * Pipeline * Trace :=
  if negb (State_eqb (GetState p) StateRecording) then (Returns tt, p, tr)
  else processRecordedAudio now p tr.

(** The cases of the [select] in [run]. *)
Inductive SelectCase :=
| CaseCtxDone
| CaseStop
| CaseWakeWord
| CaseHotkeyDown
| CaseHotkeyUp
| CaseAudio.

(** Whether a case of the [select] can proceed. A receive on [stopChan]
    proceeds only once the channel is closed, since nothing is sent on it. *)
Definition ready (ctxDone : bool) (p : Pipeline) (c : SelectCase) : bool :=
  match c with
  | CaseCtxDone => ctxDone
  | CaseStop => match stopChan p with ChanClosed => true | ChanOpen => false end
  | CaseWakeWord => wakeWordChan p
  | CaseHotkeyDown => hotkeyDown p
  | CaseHotkeyUp => hotkeyUp p
  | CaseAudio => match audioChan p with [] => false | _ => true end
  end.

(** One round of [run] taking the case [c] of the [select]; [None] when no
    such round exists because the case is not ready. The Boolean tells
    whether [run] returns. *)
Definition run_round (ctxDone : bool) (now : Time) (c : SelectCase)
  (p : Pipeline) (tr : Trace) : option (Outcome bool * Pipeline * Trace) :=
  if negb (ready ctxDone p c) then None
  else
    match c with
    | CaseCtxDone => Some (Returns true, p, tr)
    | CaseStop => Some (Returns true, p, tr)
    | CaseWakeWord =>
        let p := withChans p false (hotkeyDown p) (hotkeyUp p) (audioChan p)
                   (stopChan p) in
        let '(p, tr) := handleWakeWord p tr in
        Some (Returns false, p, tr)
    | CaseHotkeyDown =>
        let p := withChans p (wakeWordChan p) false (hotkeyUp p) (audioChan p)
                   (stopChan p) in
        let '(p, tr) := startRecording p tr in
        Some (Returns false, p, tr)
    | CaseHotkeyUp =>
        let p := withChans p (wakeWordChan p) (hotkeyDown p) false (audioChan p)
                   (stopChan p) in
        let '(out, p, tr) := handleHotkeyRelease now p tr in
        match out with
        | Returns _ => Some (Returns false, p, tr)
        | Panics msg => Some (Panics msg, p, tr)
        | OutsideModel => Some (OutsideModel, p, tr)
        end
    | CaseAudio =>
        match audioChan p with
        | [] => None
        | audio :: rest =>
            let p := withChans p (wakeWordChan p) (hotkeyDown p) (hotkeyUp p) rest
                       (stopChan p) in
            let '(p, tr) := handleAudio now p audio tr in
            Some (Returns false, p, tr)
        end
    end.

End Pipeline.

(** ** pkg/utils: byte order, WAV header, normalisation *)
Module UtilsAudio.
Import Go Utils.

(** [byte(v)]: the low eight bits. *)
Definition byteOf (v : Z) : Byte.byte :=
  match Byte.of_N (Z.to_N (v mod 256)) with
  | Some b => b
  | None => x00
  end.

Definition uint16 (v : Z) : Z := v mod 2 ^ 16.
Definition uint32 (v : Z) : Z := v mod 2 ^ 32.

(** [binary.LittleEndian.PutUint16] and [PutUint32]. *)
Definition le16 (v : Z) : list Byte.byte := [byteOf v; byteOf (v / 2 ^ 8)].
Definition le32 (v : Z) : list Byte.byte :=
  [byteOf v; byteOf (v / 2 ^ 8); byteOf (v / 2 ^ 16); byteOf (v / 2 ^ 24)].

(** [binary.LittleEndian.Uint16] and [Uint32] on the head of a slice;
    [None] is the panic on a slice that is too short. *)
Definition Uint16 (b : list Byte.byte) : option Z :=
  match b with
  | b0 :: b1 :: _ => Some (byteVal b0 + 2 ^ 8 * byteVal b1)
  | _ => None
  end.

Definition Uint32 (b : list Byte.byte) : option Z :=
  match b with
  | b0 :: b1 :: b2 :: b3 :: _ =>
      Some (byteVal b0 + 2 ^ 8 * byteVal b1 + 2 ^ 16 * byteVal b2
            + 2 ^ 24 * byteVal b3)
  | _ => None
  end.

(** [Int16ToBytes]: samples are [int16] values. *)
Definition Int16ToBytes (samples : list Z) : list Byte.byte :=
  flat_map (fun sample => le16 (uint16 sample)) samples.

Definition tag (s : string) : list Byte.byte :=
  List.map byte_of_ascii (list_ascii_of_string s).

Record WAVHeader := mkWAVHeader {
  ChunkID : list Byte.byte;
  ChunkSize : Z;
  Format : list Byte.byte;
  Subchunk1ID : list Byte.byte;
  Subchunk1Size : Z;
  AudioFormat : Z;
  NumChannels : Z;
  SampleRate : Z;
  ByteRate : Z;
  BlockAlign : Z;
  BitsPerSample : Z;
  Subchunk2ID : list Byte.byte;
  Subchunk2Size : Z;
}.

(** [binary.Write(buf, binary.LittleEndian, header)]: the fields in order. *)
Definition writeHeader (h : WAVHeader) : list Byte.byte :=
  (ChunkID h ++ le32 (ChunkSize h) ++ Format h ++ Subchunk1ID h
   ++ le32 (Subchunk1Size h) ++ le16 (AudioFormat h) ++ le16 (NumChannels h)
   ++ le32 (SampleRate h) ++ le32 (ByteRate h) ++ le16 (BlockAlign h)
   ++ le16 (BitsPerSample h) ++ Subchunk2ID h ++ le32 (Subchunk2Size h))%list.

(** The header [PCMToWAV] builds; the three arguments are [int] values,
    whose products wrap and whose quotient truncates. *)
Definition wavHeader (pcmData : list Byte.byte)
  (sampleRate channels bitsPerSample : Z) : WAVHeader :=
  let dataSize := uint32 (Z.of_nat (List.length pcmData)) in
  mkWAVHeader (tag "RIFF") (uint32 (36 + dataSize)) (tag "WAVE") (tag "fmt ")
    16 1 (uint16 channels) (uint32 sampleRate)
    (uint32 (Z.quot (wrap64 (wrap64 (sampleRate * channels) * bitsPerSample)) 8))
    (uint16 (Z.quot (wrap64 (channels * bitsPerSample)) 8))
    (uint16 bitsPerSample) (tag "data") dataSize.

(** [PCMToWAV]; writing a fixed-size struct to a buffer does not fail, so
    the error is always nil. *)
Definition PCMToWAV (pcmData : list Byte.byte)
  (sampleRate channels bitsPerSample : Z) : list Byte.byte :=
  (writeHeader (wavHeader pcmData sampleRate channels bitsPerSample)
   ++ pcmData)%list.

(** [-s] in [int16] arithmetic. *)
Definition neg16 (s : Z) : Z := int16 ((- s) mod 2 ^ 16).

(** The first loop of [NormalizeAudio]. *)
Definition findPeak (samples : list Z) : Z :=
  fold_left
    (fun maxPeak s =>
       let maxPeak := if maxPeak <? s then s else maxPeak in
       if maxPeak <? neg16 s then neg16 s else maxPeak)
    samples 0.

(** [int16(x)] for a [float64]: truncation toward zero when the result is
    an [int16]; otherwise Go leaves the value to the implementation, and
    the model gives [None]. *)
Definition int16_of_float64 (x : float) : option Z :=
  match Prim2SF x with
  | S754_finite sign m e =>
      let n := if 0 <=? e then Z.pos m * 2 ^ e else Z.pos m / 2 ^ (- e) in
      let n := if sign then - n else n in
      if (- 2 ^ 15 <=? n) && (n <? 2 ^ 15) then Some n else None
  | S754_zero _ => Some 0
  | _ => None
  end.

Fixpoint scaleAll (scale : float) (samples : list Z) : option (list Z) :=
  match samples with
  | [] => Some []
  | s :: rest =>
      match int16_of_float64 (PrimFloat.mul (float64_of_Z s) scale),
            scaleAll scale rest with
      | Some v, Some vs => Some (v :: vs)
      | _, _ => None
      end
  end.

(** [NormalizeAudio]; [None] when a scaled sample leaves [int16]. *)
Definition NormalizeAudio (samples : list Z) (targetPeak : Z) : option (list Z) :=
  if Z.of_nat (List.length samples) =? 0 then Some samples
  else
    let maxPeak := findPeak samples in
    if maxPeak =? 0 then Some samples
    else
      let scale := PrimFloat.div (float64_of_Z targetPeak) (float64_of_Z maxPeak) in
      scaleAll scale samples.

End UtilsAudio.

(** ** What a trace tells about the requests sent to OBS *)
Module ObsTrace.
Import Go Llm World.

(** The request ids of the requests written to the websocket, in order. *)
Definition requestIDs (evs : list Event) : list string :=
  flat_map
    (fun ev => match ev with
               | EvObsSend req _ => [RequestID req]
               | _ => []
               end) evs.

(** The ids that follow the counter [from]: [from + 1], ..., [from + n]. *)
Definition idsAfter (from : Z) (n : nat) : list string :=
  List.map (fun k => FormatD (from + Z.of_nat k)) (List.seq 1 n).

(** The events [added] carry the ids that follow the counter of [e], and
    [e'] holds the last of them. *)
Definition numbered (e : ObsExecutor.Executor) (added : list Event)
  (e' : ObsExecutor.Executor) : Prop :=
  exists n,
    requestIDs added = idsAfter (ObsExecutor.requestID e) n
    /\ ObsExecutor.requestID e' = ObsExecutor.requestID e + Z.of_nat n.

End ObsTrace.

(** ** Concrete worlds and inputs on which the statements below are run *)
Module Samples.
Import Go Llm World.

(** An environment in which no configuration file exists. *)
Definition emptyEnv : Config.Env :=
  Config.mkEnv (fun s => s) (fun _ _ => Config.ConfigFileNotFoundError).

(** A language-model provider that reports itself unavailable. *)
Definition deadLLM : Brain.LLMProvider :=
  Brain.mkLLMProvider "ollama" (fun _ => false)
    (fun _ _ => Err "connection refused").

Definition deafBrain : Brain.Brain := Brain.New (Some deadLLM) None.

(** An OBS side that accepts the handshake and every request. *)
Definition okObsNet : ObsExecutor.Net :=
  ObsExecutor.mkNet
    (fun _ _ => None)
    (fun tr =>
       if existsb (fun ev => match ev with EvObsRead _ => true | _ => false end) tr
       then Ok (mkObsMessage 2 "{}") else Ok (mkObsMessage 0 "{}"))
    (fun _ => Ok (ObsExecutor.mkHelloData "5.0.0" 1 None))
    (fun _ => None)
    (fun _ req =>
       ObsExecutor.ReplyData
         (Ok (ObsExecutor.mkResponseData (RequestType req) (RequestID req)
                (ObsExecutor.mkRequestStatus true 100 EmptyString) ∅)))
    (fun _ _ _ => EmptyString).

Definition obsUp : ObsExecutor.Executor :=
  ObsExecutor.mkExecutor "ws://localhost:4455" EmptyString true true true 0.

Definition obsDown : ObsExecutor.Executor :=
  ObsExecutor.mkExecutor "ws://localhost:4455" EmptyString false true false 0.

Definition micVolume : Action :=
  mkAction "obs.volume"
    (<["source" := VString "Mic"]> (<["volume" := VFloat64 0.5%float]> ∅))
    "Listo".

Definition sceneAction : Action :=
  mkAction "obs.scene" (<["scene" := VString "Juego"]> ∅) "Cambiando de escena".

Definition obsRegistry : Executor.Registry :=
  Executor.Register Executor.NewRegistry
    (@Executor.pack _ (ObsExecutor.obsOps okObsNet) obsDown).

(** [handleAudio] run on a sequence of frames, each with the time at which
    it is handled. *)
Fixpoint handleFrames (frames : list (Pipeline.Time * list Byte.byte))
  (p : Pipeline.Pipeline) (tr : Trace) : Pipeline.Pipeline * Trace :=
  match frames with
  | [] => (p, tr)
  | (now, audio) :: rest =>
      let '(p, tr) := Pipeline.handleAudio now p audio tr in
      handleFrames rest p tr
  end.

(** A speech-to-text provider that always hears the same sentence. *)
Definition parrotSTT : Pipeline.STTProvider :=
  Pipeline.mkSTTProvider (fun _ _ => Ok "hola").

(** The default configuration with voice-activity detection switched off. *)
Definition noVADConfig : Config.Config :=
  let d := Config.DefaultConfig in
  let a := Config.Audio d in
  Config.mkConfig (Config.General d)
    (Config.mkAudio (Config.Audio_Device a) (Config.Audio_SampleRate a)
       (Config.Audio_Channels a) (Config.Audio_ChunkSize a)
       (Config.mkVAD false 0.5%float 1500 300) (Config.Audio_WakeWord a))
    (Config.Hotkey d) (Config.STT d) (Config.LLM d) (Config.TTS d)
    (Config.Twitch d) (Config.OBS d) (Config.Music d) (Config.Sounds d).

(** A pipeline that has recorded two bytes without any speech flagged. *)
Definition quietRecording : Pipeline.Pipeline :=
  Pipeline.withBuffer
    (Pipeline.NewPipeline noVADConfig parrotSTT deafBrain) [x01; x02].

(** Music executors with a playlist already loaded. *)
Definition withTracks (tracks : list string) (idx : Z) (playing : bool)
  : MusicExecutor.Executor :=
  MusicExecutor.mkExecutor ["./music"] [".mp3"; ".wav"; ".ogg"; ".flac"]
    0.5%float false true tracks idx playing false 0.5%float false.

Definition threeTracks : MusicExecutor.Executor :=
  withTracks ["./music/a.mp3"; "./music/b.mp3"; "./music/c.mp3"] 0 true.

Definition oneTrack : MusicExecutor.Executor :=
  withTracks ["./music/a.mp3"] 0 false.

(** [oneTrack] once the playback loop has played its track to the end. *)
Definition oneTrackEnded : MusicExecutor.Executor :=
  withTracks ["./music/a.mp3"] 1 true.

(** A library that holds one song and one text file. *)
Definition smallLibrary : MusicExecutor.Env :=
  MusicExecutor.mkEnv unix
    (fun folder =>
       [MusicExecutor.mkWalkEntry folder true false;
        MusicExecutor.mkWalkEntry (folder ++ "/bohemian.mp3") false false;
        MusicExecutor.mkWalkEntry (folder ++ "/notes.txt") false false])
    (fun s => s)
    (fun l => l).

Definition playQuery (query : string) : Action :=
  mkAction "music.play" (<["query" := VString query]> ∅) "Reproduciendo".

(** A Twitch executor with both tokens set. *)
Definition streamer : TwitchExecutor.Executor :=
  TwitchExecutor.mkExecutor "client" "secret" "http://localhost:3000/callback"
    "42" "stale" "refresh-0" true.

Definition countRefreshes (tr : Trace) : nat := TwitchExecutor.refreshAttempts tr.

(** A platform that keeps answering 401 to API requests until the token
    has been refreshed twice, and that grants every refresh. *)
Definition stubbornNet : TwitchExecutor.Net :=
  TwitchExecutor.mkNet
    (fun tr req =>
       if TwitchExecutor.isApiRequest req then
         if (countRefreshes tr <? 2)%nat
         then Ok (mkResponse 401 "{}" None (Err "not a token reply"))
         else Ok (mkResponse 200 "{}" None (Err "not a token reply"))
       else Ok (mkResponse 200 "{}" None (Ok ("fresh", "refresh-1"))))
    (fun _ _ => None).

(** A platform that answers 401 to every API request and grants every
    refresh. *)
Definition loopingNet : TwitchExecutor.Net :=
  TwitchExecutor.mkNet
    (fun tr req =>
       if TwitchExecutor.isApiRequest req
       then Ok (mkResponse 401 "{}" None (Err "not a token reply"))
       else Ok (mkResponse 200 "{}" None (Ok ("fresh", "refresh-1"))))
    (fun _ _ => None).

(** A platform that answers 401 once and refuses the refresh. *)
Definition refusingNet : TwitchExecutor.Net :=
  TwitchExecutor.mkNet
    (fun tr req =>
       if TwitchExecutor.isApiRequest req
       then Ok (mkResponse 401 "{}" None (Err "not a token reply"))
       else Ok (mkResponse 400 "invalid refresh token" None
                  (Err "not a token reply")))
    (fun _ _ => None).

(** A language-model provider that is available and always gives the same
    answer. *)
Definition scriptedLLM (answer : result Action) : Brain.LLMProvider :=
  Brain.mkLLMProvider "ollama" (fun _ => true) (fun _ _ => answer).

Definition helpAction : Action := mkAction "system.help" ∅ "Claro".

(** A Brain whose model asks for help, with the OBS executor registered. *)
Definition helpfulBrain : Brain.Brain :=
  Brain.RegisterExecutor (Brain.New (Some (scriptedLLM (Ok helpAction))) None)
    (@Executor.pack _ (ObsExecutor.obsOps okObsNet) obsDown).

(** A Brain whose model fails to complete. *)
Definition confusedBrain : Brain.Brain :=
  Brain.New (Some (scriptedLLM (Err "timeout"))) None.

(** A platform whose 401 answer breaks off before its body is read. *)
Definition brokenBodyNet : TwitchExecutor.Net :=
  TwitchExecutor.mkNet
    (fun tr req =>
       Ok (mkResponse 401 EmptyString (Some "unexpected EOF")
             (Err "not a token reply")))
    (fun _ _ => None).

(** A configuration file that sets nothing: every field has its zero
    value. *)
Definition zeroConfig : Config.Config :=
  Config.mkConfig
    (Config.mkGeneral EmptyString EmptyString EmptyString)
    (Config.mkAudio EmptyString 0 0 0 (Config.mkVAD false 0%float 0 0)
       (Config.mkWakeWord false EmptyString 0%float))
    (Config.mkHotkey false EmptyString EmptyString)
    (Config.mkSTT EmptyString
       (Config.mkWhisper EmptyString EmptyString EmptyString)
       (Config.mkOpenAISTT EmptyString EmptyString))
    (Config.mkLLM EmptyString (Config.mkOllama EmptyString EmptyString 0)
       (Config.mkOpenAILLM EmptyString EmptyString 0%float))
    (Config.mkTTS EmptyString
       (Config.mkPiper EmptyString EmptyString 0%float)
       (Config.mkOpenAITTS EmptyString EmptyString EmptyString))
    (Config.mkTwitch false EmptyString EmptyString EmptyString EmptyString
       EmptyString EmptyString)
    (Config.mkOBS false EmptyString EmptyString)
    (Config.mkMusic false [] [] 0%float false)
    (Config.mkSounds false EmptyString EmptyString EmptyString EmptyString).

(** An environment in which the configuration file is found and decodes
    to the given tree; no variable is expanded. *)
Definition fileEnv (cfg : Config.Config) : Config.Env :=
  Config.mkEnv (fun s => s) (fun _ _ => Config.ReadOk (Ok cfg)).

(** A mute request that names no source. *)
Definition muteNothing : Action := mkAction "obs.mute" ∅ "Silenciando".

(** A volume request above the range. *)
Definition tooLoud : Action :=
  mkAction "music.volume" (<["volume" := VFloat64 1.5%float]> ∅) "Subiendo".

(** A pipeline that has recorded two bytes, with a Brain whose model
    answers. *)
Definition chattyRecording : Pipeline.Pipeline :=
  Pipeline.withBuffer
    (Pipeline.NewPipeline noVADConfig parrotSTT helpfulBrain) [x01; x02].

End Samples.

(** * Properties *)

(** ** The arithmetic evaluator *)
Section CalcProps.
Import Go Calc.

Lemma RemoveByte_keeps (s : string) (old c : ascii) :
  In c (list_ascii_of_string s) -> c <> old ->
  In c (list_ascii_of_string (RemoveByte s old)).
Proof.
  induction s as [|a s IH]; simpl; intros Hin Hne; [contradiction|].
  destruct (Ascii.eqb_spec a old) as [->|Hao].
  - destruct Hin as [<-|Hin]; [congruence | auto].
  - simpl. destruct Hin as [<-|Hin]; [left; reflexivity | right; auto].
Qed.

Lemma forallb_string_false (p : ascii -> bool) (s : string) (c : ascii) :
  In c (list_ascii_of_string s) -> p c = false -> forallb_string p s = false.
Proof.
  unfold forallb_string. intros Hin Hp.
  destruct (forallb p (list_ascii_of_string s)) eqn:E; [|reflexivity].
  rewrite forallb_forall in E. rewrite (E c Hin) in Hp. discriminate.
Qed.

Lemma existsb_string_In (p : ascii -> bool) (s : string) :
  existsb_string p s = true ->
  exists c, In c (list_ascii_of_string s) /\ p c = true.
Proof. unfold existsb_string. intros H. apply existsb_exists in H. exact H. Qed.

(** A letter is outside the class of [validChars] and is not the space
    that [evaluateExpression] removes. *)
Lemma isLetter_invalid (c : ascii) :
  isLetter c = true -> isValidChar c = false /\ c <> " "%char.
Proof.
  destruct c as [[] [] [] [] [] [] [] []]; vm_compute; intros H;
    first [discriminate H | split; [reflexivity | discriminate]].
Qed.

(** Any byte outside the class, other than a space, makes
    [evaluateExpression] reject the input before [simpleEval] runs. *)
Lemma evaluateExpression_rejects (expr : string) (c : ascii) :
  In c (list_ascii_of_string expr) -> isValidChar c = false -> c <> " "%char ->
  evaluateExpression expr = Error "expresión inválida".
Proof.
  intros Hin Hbad Hsp. unfold evaluateExpression.
  assert (Hv : validChars_MatchString (RemoveByte expr " ") = false).
  { unfold validChars_MatchString.
    rewrite (forallb_string_false isValidChar _ c); auto using RemoveByte_keeps.
    apply andb_false_r. }
  rewrite Hv. reflexivity.
Qed.

Lemma evaluateExpression_rejects_letters (expr : string) :
  existsb_string isLetter expr = true ->
  evaluateExpression expr = Error "expresión inválida".
Proof.
  intros H. destruct (existsb_string_In _ _ H) as (c & Hin & Hc).
  destruct (isLetter_invalid c Hc) as [Hbad Hsp].
  exact (evaluateExpression_rejects expr c Hin Hbad Hsp).
Qed.

Lemma Split_pieces (isSep : ascii -> bool) (s p : string) :
  In p (Split isSep s) -> forallb_string (fun c => negb (isSep c)) p = true.
Proof.
  revert p. induction s as [|a s IH]; simpl; intros p Hp.
  - destruct Hp as [<-|[]]. reflexivity.
  - destruct (isSep a) eqn:Ea.
    + destruct Hp as [<-|Hp]; [reflexivity | auto].
    + destruct (Split isSep s) as [|q qs] eqn:Es.
      * destruct Hp as [<-|[]]. unfold forallb_string. simpl. rewrite Ea. reflexivity.
      * destruct Hp as [<-|Hp].
        -- unfold forallb_string. simpl. rewrite Ea. simpl.
           apply (IH q). left. reflexivity.
        -- apply IH. right. exact Hp.
Qed.

Lemma substring_one (s : string) (n : nat) :
  String.substring n 1 s = EmptyString
  \/ exists c, String.substring n 1 s = String c EmptyString
               /\ In c (list_ascii_of_string s).
Proof.
  revert n. induction s as [|a s IH]; intros n.
  - left. destruct n; reflexivity.
  - destruct n as [|n]; simpl.
    + right. exists a. split; [|left; reflexivity].
      destruct s; reflexivity.
    + destruct (IH n) as [H|(c & H & Hin)]; [left; exact H|].
      right. exists c. split; [exact H | right; exact Hin].
Qed.

(** The last byte of a piece of [Split] is never one of the separators. *)
Lemma lastChar_of_piece (isSep : ascii -> bool) (s p op : string) (c : ascii) :
  In p (Split isSep s) -> lastChar p = Some op -> isSep c = true ->
  String.eqb op (String c EmptyString) = false.
Proof.
  intros Hp Hop Hc. unfold lastChar, slice in Hop.
  destruct (_ && _); [|discriminate Hop]. inversion Hop as [Hsub]. clear Hop.
  replace (Z.to_nat (len p - (len p - 1))) with 1%nat by lia.
  destruct (substring_one p (Z.to_nat (len p - 1))) as [H|(d & H & Hin)];
    rewrite H; [reflexivity|].
  pose proof (Split_pieces isSep s p Hp) as Hall.
  unfold forallb_string in Hall. rewrite forallb_forall in Hall.
  specialize (Hall d Hin). simpl.
  destruct (Ascii.eqb_spec d c) as [->|Hne]; [|reflexivity].
  rewrite Hc in Hall. discriminate Hall.
Qed.

(** The loop of [parseAndMultiplyDivide] never multiplies nor divides:
    when it returns a value, that value is the one it was started with. *)
Lemma mulDivLoop_keeps_result (expr : string) (fuel : nat) (i : Z) (result v : float) :
  mulDivLoop fuel (Split isMulDiv expr) i result = Value v -> v = result.
Proof.
  revert i result. induction fuel as [|fuel IH]; intros i result H;
    [discriminate H|].
  simpl in H. destruct (i <? _); [|inversion H; reflexivity].
  destruct (index _ (i - 1)) as [prev|] eqn:Ep; [|discriminate H].
  destruct (lastChar prev) as [op|] eqn:Eo; [|discriminate H].
  destruct (index _ i) as [nextStr|]; [|discriminate H].
  destruct (ParseFloat nextStr) as [nextVal| |]; try discriminate H.
  assert (Hin : In prev (Split isMulDiv expr)).
  { unfold index in Ep. destruct (i - 1 <? 0); [discriminate Ep|].
    eapply nth_error_In. exact Ep. }
  rewrite (lastChar_of_piece isMulDiv expr prev op "*" Hin Eo eq_refl) in H.
  rewrite (lastChar_of_piece isMulDiv expr prev op "/" Hin Eo eq_refl) in H.
  exact (IH _ _ H).
Qed.

(** Hence [parseAndMultiplyDivide] returns its first factor, whatever
    operators and factors follow. *)
Lemma parseAndMultiplyDivide_first_factor (expr : string) (v : float) :
  parseAndMultiplyDivide expr = Value v ->
  exists p0 rest,
    Split isMulDiv (TrimSpace expr) = p0 :: rest /\ ParseFloat p0 = Parsed v.
Proof.
  unfold parseAndMultiplyDivide. intros H.
  destruct (String.eqb _ _); [discriminate H|].
  destruct (Split isMulDiv (TrimSpace expr)) as [|p0 rest] eqn:Es;
    [discriminate H|].
  change (index (p0 :: rest) 0) with (Some p0) in H. cbv beta iota in H.
  destruct (ParseFloat p0) as [result| |] eqn:Ep; try discriminate H.
  exists p0, rest. split; [reflexivity|].
  rewrite <- Es in H. apply mulDivLoop_keeps_result in H. subst v. exact Ep.
Qed.

(** *** The fuel of the model is enough *)

Lemma mulDivLoop_fuel (fuel : nat) (parts : list string) (i : Z) (result : float) :
  (1 <= fuel)%nat -> Z.of_nat (List.length parts) + 1 <= Z.of_nat fuel + i ->
  mulDivLoop fuel parts i result <> OutOfFuel.
Proof.
  revert i result. induction fuel as [|fuel IH]; intros i result H1 H2; [lia|].
  simpl. destruct (i <? _) eqn:Ei; [|discriminate].
  apply Z.ltb_lt in Ei.
  destruct (index parts (i - 1)); [|discriminate].
  destruct (lastChar _); [|discriminate].
  destruct (index parts i); [|discriminate].
  destruct (ParseFloat _); try discriminate.
  destruct (String.eqb _ "*"); [apply IH; lia|].
  destruct (String.eqb _ "/"); [|apply IH; lia].
  destruct (PrimFloat.eqb _ _); [discriminate | apply IH; lia].
Qed.

Lemma parseAndMultiplyDivide_fuel (expr : string) :
  parseAndMultiplyDivide expr <> OutOfFuel.
Proof.
  unfold parseAndMultiplyDivide. destruct (String.eqb _ _); [discriminate|].
  destruct (Split isMulDiv (TrimSpace expr)) as [|p0 rest]; [discriminate|].
  change (index (p0 :: rest) 0) with (Some p0). cbv beta iota.
  destruct (ParseFloat p0); try discriminate.
  apply mulDivLoop_fuel; simpl List.length; lia.
Qed.

Lemma addSubLoop_fuel (fuel : nat) (parts : list string) (i : Z) (result : float) :
  (1 <= fuel)%nat -> Z.of_nat (List.length parts) + 1 <= Z.of_nat fuel + i ->
  addSubLoop fuel parts i result <> OutOfFuel.
Proof.
  revert i result. induction fuel as [|fuel IH]; intros i result H1 H2; [lia|].
  simpl. destruct (i <? _) eqn:Ei; [|discriminate].
  apply Z.ltb_lt in Ei.
  destruct (index parts (i - 1)); [|discriminate].
  destruct (lastChar _) as [op0|]; [|discriminate].
  destruct (index parts _) as [part|]; [|discriminate].
  pose proof (parseAndMultiplyDivide_fuel part) as Hp.
  destruct (parseAndMultiplyDivide part); try discriminate; try contradiction.
  apply IH; [lia|]. destruct (_ || _); lia.
Qed.

Lemma evalFlat_fuel (expr : string) : evalFlat expr <> OutOfFuel.
Proof.
  unfold evalFlat. destruct (_ =? 0); [discriminate|].
  destruct (Split isPlusMinus expr) as [|p0 rest]; [discriminate|].
  change (index (p0 :: rest) 0) with (Some p0). cbv beta iota.
  pose proof (parseAndMultiplyDivide_fuel p0) as Hp.
  destruct (parseAndMultiplyDivide p0); try discriminate; try contradiction.
  apply addSubLoop_fuel; simpl List.length; lia.
Qed.

Lemma Count_app (a b : string) (c : ascii) :
  Count (a ++ b) c = (Count a c + Count b c)%nat.
Proof. induction a as [|x a IH]; simpl; [reflexivity|]. rewrite IH. lia. Qed.

Lemma Count_substring (s : string) (n m : nat) (c : ascii) :
  (Count (String.substring n m s) c <= Count s c)%nat.
Proof.
  revert n m. induction s as [|a s IH]; intros n m.
  - destruct n, m; simpl; lia.
  - destruct n as [|n]; simpl.
    + destruct m as [|m]; simpl; [lia|]. specialize (IH 0%nat m). lia.
    + specialize (IH n m). lia.
Qed.

Lemma IndexByte_lower (s : string) (c : ascii) : -1 <= IndexByte s c.
Proof.
  induction s as [|a s IH]; simpl; [lia|].
  destruct (Ascii.eqb a c); [lia|]. destruct (IndexByte s c =? -1); lia.
Qed.

Lemma LastIndexByte_lower (s : string) (c : ascii) : -1 <= LastIndexByte s c.
Proof.
  induction s as [|a s IH]; simpl; [lia|].
  destruct (LastIndexByte s c =? -1); [destruct (Ascii.eqb a c)|]; lia.
Qed.

Lemma LastIndexByte_absent (s : string) (c : ascii) :
  LastIndexByte s c = -1 -> Count s c = O.
Proof.
  induction s as [|a s IH]; simpl; [reflexivity|].
  pose proof (LastIndexByte_lower s c).
  destruct (LastIndexByte s c =? -1) eqn:E.
  - apply Z.eqb_eq in E. destruct (Ascii.eqb a c); [discriminate|].
    intros _. rewrite (IH E). reflexivity.
  - lia.
Qed.

(** Nothing after the last occurrence. *)
Lemma Count_after_last (s : string) (c : ascii) (n m : nat) :
  LastIndexByte s c < Z.of_nat n -> Count (String.substring n m s) c = O.
Proof.
  revert n m. induction s as [|a s IH]; intros n m H.
  - destruct n, m; reflexivity.
  - simpl in H. pose proof (LastIndexByte_lower s c) as Hl.
    destruct n as [|n].
    + assert (E : LastIndexByte (String a s) c = -1).
      { simpl. destruct (LastIndexByte s c =? -1); [destruct (Ascii.eqb a c)|]; lia. }
      pose proof (Count_substring (String a s) 0 m c) as Hle.
      rewrite (LastIndexByte_absent _ _ E) in Hle. lia.
    + simpl. destruct (LastIndexByte s c =? -1) eqn:E.
      * apply Z.eqb_eq in E.
        pose proof (Count_substring s n m c) as Hle.
        rewrite (LastIndexByte_absent _ _ E) in Hle. lia.
      * apply IH. lia.
Qed.

(** All occurrences but one before the last occurrence. *)
Lemma Count_before_last (s : string) (c : ascii) :
  0 <= LastIndexByte s c ->
  S (Count (String.substring 0 (Z.to_nat (LastIndexByte s c)) s) c) = Count s c.
Proof.
  induction s as [|a s IH]; simpl; [lia|].
  pose proof (LastIndexByte_lower s c) as Hl.
  destruct (LastIndexByte s c =? -1) eqn:E.
  - apply Z.eqb_eq in E. rewrite (LastIndexByte_absent _ _ E).
    destruct (Ascii.eqb a c); [reflexivity | lia].
  - apply Z.eqb_neq in E. intros _.
    replace (Z.to_nat (LastIndexByte s c + 1)) with (S (Z.to_nat (LastIndexByte s c)))
      by lia.
    simpl. rewrite <- IH by lia. lia.
Qed.

Lemma Count_digits (u : Decimal.uint) (c : ascii) :
  isDigit c = false -> Count (NilEmpty.string_of_uint u) c = O.
Proof.
  intros Hc. induction u; cbn [NilEmpty.string_of_uint Count]; try reflexivity;
    match goal with
    | |- context [Ascii.eqb ?d c] =>
        destruct (Ascii.eqb_spec d c) as [<-|_]; [discriminate Hc | exact IHu]
    end.
Qed.

Lemma Count_decimal (n : Z) (c : ascii) :
  isDigit c = false -> Count (decimal n) c = O.
Proof.
  intros Hc. unfold decimal, NilZero.string_of_uint.
  destruct (N.to_uint (Z.to_N n)) eqn:E; try (rewrite <- E; apply Count_digits; exact Hc).
  cbn [Count]. destruct (Ascii.eqb_spec "0" c) as [<-|_]; [discriminate Hc | reflexivity].
Qed.

Lemma Count_FormatG (x : float) (text : string) :
  FormatG x = Some text -> Count text "(" = O.
Proof.
  unfold FormatG. destruct (Prim2SF x) as [[]|[]| |sign m e]; intros H;
    try (inversion H; reflexivity).
  destruct (integerValue m e) as [n|]; [|discriminate H].
  destruct (n <? 10 ^ 6); [|discriminate H]. inversion H.
  rewrite Count_app, Count_decimal by reflexivity. destruct sign; reflexivity.
Qed.

Lemma simpleEval_fuel (fuel : nat) (expr : string) :
  (Count expr "(" < fuel)%nat -> simpleEval fuel expr <> OutOfFuel.
Proof.
  revert expr. induction fuel as [|fuel IH]; intros expr Hc; [lia|].
  simpl. pose proof (LastIndexByte_lower expr "(") as Hl.
  pose proof (Count_before_last expr "(") as Hbefore.
  pose proof (fun n m => Count_after_last expr "(" n m) as Hlast.
  revert Hl Hbefore Hlast Hc. generalize (Count expr "(") as k.
  generalize (LastIndexByte expr "(") as i. intros i k Hl Hbefore Hlast Hc.
  destruct (i =? -1) eqn:E; [apply evalFlat_fuel|].
  apply Z.eqb_neq in E.
  destruct (slice expr i (len expr)) as [tail|]; [|discriminate].
  pose proof (IndexByte_lower tail ")") as Hj. revert Hj.
  generalize (IndexByte tail ")") as j. intros j Hj.
  destruct (j =? -1) eqn:Ec; [discriminate|].
  apply Z.eqb_neq in Ec.
  destruct (slice expr (i + 1) (j + i)) as [inner|] eqn:Ei; [|discriminate].
  destruct (slice expr 0 i) as [before|] eqn:Eb; [|discriminate].
  destruct (slice expr (j + i + 1) (len expr)) as [after|] eqn:Ea;
    [|discriminate].
  specialize (Hbefore ltac:(lia)).
  assert (Hinner : Count inner "(" = O).
  { unfold slice in Ei. destruct (_ && _); [|discriminate Ei]. inversion Ei.
    apply Hlast. lia. }
  assert (Hafter : Count after "(" = O).
  { unfold slice in Ea. destruct (_ && _) eqn:Eg; [|discriminate Ea]. inversion Ea.
    apply Hlast.
    apply andb_prop in Eg. destruct Eg as [Eg _]. apply andb_prop in Eg.
    destruct Eg as [Eg _]. apply Z.leb_le in Eg. lia. }
  assert (Hb : Count before "(" = Count (String.substring 0 (Z.to_nat i) expr) "(").
  { unfold slice in Eb. destruct (_ && _); [|discriminate Eb]. inversion Eb.
    rewrite Z.sub_0_r. reflexivity. }
  assert (Hin : simpleEval fuel inner <> OutOfFuel) by (apply IH; lia).
  destruct (simpleEval fuel inner) as [result| | | |]; try discriminate;
    try contradiction.
  destruct (FormatG result) as [text|] eqn:Ef; [|discriminate].
  apply IH. rewrite !Count_app, (Count_FormatG _ _ Ef), Hafter, Hb. lia.
Qed.

Lemma Count_le_length (s : string) (c : ascii) : (Count s c <= String.length s)%nat.
Proof. induction s as [|a s IH]; simpl; [lia|]. destruct (Ascii.eqb a c); lia. Qed.

(** [evaluateExpression] never stops for lack of fuel: the bound the model
    gives [simpleEval] covers every input. *)
Lemma evaluateExpression_fuel (expr : string) : evaluateExpression expr <> OutOfFuel.
Proof.
  unfold evaluateExpression. destruct (negb _); [discriminate|].
  apply simpleEval_fuel. pose proof (Count_le_length (RemoveByte expr " ") "("). lia.
Qed.

(** C1. What [evaluateExpression] returns on the reference inputs: the sum
    and the [^] case come out as listed, while the products, the quotient,
    the parenthesised product and the division by zero do not, because
    [regexp.Split] drops the operators that the two loops then look for at
    the end of the previous piece. *)
Theorem evaluateExpression_reference_cases :
  evaluateExpression "2+2" = Value 4%float
  /\ evaluateExpression "5*8" = Value 5%float
  /\ evaluateExpression "20/4" = Value 20%float
  /\ evaluateExpression "(2+3)*4" = Value 4%float
  /\ evaluateExpression "1/0" = Value 1%float
  /\ evaluateExpression "2^3" = Error "número inválido: 2^3"
  /\ evaluateExpression "a+1" = Error "expresión inválida".
Proof. repeat split; vm_compute; reflexivity. Qed.

End CalcProps.

(** ** Audio helpers *)
Section UtilsProps.
Import Go Utils.

(** C4. [CalculateRMS] returns the mean of the squares, not its square
    root: on the block [3, 4] it returns 12.5, whose square root is not
    12.5; on the one-sample block [2] it returns 4 where the root mean
    square is 2. The empty and the all-zero block give 0. *)
Theorem CalculateRMS_mean_square :
  CalculateRMS [3; 4] = 12.5%float
  /\ PrimFloat.sqrt 12.5%float <> 12.5%float
  /\ CalculateRMS [2] = 4%float
  /\ PrimFloat.sqrt 4%float = 2%float
  /\ CalculateRMS [2] <> PrimFloat.sqrt 4%float
  /\ CalculateRMS [] = 0%float
  /\ CalculateRMS [0; 0; 0] = 0%float.
Proof.
  repeat split; try (vm_compute; reflexivity);
    vm_compute; intro H; discriminate H.
Qed.

End UtilsProps.

(** ** Configuration *)
Section ConfigProps.
Import Go World Config.

Lemma Validate_DefaultConfig : Validate DefaultConfig = None.
Proof. vm_compute. reflexivity. Qed.

(** C5. With no explicit path, when the configuration library reports
    that no configuration file was found on the search paths, [Load]
    returns the default tree and no error; that tree has the listed values
    and [Validate] accepts it as it is. *)
Theorem Load_defaults_without_config_file (env : Env) :
  ReadInConfig env None (List.map (ExpandEnv env) ConfigPaths)
    = ConfigFileNotFoundError ->
  Load env EmptyString = Ok DefaultConfig
  /\ Audio_SampleRate (Audio DefaultConfig) = 16000
  /\ VAD_SilenceThresholdMs (Audio_VAD (Audio DefaultConfig)) = 1500
  /\ LLM_Provider (LLM DefaultConfig) = "ollama"
  /\ Ollama_URL (LLM_Ollama (LLM DefaultConfig)) = "http://localhost:11434"
  /\ Ollama_Model (LLM_Ollama (LLM DefaultConfig)) = "llama3.2:3b"
  /\ TTS_Provider (TTS DefaultConfig) = "piper"
  /\ Validate DefaultConfig = None.
Proof.
  intros Hnf. split.
  - unfold Load.
    replace (negb (String.eqb EmptyString EmptyString)) with false by reflexivity.
    rewrite Hnf. reflexivity.
  - repeat split; vm_compute; reflexivity.
Qed.

Lemma Load_defaults_without_config_file_witness :
  Load Samples.emptyEnv EmptyString = Ok DefaultConfig
  /\ Audio_SampleRate (Audio DefaultConfig) = 16000
  /\ VAD_SilenceThresholdMs (Audio_VAD (Audio DefaultConfig)) = 1500
  /\ LLM_Provider (LLM DefaultConfig) = "ollama"
  /\ Ollama_URL (LLM_Ollama (LLM DefaultConfig)) = "http://localhost:11434"
  /\ Ollama_Model (LLM_Ollama (LLM DefaultConfig)) = "llama3.2:3b"
  /\ TTS_Provider (TTS DefaultConfig) = "piper"
  /\ Validate DefaultConfig = None.
Proof.
  apply (Load_defaults_without_config_file Samples.emptyEnv). reflexivity.
Defined.

End ConfigProps.

(** ** Comparisons of binary64 values *)
Section FloatOrder.

Lemma SFcompare_antisym (x y : spec_float) :
  SFcompare x y = option_map CompOpp (SFcompare y x).
Proof.
  destruct x as [sx|sx| |sx mx ex], y as [sy|sy| |sy my ey]; simpl;
    try reflexivity;
    try (destruct sx; reflexivity); try (destruct sy; reflexivity);
    try (destruct sx, sy; reflexivity).
  destruct sx, sy; simpl; try reflexivity.
  - rewrite (Z.compare_antisym ey ex).
    destruct (ey ?= ex)%Z; simpl; try reflexivity.
    rewrite (Pos.compare_cont_antisym my mx Eq). simpl.
    destruct (Pos.compare_cont Eq my mx); reflexivity.
  - rewrite (Z.compare_antisym ey ex).
    destruct (ey ?= ex)%Z; simpl; try reflexivity.
    rewrite (Pos.compare_cont_antisym my mx Eq). simpl. reflexivity.
Qed.

Lemma is_nan_Prim2SF (x : float) :
  PrimFloat.is_nan x = false -> Prim2SF x <> S754_nan.
Proof.
  unfold PrimFloat.is_nan. rewrite FloatAxioms.eqb_spec. intros H E. rewrite E in H.
  discriminate H.
Qed.

(** For numbers, [not (x < y)] gives [y <= x]. *)
Lemma not_ltb_leb (x y : float) :
  PrimFloat.is_nan x = false -> PrimFloat.is_nan y = false ->
  PrimFloat.ltb x y = false -> PrimFloat.leb y x = true.
Proof.
  intros Hx Hy. apply is_nan_Prim2SF in Hx. apply is_nan_Prim2SF in Hy.
  rewrite FloatAxioms.ltb_spec, FloatAxioms.leb_spec. unfold SFltb, SFleb.
  rewrite (SFcompare_antisym (Prim2SF y) (Prim2SF x)).
  destruct (SFcompare (Prim2SF x) (Prim2SF y)) as [[]|] eqn:E; simpl;
    try reflexivity; try discriminate.
  intros _. destruct (Prim2SF x), (Prim2SF y); simpl in E;
    try discriminate E; congruence.
Qed.

(** [x < y] excludes [y < x] and [y <= x]; [x <= y] excludes [y < x]. *)
Lemma ltb_excludes (x y : float) :
  PrimFloat.ltb x y = true ->
  PrimFloat.ltb y x = false /\ PrimFloat.leb y x = false.
Proof.
  rewrite !FloatAxioms.ltb_spec, FloatAxioms.leb_spec. unfold SFltb, SFleb.
  rewrite (SFcompare_antisym (Prim2SF y) (Prim2SF x)).
  destruct (SFcompare (Prim2SF x) (Prim2SF y)) as [[]|]; simpl;
    intros H; first [discriminate H | split; reflexivity].
Qed.

Lemma leb_excludes (x y : float) :
  PrimFloat.leb x y = true -> PrimFloat.ltb y x = false.
Proof.
  rewrite FloatAxioms.ltb_spec, FloatAxioms.leb_spec. unfold SFltb, SFleb.
  rewrite (SFcompare_antisym (Prim2SF y) (Prim2SF x)).
  destruct (SFcompare (Prim2SF x) (Prim2SF y)) as [[]|]; simpl;
    intros H; first [discriminate H | reflexivity].
Qed.

(** Nothing is at most 0 and above 1. *)
Lemma leb_zero_below_one (v : float) :
  PrimFloat.leb v 0%float = true -> PrimFloat.ltb 1%float v = false.
Proof.
  rewrite FloatAxioms.ltb_spec, FloatAxioms.leb_spec.
  change (Prim2SF 1%float) with (S754_finite false 4503599627370496 (-52)).
  change (Prim2SF 0%float) with (S754_zero false).
  destruct (Prim2SF v) as [s|s| |s m e]; try reflexivity;
    destruct s; try reflexivity; intros H; discriminate H.
Qed.

End FloatOrder.

(** ** The OBS executor: the volume mapping *)
Section ObsVolumeProps.
Import Go Llm World Executor ObsExecutor.

(** The clamp leaves every number in [[0, 1]]. *)
Lemma clampVolume_range (v : float) :
  PrimFloat.is_nan v = false ->
  PrimFloat.leb 0%float (clampVolume v) = true
  /\ PrimFloat.leb (clampVolume v) 1%float = true.
Proof.
  intros Hv. unfold clampVolume.
  destruct (PrimFloat.ltb v 0%float) eqn:E0.
  - split; reflexivity.
  - destruct (PrimFloat.ltb 1%float v) eqn:E1.
    + split; reflexivity.
    + split; apply not_ltb_leb; auto.
Qed.

(** Every number that is not positive is mapped to the floor. *)
Lemma volumeDb_floor (v : float) :
  PrimFloat.is_nan v = false -> PrimFloat.leb v 0%float = true ->
  volumeDb (clampVolume v) = (-100)%float.
Proof.
  intros Hv Hle. unfold clampVolume.
  destruct (PrimFloat.ltb v 0%float) eqn:E0; [reflexivity|].
  assert (E1 : PrimFloat.ltb 1%float v = false).
  { rewrite FloatAxioms.ltb_spec. rewrite FloatAxioms.leb_spec in Hle.
    change (Prim2SF 1%float) with (S754_finite false 4503599627370496 (-52)).
    change (Prim2SF 0%float) with (S754_zero false) in Hle.
    destruct (Prim2SF v) as [s|s| |s m e]; try reflexivity;
      destruct s; try reflexivity; discriminate Hle. }
  rewrite E1. unfold volumeDb. rewrite Hle. reflexivity.
Qed.

Lemma setVolume_request (net : Net) (action : Action) (e : Executor) (tr : Trace) :
  GetStringParam action "source" <> EmptyString -> connected e = true ->
  snd (setVolume net action e tr)
  = (tr ++ [EvObsSend
              (mkRequestData "SetInputVolume" (FormatD (requestID e + 1))
                 (Some [("inputName", VString (GetStringParam action "source"));
                        ("inputVolumeDb",
                         VFloat64 (volumeDb
                                     (clampVolume (GetFloatParam action "volume"))))]))
              (WriteJSON net tr)])%list.
Proof.
  intros Hsrc Hconn. unfold setVolume.
  destruct (String.eqb_spec (GetStringParam action "source") EmptyString) as [E|_];
    [contradiction|].
  unfold sendRequest. rewrite Hconn. simpl negb. cbv iota.
  destruct (WriteJSON net tr) as [err|]; [reflexivity|].
  destruct (Wait net _ _) as [[resp|err]|err|]; try reflexivity.
  simpl. destruct (Status_Result (Resp_RequestStatus resp)); reflexivity.
Qed.

(** The clamp and the mapping, as a function of the volume supplied. *)
Lemma volumeDb_clampVolume (v : float) :
  volumeDb (clampVolume v)
  = (let c := if PrimFloat.ltb v 0 then 0 else if PrimFloat.ltb 1 v then 1 else v in
     if PrimFloat.leb c 0 then -100 else 20 * (c - 1) * 2)%float.
Proof.
  unfold volumeDb, clampVolume. cbv zeta.
  destruct (PrimFloat.ltb v 0%float); reflexivity.
Qed.

(** C7. On a connected executor, [obs.volume] with a source name sends
    one [SetInputVolume] request. Its [inputVolumeDb] is computed from the
    volume supplied: the volume is first clamped (below 0 to 0, above 1
    to 1, otherwise unchanged), and the clamped volume [c] is mapped to
    [-100] when it is not positive and to [20 * (c - 1) * 2] otherwise. So
    every volume that is not positive gives -100 dB, every volume in
    (0, 1] gives [20 * (volume - 1) * 2], every volume above 1 gives 0 dB;
    1.0 gives 0 dB, 0.5 gives -20 dB and 0.0 gives -100 dB. *)
Theorem setVolume_decibels (net : Net) (action : Action) (e : Executor) (tr : Trace) :
  GetStringParam action "source" <> EmptyString -> connected e = true ->
  let v := GetFloatParam action "volume" in
  let sent (dB : float) :=
    snd (setVolume net action e tr)
    = (tr ++ [EvObsSend
                (mkRequestData "SetInputVolume" (FormatD (requestID e + 1))
                   (Some [("inputName", VString (GetStringParam action "source"));
                          ("inputVolumeDb", VFloat64 dB)]))
                (WriteJSON net tr)])%list in
  sent (let c := if PrimFloat.ltb v 0 then 0
                 else if PrimFloat.ltb 1 v then 1 else v in
        if PrimFloat.leb c 0 then -100 else 20 * (c - 1) * 2)%float
  /\ (PrimFloat.leb v 0 = true -> sent (-100)%float)
  /\ (PrimFloat.ltb 0 v = true -> PrimFloat.leb v 1 = true ->
      sent (20 * (v - 1) * 2)%float)
  /\ (PrimFloat.ltb 1 v = true -> sent 0%float)
  /\ (v = 1%float -> sent 0%float)
  /\ (v = 0.5%float -> sent (-20)%float)
  /\ (v = 0%float -> sent (-100)%float).
Proof.
  intros Hsrc Hconn v sent.
  assert (Hsent : sent (volumeDb (clampVolume v)))
    by exact (setVolume_request net action e tr Hsrc Hconn).
  rewrite volumeDb_clampVolume in Hsent. cbv zeta in Hsent.
  split; [exact Hsent|].
  split; [|split; [|split; [|split; [|split]]]].
  - intros Hle. rewrite (leb_zero_below_one v Hle) in Hsent.
    destruct (PrimFloat.ltb v 0); [exact Hsent|]. rewrite Hle in Hsent. exact Hsent.
  - intros Hpos Hle.
    destruct (ltb_excludes 0 v Hpos) as [H1 H2].
    rewrite H1, (leb_excludes v 1 Hle), H2 in Hsent. exact Hsent.
  - intros Hgt.
    assert (Hneg : PrimFloat.ltb v 0 = false).
    { destruct (PrimFloat.ltb v 0) eqn:E; [|reflexivity].
      destruct (ltb_excludes v 0 E) as [_ H].
      assert (Hle : PrimFloat.leb v 0 = true).
      { rewrite FloatAxioms.leb_spec. rewrite FloatAxioms.ltb_spec in E.
        unfold SFleb. unfold SFltb in E.
        destruct (SFcompare (Prim2SF v) (Prim2SF 0)) as [[]|];
          first [discriminate E | reflexivity]. }
      rewrite (leb_zero_below_one v Hle) in Hgt. discriminate Hgt. }
    rewrite Hneg, Hgt in Hsent. exact Hsent.
  - intros Hv. rewrite Hv in Hsent. exact Hsent.
  - intros Hv. rewrite Hv in Hsent. exact Hsent.
  - intros Hv. rewrite Hv in Hsent. exact Hsent.
Qed.

Lemma setVolume_decibels_witness :
  snd (setVolume Samples.okObsNet Samples.micVolume Samples.obsUp [])
  = [EvObsSend
       (mkRequestData "SetInputVolume" "1"
          (Some [("inputName", VString "Mic");
                 ("inputVolumeDb", VFloat64 (-20)%float)]))
       None].
Proof.
  refine (proj1 (proj2 (proj2 (proj2 (proj2 (proj2
            (setVolume_decibels Samples.okObsNet Samples.micVolume
               Samples.obsUp [] _ _)))))) _).
  - vm_compute. discriminate.
  - reflexivity.
  - reflexivity.
Defined.

End ObsVolumeProps.

(** ** The orchestrator without a usable language model *)
Section BrainProps.
Import Go Llm World Executor Brain.

(** C6. When the provider is nil, or its [IsAvailable] answers false,
    [ProcessCommand] returns the fixed message and a nil error whatever the
    text; the Brain is left as it was, and the only event added is the
    availability query, so [Complete] is not called and no error of the
    provider can come back. *)
Theorem ProcessCommand_degraded (b : Brain) (text : string) (tr : Trace) :
  match llmProvider b with
  | None => True
  | Some llm => LLM_IsAvailable llm tr = false
  end ->
  ProcessCommand b text tr
  = (Returns
       ("No hay ningún proveedor de IA disponible. Revisa tu configuración o prueba más tarde.",
        None),
     b,
     match llmProvider b with
     | None => tr
     | Some _ => (tr ++ [EvLLMIsAvailable])%list
     end).
Proof.
  unfold ProcessCommand. destruct (llmProvider b) as [llm|]; intros H.
  - rewrite H. reflexivity.
  - reflexivity.
Qed.

Lemma ProcessCommand_degraded_witness :
  ProcessCommand Samples.deafBrain "pon música" []
  = (Returns
       ("No hay ningún proveedor de IA disponible. Revisa tu configuración o prueba más tarde.",
        None),
     Samples.deafBrain, [EvLLMIsAvailable]).
Proof.
  apply (ProcessCommand_degraded Samples.deafBrain "pon música" []). reflexivity.
Defined.

End BrainProps.

(** ** The registry and unavailable executors *)
Section RegistryProps.
Import Go Llm World Executor.

Lemma obs_unavailable_when_disconnected (net : ObsExecutor.Net)
  (e : ObsExecutor.Executor) :
  ObsExecutor.connected e = false ->
  any_IsAvailable (@pack _ (ObsExecutor.obsOps net) e) = false.
Proof.
  intros H. unfold any_IsAvailable. simpl. unfold ObsExecutor.IsAvailable.
  rewrite H. apply andb_false_r.
Qed.

(** C9. When the executor that [FindExecutor] returns for the action
    reports itself unavailable, [Registry.Execute] returns the error
    "executor ... is not available" and leaves the registry and the trace
    as they were: the executor's [Execute] is not entered. The OBS executor
    is unavailable whenever it is not connected, so an action dispatched to
    it while disconnected ends there, with no event of [Connect] (no dial)
    in the trace. *)
Theorem Registry_Execute_unavailable (r : Registry) (action : Action) (tr : Trace)
  (key : string) (exec : AnyExecutor) :
  FindExecutor r (Action_name action) = Ok (key, exec) ->
  (any_IsAvailable exec = false ->
   Registry_Execute r action tr
   = (Returns (NewErrorResult ("executor " ++ any_Name exec ++ " is not available"),
               Some ("executor " ++ any_Name exec ++ " is not available")),
      r, tr))
  /\ (forall net e,
        exec = @pack _ (ObsExecutor.obsOps net) e ->
        ObsExecutor.connected e = false ->
        Registry_Execute r action tr
        = (Returns (NewErrorResult "executor obs is not available",
                    Some "executor obs is not available"),
           r, tr)).
Proof.
  intros Hfind.
  assert (Hgen : any_IsAvailable exec = false ->
     Registry_Execute r action tr
     = (Returns (NewErrorResult ("executor " ++ any_Name exec ++ " is not available"),
                 Some ("executor " ++ any_Name exec ++ " is not available")),
        r, tr)).
  { intros Hav. unfold Registry_Execute. rewrite Hfind, Hav. reflexivity. }
  split; [exact Hgen|].
  intros net e -> Hdisc.
  exact (Hgen (obs_unavailable_when_disconnected net e Hdisc)).
Qed.

Lemma Registry_Execute_unavailable_witness :
  Registry_Execute Samples.obsRegistry Samples.sceneAction []
  = (Returns (NewErrorResult "executor obs is not available",
              Some "executor obs is not available"),
     Samples.obsRegistry, []).
Proof.
  refine (proj2 (Registry_Execute_unavailable Samples.obsRegistry
                   Samples.sceneAction [] "obs"
                   (@pack _ (ObsExecutor.obsOps Samples.okObsNet) Samples.obsDown)
                   _) Samples.okObsNet Samples.obsDown _ _); reflexivity.
Defined.

End RegistryProps.

(** ** Stopping the pipeline *)
Section PipelineStopProps.
Import Go World Pipeline.

(** C10. [Stop] closes the stop channel of a pipeline on which it has not
    been called, which makes the stop case of the main loop's [select]
    ready and taking it ends [run]; any call of [Stop] on a pipeline whose
    channel is closed panics. In particular the second call on a new
    pipeline panics. *)
Theorem Stop_not_idempotent (p : Pipeline) :
  match Stop p with
  | Returns p' =>
      stopChan p = ChanOpen
      /\ stopChan p' = ChanClosed
      /\ (forall ctxDone, ready ctxDone p CaseStop = false)
      /\ (forall ctxDone now tr,
            run_round ctxDone now CaseStop p' tr = Some (Returns true, p', tr))
      /\ Stop p' = Panics "close of closed channel"
  | Panics msg => stopChan p = ChanClosed /\ msg = "close of closed channel"
  | OutsideModel => False
  end
  /\ (forall cfg stt brn,
        exists p1,
          Stop (NewPipeline cfg stt brn) = Returns p1
          /\ Stop p1 = Panics "close of closed channel").
Proof.
  split.
  - unfold Stop. destruct (stopChan p) eqn:E.
    + repeat split; try reflexivity.
      intros ctxDone. unfold ready. rewrite E. reflexivity.
    + split; reflexivity.
  - intros cfg stt brn. eexists. split; reflexivity.
Qed.

End PipelineStopProps.

(** ** Traces only grow *)
Section TraceProps.
Import Go Llm World Executor.

Lemma prefix_snoc (tr tr' : Trace) (ev : Event) :
  tr `prefix_of` tr' -> tr `prefix_of` (tr' ++ [ev])%list.
Proof. intros H. apply prefix_app_r. exact H. Qed.

Lemma Registry_Execute_prefix (r : Registry) (action : Action) (tr : Trace) :
  tr `prefix_of` snd (Registry_Execute r action tr).
Proof.
  unfold Registry_Execute.
  destruct (FindExecutor r (Action_name action)) as [[key exec]|err]; simpl;
    [|reflexivity].
  destruct (any_IsAvailable exec); simpl; [|reflexivity].
  unfold any_Execute.
  destruct (Execute (self exec) action _) as [[out s'] added]. simpl.
  apply prefix_app_r, prefix_app_r. reflexivity.
Qed.

Lemma handleStatus_prefix b llm (tr : Trace) :
  tr `prefix_of` snd (Brain.handleStatus b llm tr).
Proof.
  unfold Brain.handleStatus, Brain.log.
  destruct (Brain.ttsProvider b) as [tts|]; simpl.
  - destruct (Brain.TTS_IsAvailable tts _); simpl;
      apply prefix_snoc, prefix_snoc; reflexivity.
  - apply prefix_snoc. reflexivity.
Qed.

Lemma handleCalc_prefix b action (tr : Trace) :
  tr `prefix_of` snd (Brain.handleCalc b action tr).
Proof.
  unfold Brain.handleCalc.
  destruct (Params action !! "expression") as [[]|]; simpl; try reflexivity.
  destruct (String.eqb _ _); simpl; try reflexivity.
  destruct (Calc.evaluateExpression _); reflexivity.
Qed.

Lemma ProcessCommand_prefix b text (tr : Trace) :
  tr `prefix_of` snd (Brain.ProcessCommand b text tr).
Proof.
  unfold Brain.ProcessCommand, Brain.log.
  destruct (Brain.llmProvider b) as [llm|]; simpl; [|reflexivity].
  destruct (Brain.LLM_IsAvailable llm tr); simpl;
    [|apply prefix_snoc; reflexivity].
  destruct (Brain.LLM_Complete llm _ text) as [action|err]; simpl;
    [|apply prefix_snoc, prefix_snoc; reflexivity].
  set (tr2 := ((tr ++ [EvLLMIsAvailable]) ++ [EvLLMComplete text])%list).
  assert (H2 : tr `prefix_of` tr2)
    by (apply prefix_snoc, prefix_snoc; reflexivity).
  destruct (_ || _); simpl; [exact H2|].
  destruct (String.eqb _ "system.status");
    [etrans; [exact H2 | apply handleStatus_prefix]|].
  destruct (String.eqb _ "system.help"); [exact H2|].
  destruct (String.eqb _ "calc");
    [etrans; [exact H2 | apply handleCalc_prefix]|].
  pose proof (Registry_Execute_prefix (Brain.registry b) action tr2) as Hr.
  destruct (Registry_Execute (Brain.registry b) action tr2) as [[out r] tr3].
  simpl in Hr.
  assert (H3 : tr `prefix_of` tr3) by (etrans; eassumption).
  destruct out as [[result [err|]]|msg|]; simpl; try exact H3.
  destruct (Success result); exact H3.
Qed.

Lemma ProcessAndSpeak_prefix b text (tr : Trace) :
  tr `prefix_of` snd (Brain.ProcessAndSpeak b text tr).
Proof.
  unfold Brain.ProcessAndSpeak.
  pose proof (ProcessCommand_prefix b text tr) as Hp.
  destruct (Brain.ProcessCommand b text tr) as [[out b'] tr1]. simpl in Hp.
  destruct out as [[response err]|msg|]; simpl; try exact Hp.
  destruct (String.eqb _ EmptyString); simpl; [exact Hp|].
  destruct (Brain.ttsProvider b') as [tts|]; simpl; [|exact Hp].
  unfold Brain.log.
  destruct (Brain.TTS_IsAvailable tts tr1); simpl;
    repeat apply prefix_snoc; exact Hp.
Qed.

End TraceProps.

(** ** The executors behind the interface; the OBS executor connects on
    demand *)
Section ObsConnectProps.
Import Go Llm World Executor.

Lemma sendRequest_prefix net requestType data e (tr : Trace) :
  tr `prefix_of` snd (ObsExecutor.sendRequest net requestType data e tr).
Proof.
  unfold ObsExecutor.sendRequest, ObsExecutor.log.
  destruct (negb _); simpl; [reflexivity|].
  destruct (ObsExecutor.WriteJSON net tr); simpl; [apply prefix_snoc; reflexivity|].
  destruct (ObsExecutor.Wait net _ _) as [[resp|err]|err|]; simpl;
    apply prefix_snoc; reflexivity.
Qed.

(** Closes [tr `prefix_of` ((tr ++ [e1]) ++ ...) ++ [en]]. *)
Ltac snocs := first [reflexivity | apply prefix_snoc; snocs].

(** Steps through a handler of the OBS executor: each request it sends
    extends the trace. *)
Ltac obs_steps :=
  repeat match goal with
    | |- context [ObsExecutor.sendRequest ?n ?t ?d ?e ?tr] =>
        let H := fresh "Hreq" in
        pose proof (sendRequest_prefix n t d e tr) as H;
        destruct (ObsExecutor.sendRequest n t d e tr) as [[? ?] ?];
        simpl in H
    | |- _ `prefix_of` snd (match ?x with _ => _ end) => destruct x
    | |- _ `prefix_of` snd (if ?x then _ else _) => destruct x
    end;
  simpl; repeat (etrans; [eassumption|]); try reflexivity.

Lemma obs_handlers_prefix net action e (tr0 tr : Trace) :
  tr0 `prefix_of` tr ->
  tr0 `prefix_of` snd
    (let a := Action_name action in
     if String.eqb a "obs.scene" then ObsExecutor.setScene net action e tr
     else if String.eqb a "obs.source.show" then
       ObsExecutor.setSourceVisibility net action true e tr
     else if String.eqb a "obs.source.hide" then
       ObsExecutor.setSourceVisibility net action false e tr
     else if String.eqb a "obs.volume" then ObsExecutor.setVolume net action e tr
     else if String.eqb a "obs.mute" then ObsExecutor.setMute net action true e tr
     else if String.eqb a "obs.unmute" then ObsExecutor.setMute net action false e tr
     else if String.eqb a "obs.text" then ObsExecutor.setText net action e tr
     else ((NewErrorResult ("unknown OBS action: " ++ a), None), e, tr)).
Proof.
  intros H0. cbv zeta.
  unfold ObsExecutor.setScene, ObsExecutor.setSourceVisibility,
    ObsExecutor.setVolume, ObsExecutor.setMute, ObsExecutor.setText.
  repeat match goal with
    | |- _ `prefix_of` snd (if String.eqb ?x ?y then _ else _) =>
        destruct (String.eqb x y)
    end; obs_steps.
Qed.

(** Entered directly while enabled and not connected, the OBS executor's
    [Execute] starts by dialling: the connection is made on demand. *)
Lemma Execute_connects_on_demand net e action (tr : Trace) :
  ObsExecutor.enabled e = true -> ObsExecutor.connected e = false ->
  (tr ++ [EvObsDial (ObsExecutor.url e) (ObsExecutor.Dial net tr (ObsExecutor.url e))])%list
    `prefix_of` snd (ObsExecutor.Execute net e action tr).
Proof.
  intros He Hc. unfold ObsExecutor.Execute. rewrite He, Hc. simpl negb. cbv iota.
  unfold ObsExecutor.Connect, ObsExecutor.log. rewrite Hc.
  set (tr1 := (tr ++ [EvObsDial _ _])%list).
  destruct (ObsExecutor.Dial net tr _); [reflexivity|].
  destruct (ObsExecutor.ReadJSON net tr1) as [msg|err]; [|snocs].
  destruct (negb (Op msg =? _)); [snocs|].
  destruct (ObsExecutor.UnmarshalHello net _) as [hello|err]; [|snocs].
  destruct (ObsExecutor.WriteJSON net _); [snocs|].
  destruct (ObsExecutor.ReadJSON net _) as [msg2|err]; [|snocs].
  destruct (negb (Op msg2 =? _)); [snocs|].
  apply obs_handlers_prefix. snocs.
Qed.

Lemma Connect_prefix net e (tr : Trace) :
  tr `prefix_of` snd (ObsExecutor.Connect net e tr).
Proof.
  unfold ObsExecutor.Connect, ObsExecutor.log.
  destruct (ObsExecutor.connected e); [reflexivity|].
  destruct (ObsExecutor.Dial net tr _); [snocs|].
  destruct (ObsExecutor.ReadJSON net _) as [msg|err]; [|snocs].
  destruct (negb (Op msg =? _)); [snocs|].
  destruct (ObsExecutor.UnmarshalHello net _) as [hello|err]; [|snocs].
  destruct (ObsExecutor.WriteJSON net _); [snocs|].
  destruct (ObsExecutor.ReadJSON net _) as [msg2|err]; [|snocs].
  destruct (negb (Op msg2 =? _)); snocs.
Qed.

Lemma obs_Execute_prefix net e action (tr : Trace) :
  tr `prefix_of` snd (ObsExecutor.Execute net e action tr).
Proof.
  unfold ObsExecutor.Execute.
  destruct (negb (ObsExecutor.enabled e)); [reflexivity|].
  destruct (negb (ObsExecutor.connected e)).
  - pose proof (Connect_prefix net e tr) as Hc.
    destruct (ObsExecutor.Connect net e tr) as [[cerr e1] tr1]. simpl in Hc.
    destruct cerr; [exact Hc|]. apply obs_handlers_prefix. exact Hc.
  - apply obs_handlers_prefix. reflexivity.
Qed.

Lemma skipn_prefix (tr tr' : Trace) :
  tr `prefix_of` tr' -> (tr ++ List.skipn (List.length tr) tr')%list = tr'.
Proof.
  intros [k ->]. rewrite List.skipn_app, List.skipn_all, Nat.sub_diag. reflexivity.
Qed.

(** Through the interface, the OBS executor leaves the trace that its
    [Execute] builds. *)
Lemma obsOps_trace net e action (tr : Trace) :
  snd (any_Execute (@pack _ (ObsExecutor.obsOps net) e) action tr)
  = snd (ObsExecutor.Execute net e action tr).
Proof.
  unfold any_Execute. simpl.
  pose proof (obs_Execute_prefix net e action tr) as Hp.
  destruct (ObsExecutor.Execute net e action tr) as [[r e1] tr1]. simpl in *.
  apply skipn_prefix. exact Hp.
Qed.

Lemma music_Execute_prefix env e action (tr : Trace) :
  tr `prefix_of` snd (MusicExecutor.Execute env e action tr).
Proof.
  unfold MusicExecutor.Execute, MusicExecutor.play, MusicExecutor.pause,
    MusicExecutor.resume, MusicExecutor.next, MusicExecutor.previous,
    MusicExecutor.setVolume, MusicExecutor.stop, MusicExecutor.stopPlayback,
    MusicExecutor.killCurrent, MusicExecutor.log.
  cbv zeta.
  repeat match goal with
    | |- _ `prefix_of` snd (if ?x then _ else _) => destruct x
    | |- _ `prefix_of` snd (match ?x with _ => _ end) => destruct x
    | |- _ `prefix_of` (if ?x then _ else _) => destruct x
    end; simpl; try snocs;
    destruct (MusicExecutor.currentCmd e); snocs.
Qed.

Lemma musicOps_trace env e action (tr : Trace) :
  snd (any_Execute (@pack _ (MusicExecutor.musicOps env) e) action tr)
  = snd (MusicExecutor.Execute env e action tr).
Proof.
  unfold any_Execute. simpl.
  pose proof (music_Execute_prefix env e action tr) as Hp.
  destruct (MusicExecutor.Execute env e action tr) as [[r e1] tr1]. simpl in *.
  apply skipn_prefix. exact Hp.
Qed.

End ObsConnectProps.

(** ** Finalising a recording *)
Section PipelineFloorProps.
Import Go Llm World Pipeline.

Lemma setState_prefix p s (tr : Trace) : tr `prefix_of` snd (setState p s tr).
Proof.
  unfold setState. destruct (_ && _); simpl;
    [apply prefix_snoc|]; reflexivity.
Qed.

Lemma body_transcribes (now : Time) (p : Pipeline) (tr : Trace) :
  audioBuffer p <> [] -> floorApplies now p = false ->
  (tr ++ [EvTranscribe (audioBuffer p)])%list
    `prefix_of` snd (processRecordedAudio_body now p tr).
Proof.
  intros Hbuf Hfloor. unfold processRecordedAudio_body.
  destruct (Z.of_nat (List.length (audioBuffer p)) =? 0) eqn:El.
  { apply Z.eqb_eq in El. destruct (audioBuffer p); [contradiction|discriminate]. }
  change (floorApplies now (withBuffer p [])) with (floorApplies now p).
  rewrite Hfloor.
  set (tr1 := log tr (EvTranscribe (audioBuffer p))).
  change (tr ++ [EvTranscribe (audioBuffer p)])%list with tr1.
  destruct (Transcribe _ tr _) as [text|err]; simpl.
  2:{ destruct (onError p); [apply prefix_snoc|]; reflexivity. }
  destruct (String.eqb text EmptyString); simpl; [reflexivity|].
  set (tr2 := if onTranscript p then log tr1 (EvOnTranscript text) else tr1).
  assert (H2 : tr1 `prefix_of` tr2).
  { subst tr2. destruct (onTranscript p); [apply prefix_snoc|]; reflexivity. }
  cbn [onTranscript brain].
  fold tr2.
  pose proof (ProcessCommand_prefix (brain p) text tr2) as Hc.
  destruct (Brain.ProcessCommand (brain p) text tr2) as [[out b] tr3].
  simpl in Hc. assert (H3 : tr1 `prefix_of` tr3) by (etrans; eassumption).
  destruct out as [[response [err|]]|msg|]; simpl; try exact H3.
  { destruct (onError p); [apply prefix_snoc|]; exact H3. }
  match goal with
  | |- context [Brain.ProcessAndSpeak _ _ ?t] => set (tr4 := t)
  end.
  assert (H4 : tr1 `prefix_of` tr4).
  { subst tr4. destruct (_ && _); [apply prefix_snoc|]; exact H3. }
  pose proof (ProcessAndSpeak_prefix b text tr4) as Hs.
  destruct (Brain.ProcessAndSpeak b text tr4) as [[out' b'] tr5].
  simpl in Hs. assert (H5 : tr1 `prefix_of` tr5) by (etrans; eassumption).
  destruct out'; exact H5.
Qed.

Lemma body_discards (now : Time) (p : Pipeline) (tr : Trace) :
  audioBuffer p <> [] -> floorApplies now p = true ->
  snd (processRecordedAudio_body now p tr) = tr.
Proof.
  intros Hbuf Hfloor. unfold processRecordedAudio_body.
  destruct (Z.of_nat (List.length (audioBuffer p)) =? 0); [reflexivity|].
  change (floorApplies now (withBuffer p [])) with (floorApplies now p).
  rewrite Hfloor. reflexivity.
Qed.

Lemma floor_needs_onset (now : Time) (p : Pipeline) :
  hasSpeech p = false \/ speechStart p = zeroTime -> floorApplies now p = false.
Proof.
  unfold floorApplies. intros [H|H]; rewrite H; [reflexivity|].
  rewrite andb_false_r. reflexivity.
Qed.

Lemma body_state (now : Time) (p : Pipeline) (tr : Trace) :
  state (snd (fst (processRecordedAudio_body now p tr))) = state p
  /\ onStateChange (snd (fst (processRecordedAudio_body now p tr)))
     = onStateChange p.
Proof.
  unfold processRecordedAudio_body.
  destruct (_ =? 0); [split; reflexivity|].
  destruct (floorApplies _ _); [split; reflexivity|].
  destruct (Transcribe _ _ _) as [text|err]; [|split; reflexivity].
  destruct (String.eqb text EmptyString); [split; reflexivity|].
  destruct (Brain.ProcessCommand _ _ _) as [[out b] tr3].
  destruct out as [[response [err|]]|msg|]; try (split; reflexivity).
  destruct (Brain.ProcessAndSpeak _ _ _) as [[out' b'] tr5].
  destruct out'; split; reflexivity.
Qed.

Lemma handleAudio_without_VAD (now : Time) (p : Pipeline) (audio : list Byte.byte)
  (tr : Trace) :
  vadEnabled p = false ->
  hasSpeech (fst (handleAudio now p audio tr)) = hasSpeech p
  /\ vadEnabled (fst (handleAudio now p audio tr)) = false.
Proof.
  intros Hv. unfold handleAudio. rewrite Hv, andb_false_r.
  destruct (_ || _); [|split; [reflexivity|exact Hv]].
  change (vadEnabled (withBuffer p (audioBuffer p ++ audio))) with (vadEnabled p).
  rewrite Hv. split; [reflexivity|exact Hv].
Qed.

Lemma handleFrames_without_VAD frames (p : Pipeline) (tr : Trace) :
  vadEnabled p = false ->
  hasSpeech (fst (Samples.handleFrames frames p tr)) = hasSpeech p.
Proof.
  revert p tr. induction frames as [|[now audio] rest IH]; intros p tr Hv;
    [reflexivity|].
  simpl. destruct (handleAudio_without_VAD now p audio tr Hv) as [Hh Hv'].
  destruct (handleAudio now p audio tr) as [p' tr']. simpl in Hh, Hv'.
  rewrite (IH p' tr' Hv'). exact Hh.
Qed.

(** C8. Finalising a recording whose buffer is not empty. The recording
    is dropped without reaching the speech-to-text provider exactly when
    the floor test holds, which needs a flagged speech onset ([hasSpeech]
    with a non-zero [speechStart]) younger than the minimum. Without a
    flagged onset the test fails at every time, and the buffer is handed to
    [Transcribe] as the first thing after the state change. With
    voice-activity detection off, no frame handled after [startRecording]
    flags an onset. *)
Theorem processRecordedAudio_floor_only_with_onset
  (now : Time) (p : Pipeline) (tr : Trace) :
  audioBuffer p <> [] ->
  let tr1 := snd (setState p StateProcessing tr) in
  (floorApplies now p = true ->
     snd (processRecordedAudio now p tr)
     = if onStateChange p then (tr1 ++ [EvOnStateChange 0])%list else tr1)
  /\ (floorApplies now p = false ->
        (tr1 ++ [EvTranscribe (audioBuffer p)])%list
          `prefix_of` snd (processRecordedAudio now p tr))
  /\ (hasSpeech p = false \/ speechStart p = zeroTime ->
        forall now',
          (tr1 ++ [EvTranscribe (audioBuffer p)])%list
            `prefix_of` snd (processRecordedAudio now' p tr))
  /\ (vadEnabled p = false ->
        forall frames tr0 tr0',
          hasSpeech
            (fst (Samples.handleFrames frames (fst (startRecording p tr0)) tr0'))
          = false).
Proof.
  intros Hbuf tr1.
  assert (Hrun : forall t, floorApplies t p = false ->
            (tr1 ++ [EvTranscribe (audioBuffer p)])%list
              `prefix_of` snd (processRecordedAudio t p tr)).
  { intros t Hf. unfold processRecordedAudio.
    destruct (setState p StateProcessing tr) as [p1 trA] eqn:E1.
    assert (Hp1 : p1 = withState p StateProcessing).
    { unfold setState in E1. destruct (_ && _); inversion E1; reflexivity. }
    assert (HtrA : trA = tr1) by (subst tr1; try rewrite E1; reflexivity).
    pose proof (body_transcribes t p1 trA) as Hb.
    rewrite Hp1 in Hb. cbn [audioBuffer withState] in Hb.
    specialize (Hb Hbuf Hf). rewrite <- Hp1 in Hb.
    destruct (processRecordedAudio_body t p1 trA) as [[out p2] trB].
    simpl in Hb.
    pose proof (setState_prefix p2 StateIdle trB) as Hs.
    destruct (setState p2 StateIdle trB) as [p3 trC]. simpl in Hs. simpl.
    rewrite <- HtrA. etrans; eassumption. }
  split; [|split; [exact (Hrun now)|split]].
  - intros Hf. unfold processRecordedAudio.
    destruct (setState p StateProcessing tr) as [p1 trA] eqn:E1.
    assert (Hp1 : p1 = withState p StateProcessing).
    { unfold setState in E1. destruct (_ && _); inversion E1; reflexivity. }
    assert (HtrA : trA = tr1) by (subst tr1; try rewrite E1; reflexivity).
    pose proof (body_discards now p1 trA) as Hb.
    pose proof (body_state now p1 trA) as [Hst Hcb].
    rewrite Hp1 in Hb. cbn [audioBuffer withState] in Hb.
    specialize (Hb Hbuf Hf). rewrite <- Hp1 in Hb.
    destruct (processRecordedAudio_body now p1 trA) as [[out p2] trB].
    simpl in Hb, Hst, Hcb. subst trB.
    unfold setState.
    change (onStateChange (withState p2 StateIdle)) with (onStateChange p2).
    rewrite Hst, Hcb, Hp1. cbn [state onStateChange withState].
    simpl. destruct (onStateChange p); reflexivity.
  - intros Hno now'. apply Hrun. apply floor_needs_onset. exact Hno.
  - intros Hv frames tr0 tr0'.
    rewrite handleFrames_without_VAD.
    + unfold startRecording.
      destruct (setState (withBuffer p []) StateRecording tr0). reflexivity.
    + unfold startRecording. destruct (setState (withBuffer p []) StateRecording tr0)
        as [q trq] eqn:E.
      unfold setState in E. destruct (_ && _); inversion E; exact Hv.
Qed.

Lemma processRecordedAudio_floor_only_with_onset_witness :
  audioBuffer Samples.quietRecording <> []
  /\ ([] ++ [EvTranscribe [x01; x02]])%list
       `prefix_of` snd (processRecordedAudio 0 Samples.quietRecording []).
Proof.
  split; [discriminate|].
  refine (proj1 (proj2
            (processRecordedAudio_floor_only_with_onset 0 Samples.quietRecording
               [] _)) _).
  - discriminate.
  - reflexivity.
Defined.

End PipelineFloorProps.

(** ** The music executor: navigation *)
Section MusicProps.
Import Go Llm World Executor MusicExecutor.

Lemma flat_map_nil {A B : Type} (f : A -> list B) (l : list A) :
  (forall x, In x l -> f x = []) -> flat_map f l = [].
Proof.
  induction l as [|x l IH]; intros H; [reflexivity|].
  simpl. rewrite (H x (or_introl eq_refl)), IH; [reflexivity|].
  intros y Hy. apply H. right. exact Hy.
Qed.

Lemma filter_none {A : Type} (f : A -> bool) (l : list A) :
  (forall x, In x l -> f x = false) -> List.filter f l = [].
Proof.
  induction l as [|x l IH]; intros H; [reflexivity|].
  simpl. rewrite (H x (or_introl eq_refl)). apply IH.
  intros y Hy. apply H. right. exact Hy.
Qed.

Lemma single_track_at (e : Executor) (p : string) (i : Z) :
  playlist e = [p] ->
  track_at e i = if i =? 0 then Some p else None.
Proof.
  intros Hp. unfold track_at. rewrite Hp.
  destruct (Z.ltb_spec i 0) as [Hn|Hn].
  - destruct (Z.eqb_spec i 0); [lia | reflexivity].
  - destruct (Z.eqb_spec i 0) as [->|Hne]; [reflexivity|].
    destruct (Z.to_nat i) as [|n] eqn:En; [lia|]. destruct n; reflexivity.
Qed.

(** The track names are cut by [filepath.Base] as the operating system
    separates paths: on Windows the backslash separates too. *)
Lemma Base_by_platform :
  Base unix "./music/song.mp3" = "song.mp3"
  /\ Base (windows (fun _ => 0)) "music\song.mp3" = "song.mp3"
  /\ Base (windows (fun _ => 2)) "C:\music\song.mp3" = "song.mp3"
  /\ Base unix "music\song.mp3" = "music\song.mp3"
  /\ Ext (windows (fun _ => 0)) "music\song.MP3" = ".MP3"
  /\ Ext (windows (fun _ => 0)) "music.d\song" = EmptyString.
Proof. repeat split; reflexivity. Qed.

(** C3. What the code does where the claim speaks of wrapping and
    clamping. On a single-track playlist [next] reports the only track and
    stores nothing: the index it wraps to 0 is a local variable. The
    playback loop, which alone moves the index, takes it from 0 to 1 when
    the track ends or is killed, and on its following round finds the
    index at the end of the playlist and stops playing; [next] called then
    leaves the index at 1. On a single-track playlist [previous] panics
    with an index out of range at every index: it clamps the index to 0
    and then reads the entry after it. At index 0 of a longer playlist
    [previous] does not clamp to 0: it stores [len - 2] and reports the
    last track. A [play] whose query no visited file is accepted for
    returns the failure result "no music found" and a nil error. *)
Theorem music_navigation (env : Env) (action : Action) (e : Executor) (tr : Trace) :
  (forall p, playlist e = [p] -> currentIdx e = 0 ->
     next env e tr
     = (Returns (NewResultWithData "Next track"
                   [("track", VString (Base (OS env) p))], None),
        e, killCurrent e tr)
     /\ let e1 := snd (fst (playLoop_round false e tr)) in
        playlist e1 = [p] /\ currentIdx e1 = 1
        /\ next env e1 tr
           = (Returns (NewResultWithData "Next track"
                         [("track", VString (Base (OS env) p))], None),
              e1, killCurrent e1 tr)
        /\ playLoop_round false e1 tr = (None, setPlaying e1 false false, tr))
  /\ (forall p, playlist e = [p] ->
        fst (fst (previous env e tr)) = Panics "index out of range")
  /\ (forall q, 2 <= lenPlaylist e -> currentIdx e = 0 ->
        track_at e (lenPlaylist e - 1) = Some q ->
        previous env e tr
        = (Returns (NewResultWithData "Previous track"
                      [("track", VString (Base (OS env) q))], None),
           setCurrentIdx e (lenPlaylist e - 2), killCurrent e tr))
  /\ ((forall folder w, In folder (folders e) -> In w (Walk env folder) ->
        accepted env e (ToLower env (GetStringParam action "query")) w = false) ->
      play env action e tr
      = (Returns (NewErrorResult "no music found", None), setPlaylist e [], tr)
      /\ Success (NewErrorResult "no music found") = false
      /\ Error (NewErrorResult "no music found") = "no music found").
Proof.
  split; [|split; [|split]].
  - intros p Hp Hidx.
    assert (Hnext : forall e0, playlist e0 = [p] -> 0 <= currentIdx e0 ->
              next env e0 tr
              = (Returns (NewResultWithData "Next track"
                            [("track", VString (Base (OS env) p))], None),
                 e0, killCurrent e0 tr)).
    { intros e0 Hp0 H0. unfold next, lenPlaylist.
      rewrite (single_track_at e0 p _ Hp0). rewrite Hp0. cbn [List.length].
      change (Z.of_nat 1) with 1. change (1 =? 0) with false. cbv iota zeta.
      replace (1 <=? currentIdx e0 + 1) with true by (symmetry; apply Z.leb_le; lia).
      reflexivity. }
    split; [apply Hnext; [exact Hp | lia]|].
    unfold playLoop_round, lenPlaylist.
    rewrite (single_track_at e p _ Hp), Hp, Hidx. cbn [List.length].
    change (Z.of_nat 1 <=? 0) with false. change (0 =? 0) with true.
    cbv iota zeta. cbn [fst snd].
    split; [exact Hp|]. split; [cbn [currentIdx setCurrentIdx setPlaying]; lia|].
    split;
      [apply Hnext; [exact Hp | cbn [currentIdx setCurrentIdx setPlaying]; lia]|].
    cbn [playlist currentIdx setCurrentIdx setPlaying List.length isPaused].
    rewrite Hp, Hidx. reflexivity.
  - intros p Hp. unfold previous, lenPlaylist. rewrite Hp. cbn [List.length].
    change (Z.of_nat 1 =? 0) with false. cbv iota zeta.
    match goal with
    | |- context [track_at ?e1 ?i] =>
        assert (Hi : 0 <= currentIdx e1);
        [|rewrite (single_track_at e1 p i);
          [destruct (Z.eqb_spec i 0); [lia | reflexivity]|]]
    end.
    + cbn [currentIdx setCurrentIdx playlist].
      destruct (currentIdx e - 2 <? 0) eqn:E1; cbn [currentIdx setCurrentIdx playlist].
      * rewrite Hp. cbn [List.length]. change (Z.of_nat 1 - 2 <? 0) with true.
        cbn [currentIdx setCurrentIdx]. lia.
      * rewrite E1. cbn [currentIdx setCurrentIdx]. apply Z.ltb_ge in E1. lia.
    + cbn [currentIdx setCurrentIdx playlist].
      destruct (currentIdx e - 2 <? 0) eqn:E1; cbn [currentIdx setCurrentIdx playlist].
      * rewrite Hp. cbn [List.length]. change (Z.of_nat 1 - 2 <? 0) with true.
        cbn [playlist setCurrentIdx]. exact Hp.
      * rewrite E1. exact Hp.
  - intros q Hlen Hidx Hq. unfold previous.
    destruct (Z.eqb_spec (lenPlaylist e) 0) as [E|_]; [lia|].
    cbv zeta. cbn [currentIdx setCurrentIdx]. rewrite Hidx.
    change (0 - 2 <? 0) with true. cbv iota. cbn [currentIdx setCurrentIdx].
    change (lenPlaylist (setCurrentIdx e (0 - 2))) with (lenPlaylist e).
    destruct (Z.ltb_spec (lenPlaylist e - 2) 0) as [E2|E2]; [lia|].
    change (track_at (setCurrentIdx (setCurrentIdx e (0 - 2)) (lenPlaylist e - 2))
              (currentIdx
                 (setCurrentIdx (setCurrentIdx e (0 - 2)) (lenPlaylist e - 2)) + 1))
      with (track_at e (lenPlaylist e - 2 + 1)).
    change (setCurrentIdx (setCurrentIdx e (0 - 2)) (lenPlaylist e - 2))
      with (setCurrentIdx e (lenPlaylist e - 2)).
    replace (lenPlaylist e - 2 + 1) with (lenPlaylist e - 1) by lia.
    rewrite Hq. reflexivity.
  - intros Hnone.
    assert (Hload : loadPlaylist env (GetStringParam action "query") e
                    = setPlaylist e []).
    { unfold loadPlaylist. f_equal. apply flat_map_nil. intros folder Hf.
      rewrite filter_none; [reflexivity|]. intros w Hw. exact (Hnone folder w Hf Hw). }
    split; [|split; reflexivity].
    unfold play. rewrite Hload. reflexivity.
Qed.

(** The runs behind C3: [next] on one track, before and after the loop has
    moved on; [previous] on one track and on three; a query nothing
    matches. *)
Lemma music_navigation_witness :
  (next Samples.smallLibrary Samples.oneTrack []
   = (Returns (NewResultWithData "Next track" [("track", VString "a.mp3")], None),
      Samples.oneTrack, [])
   /\ currentIdx (snd (fst (playLoop_round false Samples.oneTrack []))) = 1
   /\ playLoop_round false
        (snd (fst (playLoop_round false Samples.oneTrack []))) []
      = (None,
         setPlaying (snd (fst (playLoop_round false Samples.oneTrack []))) false false,
         []))
  /\ fst (fst (previous Samples.smallLibrary Samples.oneTrack []))
     = Panics "index out of range"
  /\ previous Samples.smallLibrary Samples.threeTracks []
     = (Returns (NewResultWithData "Previous track" [("track", VString "c.mp3")],
                 None),
        setCurrentIdx Samples.threeTracks 1, [])
  /\ play Samples.smallLibrary (Samples.playQuery "queen") Samples.oneTrack []
     = (Returns (NewErrorResult "no music found", None),
        setPlaylist Samples.oneTrack [], []).
Proof.
  split; [|split; [|split]].
  - destruct (proj1 (music_navigation Samples.smallLibrary
                       (Samples.playQuery EmptyString) Samples.oneTrack [])
                "./music/a.mp3" eq_refl eq_refl) as (H1 & _ & H2 & _ & H3).
    split; [exact H1|]. split; [exact H2 | exact H3].
  - exact (proj1 (proj2 (music_navigation Samples.smallLibrary
                           (Samples.playQuery EmptyString) Samples.oneTrack []))
             "./music/a.mp3" eq_refl).
  - apply (proj1 (proj2 (proj2 (music_navigation Samples.smallLibrary
                                  (Samples.playQuery EmptyString)
                                  Samples.threeTracks []))) "./music/c.mp3").
    + vm_compute. discriminate.
    + reflexivity.
    + reflexivity.
  - apply (proj2 (proj2 (proj2 (music_navigation Samples.smallLibrary
                                  (Samples.playQuery "queen") Samples.oneTrack [])))).
    intros folder w [<-|[]] Hw. simpl in Hw.
    destruct Hw as [<-|[<-|[<-|[]]]]; vm_compute; reflexivity.
Defined.

End MusicProps.

(** ** The Twitch client: unauthorized answers and token refresh *)
Section TwitchProps.
Import Go Llm World TwitchExecutor.

Lemma last_app_nonempty {A : Type} (l1 l2 : list A) (d : A) :
  l2 <> [] -> List.last (l1 ++ l2) d = List.last l2 d.
Proof.
  intros Hne. induction l1 as [|x l1 IH]; [reflexivity|].
  simpl. rewrite IH. destruct (l1 ++ l2)%list eqn:E; [|reflexivity].
  apply app_eq_nil in E. destruct E as [_ E]. contradiction.
Qed.

Lemma prefix_append (s t : string) : String.prefix s (s ++ t) = true.
Proof.
  induction s as [|a s IH]; simpl; [destruct t; reflexivity|].
  destruct (ascii_dec a a) as [_|Hne]; [exact IH | contradiction].
Qed.

Lemma isApiRequest_apiRequestOf e method endpoint body :
  isApiRequest (apiRequestOf e method endpoint body) = true.
Proof. unfold isApiRequest, apiRequestOf, HasPrefix. simpl. apply prefix_append. Qed.

Lemma isApiRequest_refreshRequest e : isApiRequest (refreshRequest e) = false.
Proof. reflexivity. Qed.

Lemma apiRequests_app a b : apiRequests (a ++ b) = (apiRequests a + apiRequests b)%nat.
Proof. unfold apiRequests. rewrite List.filter_app, List.length_app. reflexivity. Qed.

Lemma unauthorizedAnswers_app a b :
  unauthorizedAnswers (a ++ b) = (unauthorizedAnswers a + unauthorizedAnswers b)%nat.
Proof.
  unfold unauthorizedAnswers. rewrite List.filter_app, List.length_app. reflexivity.
Qed.

Lemma refreshAttempts_app a b :
  refreshAttempts (a ++ b) = (refreshAttempts a + refreshAttempts b)%nat.
Proof.
  unfold refreshAttempts. rewrite List.filter_app, List.length_app. reflexivity.
Qed.

Lemma refreshSuccesses_app a b :
  refreshSuccesses (a ++ b) = (refreshSuccesses a + refreshSuccesses b)%nat.
Proof.
  unfold refreshSuccesses. rewrite List.filter_app, List.length_app. reflexivity.
Qed.

(** What [refreshAccessToken] adds to the trace: at most its own request,
    then the record of its return. *)
Lemma refreshAccessToken_trace net e tr :
  exists mid,
    snd (refreshAccessToken net e tr)
    = (tr ++ mid ++ [EvRefresh (fst (fst (refreshAccessToken net e tr)))])%list
    /\ apiRequests mid = 0%nat /\ unauthorizedAnswers mid = 0%nat
    /\ refreshAttempts mid = 0%nat /\ refreshSuccesses mid = 0%nat.
Proof.
  unfold refreshAccessToken, refreshAccessToken_body, log.
  destruct (String.eqb (refreshToken e) EmptyString).
  { exists []. simpl. repeat split; reflexivity. }
  destruct (NewRequestError net "POST" _).
  { exists []. simpl. repeat split; reflexivity. }
  exists [EvHTTP (refreshRequest e) (Do net tr (refreshRequest e))].
  assert (Hc : apiRequests [EvHTTP (refreshRequest e) (Do net tr (refreshRequest e))]
               = 0%nat
             /\ unauthorizedAnswers
                  [EvHTTP (refreshRequest e) (Do net tr (refreshRequest e))] = 0%nat
             /\ refreshAttempts
                  [EvHTTP (refreshRequest e) (Do net tr (refreshRequest e))] = 0%nat
             /\ refreshSuccesses
                  [EvHTTP (refreshRequest e) (Do net tr (refreshRequest e))] = 0%nat).
  { unfold apiRequests, unauthorizedAnswers, refreshAttempts, refreshSuccesses.
    simpl. try rewrite isApiRequest_refreshRequest.
    destruct (Do net tr (refreshRequest e)); repeat split; reflexivity. }
  split; [|exact Hc].
  destruct (Do net tr (refreshRequest e)) as [resp|err]; simpl;
    [|rewrite <- app_assoc; reflexivity].
  destruct (negb _); simpl; [rewrite <- app_assoc; reflexivity|].
  destruct (Tokens resp) as [[access refresh]|err]; simpl;
    rewrite <- app_assoc; reflexivity.
Qed.

(** The bookkeeping of a call of [apiRequest] that returns. *)
Lemma apiRequest_accounting (net : Net) (fuel : nat)
  (method endpoint : string) (body : option string)
  (e : Executor) (tr : Trace) (r : result string) (e' : Executor) (tr' : Trace) :
  apiRequest net fuel method endpoint body e tr = (Some r, e', tr') ->
  exists added,
    tr' = (tr ++ added)%list
    /\ refreshAttempts added = unauthorizedAnswers added
    /\ (NewRequestError net method (twitchAPIURL ++ endpoint) = None ->
        apiRequests added = S (refreshSuccesses added))
    /\ (refreshAttempts added <= S (refreshSuccesses added))%nat
    /\ (forall err,
          List.last added EvStopSignal = EvRefresh (Some err) ->
          r = Err ("unauthorized and failed to refresh token: " ++ err)).
Proof.
  revert e tr r e' tr'. induction fuel as [|fuel IH]; intros e tr r e' tr' H;
    [discriminate H|].
  simpl in H.
  destruct (NewRequestError net method (twitchAPIURL ++ endpoint)) as [nerr|] eqn:En.
  { inversion H; subst. exists []. rewrite app_nil_r.
    repeat split; try reflexivity; try discriminate.
    unfold refreshAttempts, refreshSuccesses. simpl. lia. }
  set (req := apiRequestOf e method endpoint body) in *.
  assert (Hreq : isApiRequest req = true) by apply isApiRequest_apiRequestOf.
  unfold log in H.
  destruct (Do net tr req) as [resp|derr] eqn:Ed.
  2:{ inversion H; subst. exists [EvHTTP req (Err derr)].
      unfold apiRequests, unauthorizedAnswers, refreshAttempts, refreshSuccesses.
      simpl. rewrite Hreq. simpl. repeat split; try reflexivity; try lia.
      intros err Hl. discriminate Hl. }
  destruct (ReadErr resp) as [rerr|] eqn:Er.
  { inversion H; subst. exists [EvHTTP req (Ok resp)].
    unfold apiRequests, unauthorizedAnswers, refreshAttempts, refreshSuccesses.
    simpl. rewrite Hreq, Er. simpl. repeat split; try reflexivity; try lia.
    intros err Hl. discriminate Hl. }
  destruct (StatusCode resp =? 401) eqn:E401.
  2:{ assert (Hone : forall r0, (Some r0, e, (tr ++ [EvHTTP req (Ok resp)])%list)
                       = (Some r, e', tr') ->
             exists added, tr' = (tr ++ added)%list
               /\ refreshAttempts added = unauthorizedAnswers added
               /\ (@None error = None -> apiRequests added = S (refreshSuccesses added))
               /\ (refreshAttempts added <= S (refreshSuccesses added))%nat
               /\ (forall err,
                     List.last added EvStopSignal = EvRefresh (Some err) ->
                     r = Err ("unauthorized and failed to refresh token: " ++ err))).
      { intros r0 H0. inversion H0; subst. exists [EvHTTP req (Ok resp)].
        unfold apiRequests, unauthorizedAnswers, refreshAttempts, refreshSuccesses.
        simpl. rewrite Hreq, Er, E401. simpl.
        repeat split; try reflexivity; try lia.
        intros err Hl. discriminate Hl. }
      destruct (400 <=? StatusCode resp); eapply Hone; exact H. }
  set (tr1 := (tr ++ [EvHTTP req (Ok resp)])%list) in *.
  destruct (refreshAccessToken_trace net e tr1)
    as (mid & Htr & Hm1 & Hm2 & Hm3 & Hm4).
  destruct (refreshAccessToken net e tr1) as [[rerr e1] tr2] eqn:Eref.
  simpl in Htr.
  assert (Hhead : apiRequests [EvHTTP req (Ok resp)] = 1%nat
                  /\ unauthorizedAnswers [EvHTTP req (Ok resp)] = 1%nat
                  /\ refreshAttempts [EvHTTP req (Ok resp)] = 0%nat
                  /\ refreshSuccesses [EvHTTP req (Ok resp)] = 0%nat).
  { unfold apiRequests, unauthorizedAnswers, refreshAttempts, refreshSuccesses.
    simpl. rewrite Hreq, Er, E401. repeat split; reflexivity. }
  destruct Hhead as (Hh1 & Hh2 & Hh3 & Hh4).
  destruct rerr as [err|].
  - inversion H; subst r e' tr'.
    exists ([EvHTTP req (Ok resp)] ++ mid ++ [EvRefresh (Some err)])%list.
    split; [subst tr1; rewrite Htr, <- app_assoc; reflexivity|].
    assert (Hf : refreshAttempts [EvRefresh (Some err)] = 1%nat
                 /\ refreshSuccesses [EvRefresh (Some err)] = 0%nat
                 /\ apiRequests [EvRefresh (Some err)] = 0%nat
                 /\ unauthorizedAnswers [EvRefresh (Some err)] = 0%nat)
      by (repeat split; reflexivity).
    destruct Hf as (Hf1 & Hf2 & Hf3 & Hf4).
    rewrite !refreshAttempts_app, !unauthorizedAnswers_app, !apiRequests_app,
      !refreshSuccesses_app, Hh1, Hh2, Hh3, Hh4, Hm1, Hm2, Hm3, Hm4,
      Hf1, Hf2, Hf3, Hf4.
    split; [reflexivity|]. split; [reflexivity|]. split; [lia|].
    intros err' Hl. rewrite app_assoc, List.last_last in Hl.
    inversion Hl. reflexivity.
  - destruct (IH e1 tr2 r e' tr' H) as (added & Ha & Hb & Hc & Hd & He).
    exists ([EvHTTP req (Ok resp)] ++ mid ++ [EvRefresh None] ++ added)%list.
    split.
    { rewrite Ha, Htr. subst tr1. rewrite <- !app_assoc. reflexivity. }
    rewrite !refreshAttempts_app, !unauthorizedAnswers_app, !apiRequests_app,
      !refreshSuccesses_app, Hh1, Hh2, Hh3, Hh4, Hm1, Hm2, Hm3, Hm4.
    specialize (Hc eq_refl).
    assert (Hr : refreshAttempts [EvRefresh None] = 1%nat
                 /\ refreshSuccesses [EvRefresh None] = 1%nat
                 /\ apiRequests [EvRefresh None] = 0%nat
                 /\ unauthorizedAnswers [EvRefresh None] = 0%nat)
      by (repeat split; reflexivity).
    destruct Hr as (Hr1 & Hr2 & Hr3 & Hr4). rewrite Hr1, Hr2, Hr3, Hr4.
    repeat split; try lia.
    intros err Hl. apply He.
    destruct added as [|a added]; [|].
    + exfalso. unfold apiRequests in Hc. simpl in Hc. discriminate Hc.
    + rewrite !app_assoc in Hl.
      rewrite last_app_nonempty in Hl; [exact Hl|discriminate].
Qed.

(** What [apiRequest] does with an answer it takes as unauthorized: it
    calls [refreshAccessToken]; a failure is returned at once, a success is
    followed by the same call again, with the new tokens. *)
Lemma apiRequest_unauthorized (net : Net) (fuel : nat) (method endpoint : string)
  (body : option string) (e : Executor) (tr : Trace) (resp : Response) :
  NewRequestError net method (twitchAPIURL ++ endpoint) = None ->
  Do net tr (apiRequestOf e method endpoint body) = Ok resp ->
  ReadErr resp = None -> StatusCode resp = 401 ->
  apiRequest net (S fuel) method endpoint body e tr
  = let '(rerr, e1, tr1) :=
      refreshAccessToken net e
        (tr ++ [EvHTTP (apiRequestOf e method endpoint body) (Ok resp)])%list in
    match rerr with
    | Some err =>
        (Some (Err ("unauthorized and failed to refresh token: " ++ err)), e1, tr1)
    | None => apiRequest net fuel method endpoint body e1 tr1
    end.
Proof.
  intros Hn Hd Hr Hs. simpl. rewrite Hn, Hd, Hr, Hs. reflexivity.
Qed.

(** C2, amended. [apiRequest] reads the body of every answer before it
    looks at the status. A 401 answer whose body cannot be read ends the
    call with the read error, and no refresh is attempted. A 401 answer
    whose body is read makes it call [refreshAccessToken]: a refresh that
    fails ends the call with an error that names the unauthorized
    condition and carries the error of the refresh, and nothing is sent
    again; a refresh that succeeds is followed by the same call again with
    the new tokens, so a further 401 is refreshed and retried again, with
    no bound. In every call that returns, the refresh attempts are as many
    as the 401 answers whose body was read, at most one of them failed,
    and the requests sent to the API are one more than the refreshes that
    succeeded. *)
Theorem apiRequest_refresh_accounting (net : Net) (fuel : nat)
  (method endpoint : string) (body : option string)
  (e : Executor) (tr : Trace) (resp : Response) :
  NewRequestError net method (twitchAPIURL ++ endpoint) = None ->
  Do net tr (apiRequestOf e method endpoint body) = Ok resp ->
  StatusCode resp = 401 ->
  apiRequest net (S fuel) method endpoint body e tr
  = match ReadErr resp with
    | Some rerr =>
        (Some (Err ("failed to read response: " ++ rerr)), e,
         (tr ++ [EvHTTP (apiRequestOf e method endpoint body) (Ok resp)])%list)
    | None =>
        let '(rerr, e1, tr1) :=
          refreshAccessToken net e
            (tr ++ [EvHTTP (apiRequestOf e method endpoint body) (Ok resp)])%list in
        match rerr with
        | Some err =>
            (Some (Err ("unauthorized and failed to refresh token: " ++ err)),
             e1, tr1)
        | None => apiRequest net fuel method endpoint body e1 tr1
        end
    end
  /\ (forall r e' tr',
        apiRequest net (S fuel) method endpoint body e tr = (Some r, e', tr') ->
        exists added,
          tr' = (tr ++ added)%list
          /\ refreshAttempts added = unauthorizedAnswers added
          /\ apiRequests added = S (refreshSuccesses added)
          /\ (refreshAttempts added <= S (refreshSuccesses added))%nat
          /\ (forall err,
                List.last added EvStopSignal = EvRefresh (Some err) ->
                r = Err ("unauthorized and failed to refresh token: " ++ err))).
Proof.
  intros Hn Hd Hs. split.
  - destruct (ReadErr resp) as [rerr|] eqn:Hr.
    + cbn [apiRequest]. rewrite Hn, Hd, Hr. reflexivity.
    + exact (apiRequest_unauthorized net fuel method endpoint body e tr resp
               Hn Hd Hr Hs).
  - intros r e' tr' Hrun.
    destruct (apiRequest_accounting net (S fuel) method endpoint body e tr r e' tr' Hrun)
      as (added & Ha & Hb & Hc & Hd' & He).
    exists added. repeat split; auto.
Qed.

(** Two runs of one call: a 401 whose refresh is refused (one request, one
    refresh, no retry), and a 401 whose body cannot be read (one request,
    no refresh). *)
Lemma apiRequest_refresh_accounting_witness :
  apiRequest Samples.refusingNet 1 "GET" "/users?login=a" None Samples.streamer []
  = (Some (Err ("unauthorized and failed to refresh token: "
                  ++ "token refresh failed: invalid refresh token")),
     Samples.streamer,
     [EvHTTP (apiRequestOf Samples.streamer "GET" "/users?login=a" None)
        (Ok (mkResponse 401 "{}" None (Err "not a token reply")));
      EvHTTP (refreshRequest Samples.streamer)
        (Ok (mkResponse 400 "invalid refresh token" None (Err "not a token reply")));
      EvRefresh (Some "token refresh failed: invalid refresh token")])
  /\ apiRequest Samples.brokenBodyNet 1 "GET" "/users?login=a" None
       Samples.streamer []
     = (Some (Err "failed to read response: unexpected EOF"), Samples.streamer,
        [EvHTTP (apiRequestOf Samples.streamer "GET" "/users?login=a" None)
           (Ok (mkResponse 401 EmptyString (Some "unexpected EOF")
                  (Err "not a token reply")))]).
Proof.
  split.
  - refine (proj1 (apiRequest_refresh_accounting Samples.refusingNet 0 "GET"
                     "/users?login=a" None Samples.streamer []
                     (mkResponse 401 "{}" None (Err "not a token reply")) _ _ _));
      reflexivity.
  - refine (proj1 (apiRequest_refresh_accounting Samples.brokenBodyNet 0 "GET"
                     "/users?login=a" None Samples.streamer []
                     (mkResponse 401 EmptyString (Some "unexpected EOF")
                        (Err "not a token reply")) _ _ _));
      reflexivity.
Defined.

(** C2 as the specification words it fails on the code: against a
    platform that answers 401 twice, one call of [apiRequest] refreshes the
    token twice and sends the request three times before it returns. *)
Lemma apiRequest_refreshes_again :
  let run :=
    apiRequest Samples.stubbornNet 3 "GET" "/users?login=a" None
      Samples.streamer [] in
  fst (fst run) = Some (Ok "{}")
  /\ refreshAttempts (snd run) = 2%nat
  /\ apiRequests (snd run) = 3%nat
  /\ unauthorizedAnswers (snd run) = 2%nat.
Proof. vm_compute. repeat split; reflexivity. Qed.

(** Against a platform that keeps answering 401 and keeps granting the
    refresh, the call does not return: whatever depth the recursion is
    given, it is used up, with one refresh for each level. *)
Lemma apiRequest_never_settles (fuel : nat) (e : Executor) (tr : Trace) :
  refreshToken e <> EmptyString ->
  fst (fst (apiRequest Samples.loopingNet fuel "GET" "/users?login=a" None e tr))
  = None
  /\ refreshAttempts
       (snd (apiRequest Samples.loopingNet fuel "GET" "/users?login=a" None e tr))
     = (refreshAttempts tr + fuel)%nat.
Proof.
  revert e tr. induction fuel as [|fuel IH]; intros e tr Hne.
  - simpl. split; [reflexivity | lia].
  - cbn [apiRequest]. cbn [Samples.loopingNet NewRequestError Do].
    rewrite isApiRequest_apiRequestOf.
    cbn [ReadErr StatusCode]. change (401 =? 401) with true. cbv iota.
    unfold refreshAccessToken, refreshAccessToken_body.
    destruct (String.eqb_spec (refreshToken e) EmptyString) as [E|_]; [contradiction|].
    cbn [Samples.loopingNet NewRequestError Do].
    rewrite isApiRequest_refreshRequest.
    cbn [StatusCode Tokens]. change (negb (200 =? 200)) with false. cbv iota.
    cbv beta iota zeta.
    match goal with
    | |- context [apiRequest _ fuel _ _ _ ?e1 ?t1] =>
        destruct (IH e1 t1) as [H1 H2]; [discriminate|]; rewrite H1, H2
    end.
    split; [reflexivity|].
    unfold log. rewrite !refreshAttempts_app.
    unfold refreshAttempts at 2 3 4. simpl. lia.
Qed.

End TwitchProps.
(** ** Byte order and WAV framing *)
Section UtilsAudioProps.
Import Go Utils UtilsAudio.

Lemma byteVal_range (b : Byte.byte) : 0 <= byteVal b < 256.
Proof.
  unfold byteVal. pose proof (Byte.to_N_bounded b) as H. lia.
Qed.

Lemma byteVal_byteOf (v : Z) : byteVal (byteOf v) = v mod 256.
Proof.
  unfold byteVal, byteOf.
  pose proof (Z.mod_pos_bound v 256 ltac:(lia)) as Hb.
  destruct (Byte.of_N (Z.to_N (v mod 256))) as [b|] eqn:E.
  - apply Byte.to_of_N in E. rewrite E. lia.
  - apply Byte.of_N_None_iff in E. lia.
Qed.

Lemma byteOf_byteVal (b : Byte.byte) : byteOf (byteVal b) = b.
Proof.
  unfold byteOf, byteVal.
  pose proof (Byte.to_N_bounded b) as H.
  rewrite Z.mod_small by lia.
  rewrite N2Z.id, Byte.of_to_N. reflexivity.
Qed.

Lemma Uint16_le16 (v : Z) (rest : list Byte.byte) :
  Uint16 (le16 v ++ rest) = Some (v mod 2 ^ 16).
Proof.
  unfold le16, Uint16. cbn [List.app]. rewrite !byteVal_byteOf. f_equal.
  change (2 ^ 16) with (2 ^ 8 * 2 ^ 8). rewrite Z.rem_mul_r by lia.
  reflexivity.
Qed.

Lemma Uint32_le32 (v : Z) (rest : list Byte.byte) :
  Uint32 (le32 v ++ rest) = Some (v mod 2 ^ 32).
Proof.
  unfold le32, Uint32. cbn [List.app]. rewrite !byteVal_byteOf. f_equal.
  change (2 ^ 32) with (2 ^ 8 * (2 ^ 8 * (2 ^ 8 * 2 ^ 8))).
  rewrite !Z.rem_mul_r by lia.
  change 256 with (2 ^ 8).
  replace (v / 2 ^ 16) with (v / 2 ^ 8 / 2 ^ 8)
    by (rewrite Z.div_div by lia; reflexivity).
  replace (v / 2 ^ 24) with (v / 2 ^ 8 / 2 ^ 8 / 2 ^ 8)
    by (rewrite !Z.div_div by lia; reflexivity).
  lia.
Qed.

Lemma int16_uint16 (s : Z) :
  - 2 ^ 15 <= s < 2 ^ 15 ->
  int16 (uint16 s mod 256 + 256 * (uint16 s / 2 ^ 8 mod 256)) = s.
Proof.
  intros Hs. unfold uint16.
  change 256 with (2 ^ 8).
  rewrite <- Z.rem_mul_r by lia. change (2 ^ 8 * 2 ^ 8) with (2 ^ 16).
  rewrite Z.mod_mod by lia.
  unfold int16.
  destruct (Z_lt_le_dec s 0) as [Hn|Hp].
  - replace (s mod 2 ^ 16) with (s + 2 ^ 16).
    + destruct (Z.leb_spec (2 ^ 15) (s + 2 ^ 16)); lia.
    + apply Z.mod_unique with (q := -1); lia.
  - rewrite Z.mod_small by lia.
    destruct (Z.leb_spec (2 ^ 15) s); lia.
Qed.

(** X1. Samples survive the trip through bytes: decoding the little-endian
    bytes that [Int16ToBytes] writes gives back the [int16] samples. *)
Theorem BytesToInt16_Int16ToBytes (samples : list Z) :
  Forall (fun s => - 2 ^ 15 <= s < 2 ^ 15) samples ->
  BytesToInt16 (Int16ToBytes samples) = samples.
Proof.
  induction 1 as [|s rest Hs _ IH]; [reflexivity|].
  unfold Int16ToBytes. cbn [flat_map]. unfold le16 at 1. cbn [List.app].
  cbn [BytesToInt16]. rewrite !byteVal_byteOf.
  rewrite (int16_uint16 s Hs). f_equal. exact IH.
Qed.

Lemma BytesToInt16_Int16ToBytes_witness :
  BytesToInt16 (Int16ToBytes [0; 1; -1; 32767; -32768; 258])
  = [0; 1; -1; 32767; -32768; 258].
Proof.
  apply (BytesToInt16_Int16ToBytes [0; 1; -1; 32767; -32768; 258]).
  repeat constructor; lia.
Defined.

Lemma uint16_int16 (u : Z) : 0 <= u < 2 ^ 16 -> uint16 (int16 u) = u.
Proof.
  intros Hu. unfold uint16, int16.
  destruct (Z.leb_spec (2 ^ 15) u).
  - symmetry. apply Z.mod_unique with (q := -1); lia.
  - apply Z.mod_small. lia.
Qed.

Lemma byteOf_mod (v : Z) : byteOf v = byteOf (v mod 256).
Proof. unfold byteOf. rewrite Z.mod_mod by lia. reflexivity. Qed.

Lemma le16_pair (b0 b1 : Byte.byte) :
  le16 (uint16 (int16 (byteVal b0 + 256 * byteVal b1))) = [b0; b1].
Proof.
  pose proof (byteVal_range b0). pose proof (byteVal_range b1).
  rewrite uint16_int16 by lia. unfold le16.
  f_equal; [|f_equal].
  - rewrite byteOf_mod.
    replace ((byteVal b0 + 256 * byteVal b1) mod 256) with (byteVal b0).
    + apply byteOf_byteVal.
    + apply Z.mod_unique with (q := byteVal b1); lia.
  - change (2 ^ 8) with 256.
    replace ((byteVal b0 + 256 * byteVal b1) / 256) with (byteVal b1).
    + apply byteOf_byteVal.
    + apply Z.div_unique with (r := byteVal b0); lia.
Qed.

Lemma bytes_pairs (n : nat) : forall data : list Byte.byte,
  (List.length data <= n)%nat ->
  Int16ToBytes (BytesToInt16 data)
  = firstn (2 * (List.length data / 2)) data
  /\ List.length (BytesToInt16 data) = (List.length data / 2)%nat.
Proof.
  induction n as [|n IH]; intros data Hn.
  - destruct data; [split; reflexivity | simpl in Hn; lia].
  - destruct data as [|b0 [|b1 rest]]; [split; reflexivity | split; reflexivity |].
    cbn [List.length] in Hn.
    destruct (IH rest ltac:(lia)) as [H1 H2].
    cbn [BytesToInt16 List.length].
    replace (S (S (List.length rest)) / 2)%nat with (S (List.length rest / 2))%nat.
    2:{ change (S (S (List.length rest))) with (2 + List.length rest)%nat.
        replace (2 + List.length rest)%nat with (List.length rest + 1 * 2)%nat by lia.
        rewrite Nat.div_add by lia. lia. }
    split; [|f_equal; exact H2].
    replace (2 * S (List.length rest / 2))%nat
      with (S (S (2 * (List.length rest / 2))))%nat by lia.
    cbn [firstn]. unfold Int16ToBytes. cbn [flat_map].
    rewrite le16_pair. cbn [List.app]. do 2 f_equal. exact H1.
Qed.

(** X2. Bytes survive the trip through samples up to an odd last byte:
    [BytesToInt16] yields one sample for each full pair of bytes, and
    [Int16ToBytes] of the result is the input without a trailing odd byte. *)
Theorem Int16ToBytes_BytesToInt16 (data : list Byte.byte) :
  List.length (BytesToInt16 data) = (List.length data / 2)%nat
  /\ Int16ToBytes (BytesToInt16 data)
     = firstn (2 * (List.length data / 2)) data
  /\ (Nat.even (List.length data) = true ->
      Int16ToBytes (BytesToInt16 data) = data).
Proof.
  destruct (bytes_pairs (List.length data) data (le_n _)) as [H1 H2].
  split; [exact H2|]. split; [exact H1|].
  intros He. rewrite H1.
  apply Nat.even_spec in He. destruct He as [k Hk].
  rewrite Hk. replace (2 * k)%nat with (k * 2)%nat by lia.
  rewrite Nat.div_mul by lia.
  replace (2 * k)%nat with (List.length data) by lia.
  apply firstn_all.
Qed.

(** X3. Layout of the WAV file [PCMToWAV] builds: a 44-byte header and
    then the PCM bytes unchanged; the header starts with RIFF, and its
    size, channel and rate fields read back little-endian as the values
    given, reduced to the width of the field. *)
Theorem PCMToWAV_layout (pcmData : list Byte.byte)
  (sampleRate channels bitsPerSample : Z) :
  let wav := PCMToWAV pcmData sampleRate channels bitsPerSample in
  let size := Z.of_nat (List.length pcmData) in
  List.length wav = (44 + List.length pcmData)%nat
  /\ skipn 44 wav = pcmData
  /\ firstn 4 wav = tag "RIFF"
  /\ firstn 4 (skipn 8 wav) = tag "WAVE"
  /\ Uint32 (skipn 4 wav) = Some ((36 + size mod 2 ^ 32) mod 2 ^ 32)
  /\ Uint32 (skipn 40 wav) = Some (size mod 2 ^ 32)
  /\ Uint16 (skipn 20 wav) = Some 1
  /\ Uint16 (skipn 22 wav) = Some (channels mod 2 ^ 16)
  /\ Uint32 (skipn 24 wav) = Some (sampleRate mod 2 ^ 32)
  /\ Uint16 (skipn 34 wav) = Some (bitsPerSample mod 2 ^ 16).
Proof.
  cbv zeta. unfold PCMToWAV, writeHeader, wavHeader.
  cbn [ChunkID ChunkSize Format Subchunk1ID Subchunk1Size AudioFormat
       NumChannels SampleRate ByteRate BlockAlign BitsPerSample Subchunk2ID
       Subchunk2Size].
  change (tag "RIFF") with [x52; x49; x46; x46].
  change (tag "WAVE") with [x57; x41; x56; x45].
  change (tag "fmt ") with [x66; x6d; x74; x20].
  change (tag "data") with [x64; x61; x74; x61].
  unfold le32, le16. cbn [List.app List.length skipn firstn].
  repeat (split; [reflexivity|]).
  repeat split;
    (etransitivity; [first [exact (Uint32_le32 _ _) | exact (Uint16_le16 _ _)]|]);
    unfold uint32, uint16; rewrite ?Z.mod_mod by lia; reflexivity.
Qed.

Lemma findPeak_fixed (samples : list Z) :
  Forall (fun s => s = 0 \/ s = - 2 ^ 15) samples ->
  findPeak samples = 0.
Proof.
  unfold findPeak. induction 1 as [|s rest Hs _ IH]; [reflexivity|].
  cbn [fold_left]. destruct Hs as [-> | ->]; exact IH.
Qed.

(** X4. [NormalizeAudio] returns a block unchanged when it holds nothing
    but zero and full-scale negative samples, whatever the target peak:
    the negation of -32768 wraps to itself in [int16], so the peak found
    is zero. In particular silence and the empty block are unchanged. *)
Theorem NormalizeAudio_unchanged (samples : list Z) (targetPeak : Z) :
  Forall (fun s => s = 0 \/ s = - 2 ^ 15) samples ->
  NormalizeAudio samples targetPeak = Some samples.
Proof.
  intros H. unfold NormalizeAudio.
  rewrite (findPeak_fixed samples H).
  destruct (Z.of_nat (List.length samples) =? 0); reflexivity.
Qed.

Lemma NormalizeAudio_unchanged_witness :
  NormalizeAudio [0; -32768; 0; -32768] 16000 = Some [0; -32768; 0; -32768].
Proof.
  apply (NormalizeAudio_unchanged [0; -32768; 0; -32768] 16000).
  repeat constructor; lia.
Defined.

End UtilsAudioProps.
(** ** The evaluator: what it reports and what it leaves out *)
Section CalcMoreProps.
Import Go Calc.

Lemma mulDivLoop_no_division (expr : string) (fuel : nat) (i : Z) (result : float) :
  mulDivLoop fuel (Split isMulDiv expr) i result <> Error "división entre cero".
Proof.
  revert i result. induction fuel as [|fuel IH]; intros i result; [discriminate|].
  cbn [mulDivLoop]. destruct (i <? _); [|discriminate].
  destruct (index _ (i - 1)) as [prev|] eqn:Ep; [|discriminate].
  destruct (lastChar prev) as [op|] eqn:Eo; [|discriminate].
  destruct (index _ i) as [nextStr|]; [|discriminate].
  destruct (ParseFloat nextStr) as [nextVal| |]; try discriminate.
  assert (Hin : In prev (Split isMulDiv expr)).
  { unfold index in Ep. destruct (i - 1 <? 0); [discriminate Ep|].
    eapply nth_error_In. exact Ep. }
  rewrite (lastChar_of_piece isMulDiv expr prev op "*" Hin Eo eq_refl).
  rewrite (lastChar_of_piece isMulDiv expr prev op "/" Hin Eo eq_refl).
  apply IH.
Qed.

Lemma parseAndMultiplyDivide_no_division (expr : string) :
  parseAndMultiplyDivide expr <> Error "división entre cero".
Proof.
  unfold parseAndMultiplyDivide.
  destruct (String.eqb _ _); [discriminate|].
  destruct (index _ 0) as [p0|]; [|discriminate].
  destruct (ParseFloat p0); try discriminate.
  apply mulDivLoop_no_division.
Qed.

Lemma addSubLoop_no_division (fuel : nat) (parts : list string) (i : Z)
  (result : float) :
  addSubLoop fuel parts i result <> Error "división entre cero".
Proof.
  revert i result. induction fuel as [|fuel IH]; intros i result; [discriminate|].
  cbn [addSubLoop]. destruct (i <? _); [|discriminate].
  destruct (index _ (i - 1)) as [prev|]; [|discriminate].
  destruct (lastChar prev) as [op0|]; [|discriminate].
  cbv zeta.
  destruct (index parts _) as [part|]; [|discriminate].
  pose proof (parseAndMultiplyDivide_no_division part) as Hp.
  destruct (parseAndMultiplyDivide part); try discriminate; try exact Hp.
  apply IH.
Qed.

Lemma evalFlat_no_division (expr : string) :
  evalFlat expr <> Error "división entre cero".
Proof.
  unfold evalFlat. destruct (_ =? 0); [discriminate|].
  destruct (index _ 0) as [p0|]; [|discriminate].
  pose proof (parseAndMultiplyDivide_no_division p0) as Hp.
  destruct (parseAndMultiplyDivide p0); try discriminate; try exact Hp.
  apply addSubLoop_no_division.
Qed.

Lemma simpleEval_no_division (fuel : nat) (expr : string) :
  simpleEval fuel expr <> Error "división entre cero".
Proof.
  revert expr. induction fuel as [|fuel IH]; intros expr; [discriminate|].
  cbn [simpleEval]. cbv zeta.
  destruct (_ =? -1); [apply evalFlat_no_division|].
  destruct (slice expr _ (len expr)) as [tail|]; [|discriminate].
  destruct (_ =? -1); [discriminate|].
  destruct (slice expr _ _) as [inner|]; [|discriminate].
  destruct (slice expr 0 _) as [before|]; [|discriminate].
  destruct (slice expr _ (len expr)) as [after|]; [|discriminate].
  pose proof (IH inner) as Hi.
  destruct (simpleEval fuel inner); try discriminate; try exact Hi.
  destruct (FormatG f); [apply IH | discriminate].
Qed.

(** X5. [evaluateExpression] never reports a division by zero, whatever
    the expression: the test for a zero divisor in [parseAndMultiplyDivide]
    sits behind an operator comparison that no piece of the split reaches. *)
Theorem evaluateExpression_no_division_error (expr : string) :
  evaluateExpression expr <> Error "división entre cero".
Proof.
  unfold evaluateExpression. cbv zeta.
  destruct (negb _); [discriminate | apply simpleEval_no_division].
Qed.

Lemma forallb_string_app (p : ascii -> bool) (a b : string) :
  forallb_string p (a ++ b) = forallb_string p a && forallb_string p b.
Proof.
  unfold forallb_string. induction a as [|c a IH]; simpl; [reflexivity|].
  rewrite IH. apply andb_assoc.
Qed.

Lemma forallb_string_impl (p q : ascii -> bool) (s : string) :
  (forall c, p c = true -> q c = true) ->
  forallb_string p s = true -> forallb_string q s = true.
Proof.
  unfold forallb_string. intros Hpq H. rewrite forallb_forall in *.
  intros c Hc. apply Hpq, H, Hc.
Qed.

Lemma RemoveByte_absent (s : string) (old : ascii) :
  forallb_string (fun c => negb (Ascii.eqb c old)) s = true ->
  RemoveByte s old = s.
Proof.
  unfold forallb_string. induction s as [|a s IH]; simpl; [reflexivity|].
  intros H. apply andb_prop in H. destruct H as [Ha Hs].
  apply negb_true_iff in Ha. rewrite Ha, (IH Hs). reflexivity.
Qed.

Lemma isValidChar_not_space (c : ascii) :
  isValidChar c = true -> negb (Ascii.eqb c " ") = true.
Proof.
  destruct (Ascii.eqb_spec c " ") as [->|]; [vm_compute; discriminate | reflexivity].
Qed.

Lemma Split_whole (isSep : ascii -> bool) (p : string) :
  forallb_string (fun c => negb (isSep c)) p = true -> Split isSep p = [p].
Proof.
  unfold forallb_string. induction p as [|a p IH]; simpl; [reflexivity|].
  intros H. apply andb_prop in H. destruct H as [Ha Hp].
  apply negb_true_iff in Ha. rewrite Ha, (IH Hp). reflexivity.
Qed.

Lemma Split_at (isSep : ascii -> bool) (a b : string) (op : ascii) :
  forallb_string (fun c => negb (isSep c)) a = true -> isSep op = true ->
  Split isSep (a ++ String op b) = a :: Split isSep b.
Proof.
  unfold forallb_string. intros Ha Hop.
  induction a as [|c a IH]; simpl.
  - rewrite Hop. reflexivity.
  - simpl in Ha. apply andb_prop in Ha. destruct Ha as [Hc Ha].
    apply negb_true_iff in Hc. rewrite Hc, (IH Ha). reflexivity.
Qed.

Lemma LastIndexByte_none (s : string) (c : ascii) :
  forallb_string (fun d => negb (Ascii.eqb d c)) s = true ->
  LastIndexByte s c = -1.
Proof.
  unfold forallb_string. induction s as [|a s IH]; simpl; [reflexivity|].
  intros H. apply andb_prop in H. destruct H as [Ha Hs].
  apply negb_true_iff in Ha. rewrite (IH Hs), Ha. reflexivity.
Qed.

Lemma lastChar_nonempty (a : ascii) (s : string) :
  lastChar (String a s) <> None.
Proof.
  unfold lastChar, slice, len. cbn [String.length].
  destruct (_ && _) eqn:E; [discriminate|].
  exfalso. rewrite !andb_false_iff, !Z.leb_gt in E. lia.
Qed.

(** What [evalFlat] does with two operands: the right one is never read. *)
Lemma evalFlat_binary (a b : string) (op : ascii) :
  isPlusMinus op = true ->
  forallb_string (fun c => negb (isPlusMinus c)) a = true ->
  forallb_string (fun c => negb (isPlusMinus c)) b = true ->
  evalFlat (a ++ String op b)
  = match parseAndMultiplyDivide a with
    | Value v => Value (PrimFloat.add v v)
    | other => other
    end.
Proof.
  intros Hop Ha Hb. unfold evalFlat.
  assert (Hparts : Split isPlusMinus (a ++ String op b) = [a; b]).
  { rewrite (Split_at _ _ _ _ Ha Hop), (Split_whole _ _ Hb). reflexivity. }
  assert (Hin : In a (Split isPlusMinus (a ++ String op b))).
  { rewrite Hparts. left. reflexivity. }
  rewrite Hparts. cbn [List.length]. change (Z.of_nat 2 =? 0) with false.
  cbv iota. change (index [a; b] 0) with (Some a). cbv iota.
  destruct (parseAndMultiplyDivide a) as [v| | | |] eqn:Ea; try reflexivity.
  cbn [addSubLoop List.length]. change (1 <? Z.of_nat 2) with true. cbv iota.
  change (index [a; b] (1 - 1)) with (Some a). cbv iota.
  destruct a as [|c a'].
  { discriminate Ea. }
  destruct (lastChar (String c a')) as [op0|] eqn:Eo;
    [|exfalso; exact (lastChar_nonempty c a' Eo)].
  rewrite (lastChar_of_piece isPlusMinus _ _ op0 "+" Hin Eo eq_refl).
  rewrite (lastChar_of_piece isPlusMinus _ _ op0 "-" Hin Eo eq_refl).
  cbv beta iota zeta. cbn [orb].
  change (index [String c a'; b] (1 - 1)) with (Some (String c a')).
  cbv iota. rewrite Ea. cbv iota.
  change (String.eqb "+" "+") with true. cbv iota.
  change (1 - 1 + 2 <? Z.of_nat 2) with false. reflexivity.
Qed.

(** X6. A sum or difference of two operands evaluates to the left operand
    added to itself: the right operand is never read and a minus sign is
    never applied. *)
Theorem evaluateExpression_binary (a b : string) (op : ascii) :
  isPlusMinus op = true ->
  forallb_string (fun c => isDigitOrPoint c || isMulDiv c) a = true ->
  forallb_string (fun c => isDigitOrPoint c || isMulDiv c) b = true ->
  evaluateExpression (a ++ String op b)
  = match parseAndMultiplyDivide a with
    | Value v => Value (PrimFloat.add v v)
    | other => other
    end.
Proof.
  intros Hop Ha Hb.
  assert (Hcls : forall c, isDigitOrPoint c || isMulDiv c = true ->
                 isValidChar c = true /\ isPlusMinus c = false
                 /\ Ascii.eqb c "(" = false).
  { intros c. destruct c as [[] [] [] [] [] [] [] []]; vm_compute; intros H;
      first [discriminate H | repeat split; reflexivity]. }
  assert (Hopv : isValidChar op = true /\ Ascii.eqb op "(" = false).
  { unfold isPlusMinus in Hop. apply orb_prop in Hop.
    destruct Hop as [H|H]; apply Ascii.eqb_eq in H; subst op; split; reflexivity. }
  assert (Hvalid : forallb_string isValidChar (a ++ String op b) = true).
  { rewrite forallb_string_app. apply andb_true_intro. split.
    - eapply forallb_string_impl; [|exact Ha]. intros c Hc. apply (Hcls c Hc).
    - change (forallb_string isValidChar (String op b))
        with (isValidChar op && forallb_string isValidChar b).
      rewrite (proj1 Hopv). cbn [andb].
      eapply forallb_string_impl; [|exact Hb]. intros c Hc. apply (Hcls c Hc). }
  assert (Hnopen : forallb_string (fun d => negb (Ascii.eqb d "("))
                     (a ++ String op b) = true).
  { rewrite forallb_string_app. apply andb_true_intro. split.
    - eapply forallb_string_impl; [|exact Ha]. intros c Hc.
      rewrite (proj2 (proj2 (Hcls c Hc))). reflexivity.
    - change (forallb_string (fun d => negb (Ascii.eqb d "(")) (String op b))
        with (negb (Ascii.eqb op "(")
              && forallb_string (fun d => negb (Ascii.eqb d "(")) b).
      rewrite (proj2 Hopv). cbn [negb andb].
      eapply forallb_string_impl; [|exact Hb]. intros c Hc.
      rewrite (proj2 (proj2 (Hcls c Hc))). reflexivity. }
  unfold evaluateExpression. cbv zeta.
  rewrite RemoveByte_absent
    by (eapply forallb_string_impl; [exact isValidChar_not_space | exact Hvalid]).
  unfold validChars_MatchString. rewrite Hvalid.
  replace (String.eqb (a ++ String op b) EmptyString) with false
    by (destruct a; reflexivity).
  cbn [negb andb]. cbn [simpleEval]. cbv zeta.
  rewrite (LastIndexByte_none _ _ Hnopen). change (-1 =? -1) with true. cbv iota.
  apply evalFlat_binary; [exact Hop | |];
    (eapply forallb_string_impl; [|eassumption]); intros c Hc;
    rewrite (proj1 (proj2 (Hcls c Hc))); reflexivity.
Qed.

Lemma evaluateExpression_binary_witness :
  evaluateExpression "7-3" = Value 14%float.
Proof.
  exact (evaluateExpression_binary "7" "3" "-" eq_refl eq_refl eq_refl).
Defined.

Lemma append_nil (t : string) : EmptyString ++ t = t.
Proof. reflexivity. Qed.

Lemma append_cons (a : ascii) (s t : string) :
  String a s ++ t = String a (s ++ t).
Proof. reflexivity. Qed.

Lemma LastIndexByte_upper (s : string) (c : ascii) : LastIndexByte s c < len s.
Proof.
  unfold len. induction s as [|a s IH]; cbn [LastIndexByte String.length]; [lia|].
  cbv zeta. destruct (Z.eqb_spec (LastIndexByte s c) (-1)).
  - destruct (Ascii.eqb a c); lia.
  - lia.
Qed.

Lemma LastIndexByte_from (s t : string) (c : ascii) :
  len s <= LastIndexByte (s ++ String c t) c.
Proof.
  unfold len. induction s as [|a s IH].
  - rewrite append_nil. cbn [LastIndexByte String.length]. cbv zeta.
    pose proof (LastIndexByte_lower t c).
    rewrite Ascii.eqb_refl. destruct (_ =? -1); lia.
  - rewrite append_cons. cbn [LastIndexByte String.length]. cbv zeta.
    destruct (Z.eqb_spec (LastIndexByte (s ++ String c t) c) (-1)); lia.
Qed.

Lemma Count_tail (s u : string) (c : ascii) (n m : nat) :
  (String.length s <= n)%nat ->
  (Count (String.substring n m (s ++ u)) c <= Count u c)%nat.
Proof.
  revert n. induction s as [|a s IH]; intros n Hn.
  - apply Count_substring.
  - destruct n as [|n]; [simpl in Hn; lia|].
    rewrite append_cons. cbn [String.substring]. apply IH. simpl in Hn. lia.
Qed.

Lemma IndexByte_absent (s : string) (c : ascii) :
  Count s c = O -> IndexByte s c = -1.
Proof.
  induction s as [|a s IH]; cbn [Count IndexByte]; [reflexivity|].
  destruct (Ascii.eqb a c); [discriminate|].
  intros H. cbv zeta. rewrite (IH H). reflexivity.
Qed.

Lemma len_app (a b : string) : len (a ++ b) = len a + len b.
Proof.
  unfold len. induction a as [|c a IH];
    [rewrite append_nil | rewrite append_cons]; cbn [String.length]; lia.
Qed.

(** X7. An opening parenthesis with no closing one after it makes
    [evaluateExpression] report unbalanced parentheses, whatever stands
    before it. *)
Theorem evaluateExpression_unbalanced (s t : string) :
  forallb_string isValidChar (s ++ String "(" t) = true ->
  Count t ")" = O ->
  evaluateExpression (s ++ String "(" t) = Error "paréntesis no balanceados".
Proof.
  intros Hvalid Ht. unfold evaluateExpression. cbv zeta.
  rewrite RemoveByte_absent
    by (eapply forallb_string_impl; [exact isValidChar_not_space | exact Hvalid]).
  unfold validChars_MatchString. rewrite Hvalid.
  replace (String.eqb (s ++ String "(" t) EmptyString) with false
    by (destruct s; reflexivity).
  cbn [negb andb]. cbn [simpleEval]. cbv zeta.
  pose proof (LastIndexByte_from s t "(") as Hlo.
  pose proof (LastIndexByte_upper (s ++ String "(" t) "(") as Hhi.
  assert (Hs : 0 <= len s) by (unfold len; lia).
  destruct (Z.eqb_spec (LastIndexByte (s ++ String "(" t) "(") (-1)); [lia|].
  unfold slice at 1.
  replace (_ && _ && _) with true
    by (symmetry; rewrite !andb_true_iff, !Z.leb_le; lia).
  rewrite IndexByte_absent; [reflexivity|].
  pose proof (Count_tail s (String "(" t) ")"
                (Z.to_nat (LastIndexByte (s ++ String "(" t) "("))
                (Z.to_nat (len (s ++ String "(" t)
                           - LastIndexByte (s ++ String "(" t) "(")))
    as Hc.
  cbn [Count] in Hc. change (Ascii.eqb "(" ")") with false in Hc.
  rewrite Ht in Hc. unfold len in Hlo. lia.
Qed.

Lemma evaluateExpression_unbalanced_witness :
  evaluateExpression "2*(3+4" = Error "paréntesis no balanceados".
Proof.
  exact (evaluateExpression_unbalanced "2*" "3+4" eq_refl eq_refl).
Defined.

End CalcMoreProps.
(** ** The Brain: which commands reach the registry, and which errors come back *)
Section BrainMoreProps.
Import Go Llm World Executor Brain.

Lemma handleStatus_returns (b : Brain) (llm : LLMProvider) (tr : Trace) :
  exists text added,
    handleStatus b llm tr = (Returns (text, None), b, (tr ++ added)%list)
    /\ Forall (fun ev => match ev with EvExecute _ _ => False | _ => True end)
         added.
Proof.
  unfold handleStatus, log. cbv zeta.
  destruct (ttsProvider b) as [tts|].
  - destruct (TTS_IsAvailable tts _);
      eexists; exists [EvLLMIsAvailable; EvTTSIsAvailable];
      (split; [rewrite <- app_assoc; reflexivity | repeat constructor]).
  - eexists; exists [EvLLMIsAvailable].
    split; [reflexivity | repeat constructor].
Qed.

Lemma handleCalc_keeps (b : Brain) (action : Action) (tr : Trace) :
  snd (fst (handleCalc b action tr)) = b /\ snd (handleCalc b action tr) = tr
  /\ match fst (fst (handleCalc b action tr)) with
     | Returns (_, Some _) => False
     | _ => True
     end.
Proof.
  unfold handleCalc.
  destruct (Params action !! "expression") as [[expression| | | | | |]|];
    try (repeat split; exact I).
  destruct (String.eqb expression EmptyString); [repeat split; exact I|].
  destruct (Calc.evaluateExpression expression); repeat split; exact I.
Qed.

(** X8. The actions [none], the empty action, [system.status],
    [system.help] and [calc] are answered by the Brain itself: the
    registry is left as it was and no executor is entered, whatever
    executors are registered and whatever they claim to handle. *)
Theorem ProcessCommand_meta_actions (b : Brain) (llm : LLMProvider)
  (text : string) (tr : Trace) (action : Action) :
  llmProvider b = Some llm ->
  LLM_IsAvailable llm tr = true ->
  LLM_Complete llm (tr ++ [EvLLMIsAvailable])%list text = Ok action ->
  In (Action_name action)
     ["none"; EmptyString; "system.status"; "system.help"; "calc"] ->
  snd (fst (ProcessCommand b text tr)) = b
  /\ exists added,
       snd (ProcessCommand b text tr) = (tr ++ added)%list
       /\ Forall (fun ev => match ev with EvExecute _ _ => False | _ => True end)
            added.
Proof.
  intros Hllm Hav Hc Hname. unfold ProcessCommand, log.
  rewrite Hllm, Hav. cbv zeta. cbn [negb]. rewrite Hc.
  assert (Hpre : forall added,
            Forall (fun ev => match ev with EvExecute _ _ => False | _ => True end)
              added ->
            exists added',
              (((tr ++ [EvLLMIsAvailable]) ++ [EvLLMComplete text]) ++ added)%list
              = (tr ++ added')%list
              /\ Forall (fun ev => match ev with EvExecute _ _ => False | _ => True end)
                   added').
  { intros added Ha. exists (EvLLMIsAvailable :: EvLLMComplete text :: added).
    split; [rewrite <- !app_assoc; reflexivity | repeat constructor; exact Ha]. }
  destruct Hname as [H|[H|[H|[H|[H|[]]]]]]; rewrite <- H;
    repeat match goal with
           | |- context [String.eqb ?x ?y] =>
               let v := eval vm_compute in (String.eqb x y) in
               change (String.eqb x y) with v
           end;
    cbn [orb]; cbv iota.
  - split; [reflexivity|]. cbn [snd].
    destruct (Hpre [] (List.Forall_nil _)) as (a & Ha & Hf).
    rewrite app_nil_r in Ha. eauto.
  - split; [reflexivity|]. cbn [snd].
    destruct (Hpre [] (List.Forall_nil _)) as (a & Ha & Hf).
    rewrite app_nil_r in Ha. eauto.
  -     destruct (handleStatus_returns b llm
                ((tr ++ [EvLLMIsAvailable]) ++ [EvLLMComplete text])%list)
      as (t & added & -> & Hf).
    split; [reflexivity|]. cbn [snd]. exact (Hpre added Hf).
  -     unfold handleHelp. cbv zeta. split; [reflexivity|]. cbn [snd].
    destruct (Hpre [] (List.Forall_nil _)) as (a & Ha & Hf).
    rewrite app_nil_r in Ha. eauto.
  -     destruct (handleCalc_keeps b action
                ((tr ++ [EvLLMIsAvailable]) ++ [EvLLMComplete text])%list)
      as (Hb & Ht & _).
    split; [exact Hb|].
    destruct (Hpre [] (List.Forall_nil _)) as (a & Ha & Hf).
    rewrite app_nil_r in Ha. exists a. rewrite Ht. split; assumption.
Qed.

Lemma ProcessCommand_meta_actions_witness :
  snd (fst (ProcessCommand Samples.helpfulBrain "ayuda" [])) = Samples.helpfulBrain
  /\ exists added,
       snd (ProcessCommand Samples.helpfulBrain "ayuda" []) = ([] ++ added)%list
       /\ Forall (fun ev => match ev with EvExecute _ _ => False | _ => True end)
            added.
Proof.
  apply (ProcessCommand_meta_actions Samples.helpfulBrain
           (Samples.scriptedLLM (Ok Samples.helpAction)) "ayuda" []
           Samples.helpAction); try reflexivity.
  simpl. auto.
Defined.

(** X9. The only error [ProcessCommand] ever returns is a failed
    completion of the language model, wrapped and with an empty response;
    an executor that is missing, unavailable or failing never makes it
    return an error. *)
Theorem ProcessCommand_error_only_from_completion (b b' : Brain)
  (text resp : string) (err : error) (tr tr' : Trace) :
  ProcessCommand b text tr = (Returns (resp, Some err), b', tr') ->
  exists llm e,
    llmProvider b = Some llm
    /\ LLM_Complete llm (tr ++ [EvLLMIsAvailable])%list text = Err e
    /\ err = "failed to interpret command: " ++ e
    /\ resp = EmptyString /\ b' = b
    /\ tr' = (tr ++ [EvLLMIsAvailable; EvLLMComplete text])%list.
Proof.
  unfold ProcessCommand, log. intros H.
  destruct (llmProvider b) as [llm|] eqn:Hl; [|discriminate H].
  cbv zeta in H.
  destruct (negb (LLM_IsAvailable llm tr)); [discriminate H|].
  destruct (LLM_Complete llm (tr ++ [EvLLMIsAvailable])%list text)
    as [action|e] eqn:Hc.
  - exfalso.
    destruct (_ || _); [discriminate H|].
    destruct (String.eqb _ "system.status").
    { destruct (handleStatus_returns b llm
                  ((tr ++ [EvLLMIsAvailable]) ++ [EvLLMComplete text])%list)
        as (t & added & E & _).
      rewrite E in H. discriminate H. }
    destruct (String.eqb _ "system.help"); [discriminate H|].
    destruct (String.eqb _ "calc").
    { pose proof (handleCalc_keeps b action
                    ((tr ++ [EvLLMIsAvailable]) ++ [EvLLMComplete text])%list)
        as (_ & _ & Hn).
      rewrite H in Hn. exact Hn. }
    destruct (Registry_Execute _ _ _) as [[out r] tr1].
    destruct out as [[result [e|]]| |]; try discriminate H.
    destruct (negb (Success result)); discriminate H.
  - inversion H; subst. exists llm, e.
    rewrite <- app_assoc. repeat split; first [reflexivity | assumption].
Qed.

Lemma ProcessCommand_error_only_from_completion_witness :
  exists llm e,
    llmProvider Samples.confusedBrain = Some llm
    /\ LLM_Complete llm ([] ++ [EvLLMIsAvailable])%list "hola" = Err e
    /\ "failed to interpret command: timeout" = "failed to interpret command: " ++ e
    /\ EmptyString = EmptyString /\ Samples.confusedBrain = Samples.confusedBrain
    /\ [EvLLMIsAvailable; EvLLMComplete "hola"]
       = ([] ++ [EvLLMIsAvailable; EvLLMComplete "hola"])%list.
Proof.
  apply (ProcessCommand_error_only_from_completion Samples.confusedBrain
           Samples.confusedBrain "hola" EmptyString
           "failed to interpret command: timeout" []
           [EvLLMIsAvailable; EvLLMComplete "hola"]).
  reflexivity.
Defined.

End BrainMoreProps.

(** ** The registry as a map from names to executors *)
Section RegistryMoreProps.
Import Go Llm World Executor.

Lemma find_assign_same (kvs : list (string * AnyExecutor)) (k : string)
  (v : AnyExecutor) :
  List.find (fun kv => String.eqb (fst kv) k) (assign kvs k v) = Some (k, v).
Proof.
  induction kvs as [|[k' v'] rest IH]; cbn [assign].
  - cbn [List.find fst]. rewrite String.eqb_refl. reflexivity.
  - destruct (String.eqb k' k) eqn:E; cbn [List.find fst].
    + rewrite String.eqb_refl. reflexivity.
    + rewrite E. exact IH.
Qed.

Lemma find_assign_other (kvs : list (string * AnyExecutor)) (k name : string)
  (v : AnyExecutor) :
  name <> k ->
  List.find (fun kv => String.eqb (fst kv) name) (assign kvs k v)
  = List.find (fun kv => String.eqb (fst kv) name) kvs.
Proof.
  intros Hne. induction kvs as [|[k' v'] rest IH]; cbn [assign].
  - cbn [List.find fst]. destruct (String.eqb_spec k name); [congruence | reflexivity].
  - destruct (String.eqb_spec k' k) as [->|Hk]; cbn [List.find fst].
    + destruct (String.eqb_spec k name); [congruence | reflexivity].
    + destruct (String.eqb k' name); [reflexivity | exact IH].
Qed.

(** X10. The registry is a map keyed by the executor's name: after
    [Register], [Get] under that name returns the executor just
    registered (replacing one registered before under the same name), and
    [Get] under any other name answers as before. *)
Theorem Get_Register (r : Registry) (exec : AnyExecutor) (name : string) :
  Get (Register r exec) (any_Name exec) = Some exec
  /\ (name <> any_Name exec -> Get (Register r exec) name = Get r name).
Proof.
  unfold Get, Register. cbn [executors]. split.
  - rewrite find_assign_same. reflexivity.
  - intros Hne. rewrite (find_assign_other _ _ _ _ Hne). reflexivity.
Qed.

Lemma Get_Register_witness :
  Get (Register Samples.obsRegistry
         (@pack _ (ObsExecutor.obsOps Samples.okObsNet) Samples.obsUp)) "obs"
  = Some (@pack _ (ObsExecutor.obsOps Samples.okObsNet) Samples.obsUp)
  /\ Get (Register Samples.obsRegistry
            (@pack _ (ObsExecutor.obsOps Samples.okObsNet) Samples.obsUp)) "music"
     = Get Samples.obsRegistry "music".
Proof.
  destruct (Get_Register Samples.obsRegistry
              (@pack _ (ObsExecutor.obsOps Samples.okObsNet) Samples.obsUp)
              "music") as [H1 H2].
  split; [exact H1 | apply H2; discriminate].
Defined.

(** X11. An action that no registered executor can handle is refused by
    [Registry.Execute] with the error "no executor found for action: ...";
    no executor is entered and the registry is unchanged. *)
Theorem Registry_Execute_no_executor (r : Registry) (action : Action) (tr : Trace) :
  Forall (fun kv => any_CanHandle (snd kv) (Action_name action) = false)
    (executors r) ->
  Registry_Execute r action tr
  = (Returns (NewErrorResult ("no executor found for action: " ++ Action_name action),
              Some ("no executor found for action: " ++ Action_name action)),
     r, tr).
Proof.
  intros H. unfold Registry_Execute, FindExecutor.
  replace (List.find _ (executors r)) with (@None (string * AnyExecutor));
    [reflexivity|].
  symmetry. induction H as [|kv rest Hkv _ IH]; [reflexivity|].
  cbn [List.find]. rewrite Hkv. exact IH.
Qed.

Lemma Registry_Execute_no_executor_witness :
  Registry_Execute Samples.obsRegistry (Samples.playQuery "queen") []
  = (Returns (NewErrorResult "no executor found for action: music.play",
              Some "no executor found for action: music.play"),
     Samples.obsRegistry, []).
Proof.
  apply (Registry_Execute_no_executor Samples.obsRegistry
           (Samples.playQuery "queen") []).
  repeat constructor.
Defined.

End RegistryMoreProps.
(** ** Configuration: defaults and validation *)
Section ConfigMoreProps.
Import Go World Config.

Lemma orStr_idem (v d : string) : orStr (orStr v d) d = orStr v d.
Proof.
  unfold orStr. destruct (String.eqb v EmptyString) eqn:E; [|rewrite E; reflexivity].
  destruct (String.eqb d EmptyString); reflexivity.
Qed.

Lemma orInt_idem (v d : Z) : orInt (orInt v d) d = orInt v d.
Proof.
  unfold orInt. destruct (v =? 0) eqn:E; [|rewrite E; reflexivity].
  destruct (d =? 0); reflexivity.
Qed.

Lemma orFloat_idem (v d : float) : orFloat (orFloat v d) d = orFloat v d.
Proof.
  unfold orFloat. destruct (PrimFloat.eqb v 0) eqn:E; [|rewrite E; reflexivity].
  destruct (PrimFloat.eqb d 0); reflexivity.
Qed.

Lemma orList_idem (v d : list string) : orList (orList v d) d = orList v d.
Proof.
  unfold orList. destruct (Z.of_nat (List.length v) =? 0) eqn:E;
    [|rewrite E; reflexivity].
  destruct (Z.of_nat (List.length d) =? 0); reflexivity.
Qed.

(** X12. Filling in defaults is idempotent, and the default configuration
    is a fixed point: a second pass of [ApplyDefaults] changes nothing. *)
Theorem ApplyDefaults_idempotent (cfg : Config) :
  ApplyDefaults (ApplyDefaults cfg) = ApplyDefaults cfg
  /\ ApplyDefaults DefaultConfig = DefaultConfig.
Proof.
  split; [|reflexivity].
  unfold ApplyDefaults. cbv zeta.
  cbn [General Audio Hotkey STT LLM TTS Twitch OBS Music Sounds
       General_Language General_LogLevel General_DataDir
       Audio_Device Audio_SampleRate Audio_Channels Audio_ChunkSize Audio_VAD
       Audio_WakeWord VAD_Enabled VAD_Sensitivity VAD_SilenceThresholdMs
       VAD_MinSpeechMs WakeWord_Enabled WakeWord_Word WakeWord_Threshold
       Hotkey_Enabled Hotkey_Key Hotkey_Mode
       STT_Provider STT_Whisper STT_OpenAI Whisper_BinaryPath Whisper_ModelPath
       Whisper_Language OpenAISTT_APIKey OpenAISTT_Model
       LLM_Provider LLM_Ollama LLM_OpenAI Ollama_URL Ollama_Model
       Ollama_TimeoutSeconds OpenAILLM_APIKey OpenAILLM_Model
       OpenAILLM_Temperature
       TTS_Provider TTS_Piper TTS_OpenAI Piper_BinaryPath Piper_ModelPath
       Piper_Speed OpenAITTS_APIKey OpenAITTS_Model OpenAITTS_Voice
       Twitch_Enabled Twitch_ClientID Twitch_ClientSecret Twitch_RedirectURI
       Twitch_BroadcasterID Twitch_AccessToken Twitch_RefreshToken
       OBS_Enabled OBS_URL OBS_Password
       Music_Enabled Music_Folders Music_SupportedFormats Music_DefaultVolume
       Music_Shuffle
       Sounds_Enabled Sounds_Wake Sounds_Error Sounds_StartRecording
       Sounds_StopRecording].
  rewrite !orStr_idem, !orInt_idem, !orFloat_idem, !orList_idem.
  reflexivity.
Qed.

Lemma appendIf_nil (c : bool) (msg : string) (errors : list string) :
  appendIf c msg errors = [] <-> c = false /\ errors = [].
Proof.
  unfold appendIf, push. destruct c.
  - split; [intros H; destruct errors; discriminate H | intros [H _]; discriminate H].
  - split; [intros H; split; [reflexivity | exact H] | intros [_ H]; exact H].
Qed.

Lemma push_not_nil (errors : list string) (msg : string) :
  push errors msg = [] <-> False.
Proof.
  unfold push. split; [intros H; destruct errors; discriminate H | intros []].
Qed.

Lemma eqb_empty (s : string) : String.eqb s EmptyString = false <-> s <> EmptyString.
Proof. apply String.eqb_neq. Qed.

Ltac providers :=
  repeat match goal with
         | |- context [String.eqb ?a (String ?c ?r)] =>
             destruct (String.eqb_spec a (String c r)); cbv iota
         end;
  rewrite ?appendIf_nil, ?push_not_nil, ?andb_false_iff, ?eqb_empty;
  intuition congruence.

(** X13. What [Validate] accepts: it returns nil exactly for the
    configurations whose three providers are supported and have what they
    need, whose Twitch section has a client id when enabled, whose sample
    rate and channel count are positive, whose VAD sensitivity and music
    volume are not below 0 nor above 1, and whose hotkey mode is hold or
    toggle when the hotkey is enabled. *)
Theorem Validate_accepts (cfg : Config) :
  Validate cfg = None <->
  (STT_Provider (STT cfg) = "whisper"
   \/ STT_Provider (STT cfg) = "openai"
      /\ OpenAISTT_APIKey (STT_OpenAI (STT cfg)) <> EmptyString)
  /\ (LLM_Provider (LLM cfg) = "ollama"
      /\ Ollama_URL (LLM_Ollama (LLM cfg)) <> EmptyString
      /\ Ollama_Model (LLM_Ollama (LLM cfg)) <> EmptyString
      \/ LLM_Provider (LLM cfg) = "openai"
         /\ OpenAILLM_APIKey (LLM_OpenAI (LLM cfg)) <> EmptyString
      \/ LLM_Provider (LLM cfg) = "auto"
         /\ (OpenAILLM_APIKey (LLM_OpenAI (LLM cfg)) <> EmptyString
             \/ Ollama_URL (LLM_Ollama (LLM cfg)) <> EmptyString))
  /\ (TTS_Provider (TTS cfg) = "piper"
      \/ TTS_Provider (TTS cfg) = "openai"
         /\ OpenAITTS_APIKey (TTS_OpenAI (TTS cfg)) <> EmptyString
      \/ TTS_Provider (TTS cfg) = "auto"
         /\ (OpenAITTS_APIKey (TTS_OpenAI (TTS cfg)) <> EmptyString
             \/ Piper_BinaryPath (TTS_Piper (TTS cfg)) <> EmptyString))
  /\ (Twitch_Enabled (Twitch cfg) = true ->
      Twitch_ClientID (Twitch cfg) <> EmptyString)
  /\ 0 < Audio_SampleRate (Audio cfg)
  /\ 0 < Audio_Channels (Audio cfg)
  /\ (PrimFloat.ltb (VAD_Sensitivity (Audio_VAD (Audio cfg))) 0 = false
      /\ PrimFloat.ltb 1 (VAD_Sensitivity (Audio_VAD (Audio cfg))) = false)
  /\ (Hotkey_Enabled (Hotkey cfg) = true ->
      Hotkey_Mode (Hotkey cfg) = "hold" \/ Hotkey_Mode (Hotkey cfg) = "toggle")
  /\ (PrimFloat.ltb (Music_DefaultVolume (Music cfg)) 0 = false
      /\ PrimFloat.ltb 1 (Music_DefaultVolume (Music cfg)) = false).
Proof.
  unfold Validate.
  set (e1 := if String.eqb (STT_Provider (STT cfg)) "whisper" then _ else _).
  set (e2 := if String.eqb (LLM_Provider (LLM cfg)) "ollama" then _ else _).
  set (e3 := if String.eqb (TTS_Provider (TTS cfg)) "piper" then _ else _).
  set (e4 := if Twitch_Enabled (Twitch cfg) then _ else _).
  set (e5 := appendIf (Audio_SampleRate (Audio cfg) <=? 0) _ _).
  set (e6 := appendIf (Audio_Channels (Audio cfg) <=? 0) _ _).
  set (e7 := appendIf (PrimFloat.ltb (VAD_Sensitivity _) 0 || _) _ _).
  set (e8 := if Hotkey_Enabled (Hotkey cfg) then _ else _).
  set (e9 := appendIf (PrimFloat.ltb (Music_DefaultVolume _) 0 || _) _ _).
  assert (H1 : e1 = [] <->
            (STT_Provider (STT cfg) = "whisper"
             \/ STT_Provider (STT cfg) = "openai"
                /\ OpenAISTT_APIKey (STT_OpenAI (STT cfg)) <> EmptyString)).
  { clear e9 e8 e7 e6 e5 e4 e3 e2. subst e1. providers. }
  clearbody e1.
  assert (H2 : e2 = [] <-> e1 = [] /\
            (LLM_Provider (LLM cfg) = "ollama"
             /\ Ollama_URL (LLM_Ollama (LLM cfg)) <> EmptyString
             /\ Ollama_Model (LLM_Ollama (LLM cfg)) <> EmptyString
             \/ LLM_Provider (LLM cfg) = "openai"
                /\ OpenAILLM_APIKey (LLM_OpenAI (LLM cfg)) <> EmptyString
             \/ LLM_Provider (LLM cfg) = "auto"
                /\ (OpenAILLM_APIKey (LLM_OpenAI (LLM cfg)) <> EmptyString
                    \/ Ollama_URL (LLM_Ollama (LLM cfg)) <> EmptyString))).
  { clear H1. clear e9 e8 e7 e6 e5 e4 e3. subst e2. providers. }
  clearbody e2.
  assert (H3 : e3 = [] <-> e2 = [] /\
            (TTS_Provider (TTS cfg) = "piper"
             \/ TTS_Provider (TTS cfg) = "openai"
                /\ OpenAITTS_APIKey (TTS_OpenAI (TTS cfg)) <> EmptyString
             \/ TTS_Provider (TTS cfg) = "auto"
                /\ (OpenAITTS_APIKey (TTS_OpenAI (TTS cfg)) <> EmptyString
                    \/ Piper_BinaryPath (TTS_Piper (TTS cfg)) <> EmptyString))).
  { clear H1 H2. clear e9 e8 e7 e6 e5 e4. subst e3. providers. }
  clearbody e3.
  assert (H4 : e4 = [] <-> e3 = [] /\
            (Twitch_Enabled (Twitch cfg) = true ->
             Twitch_ClientID (Twitch cfg) <> EmptyString)).
  { clear H1 H2 H3. clear e9 e8 e7 e6 e5. subst e4.
    destruct (Twitch_Enabled (Twitch cfg));
      rewrite ?appendIf_nil, ?eqb_empty; intuition congruence. }
  clearbody e4.
  assert (H5 : e5 = [] <-> e4 = [] /\ 0 < Audio_SampleRate (Audio cfg)).
  { clear H1 H2 H3 H4. clear e9 e8 e7 e6. subst e5.
    rewrite appendIf_nil, Z.leb_gt. tauto. }
  clearbody e5.
  assert (H6 : e6 = [] <-> e5 = [] /\ 0 < Audio_Channels (Audio cfg)).
  { clear H1 H2 H3 H4 H5. clear e9 e8 e7. subst e6.
    rewrite appendIf_nil, Z.leb_gt. tauto. }
  clearbody e6.
  assert (H7 : e7 = [] <-> e6 = [] /\
            (PrimFloat.ltb (VAD_Sensitivity (Audio_VAD (Audio cfg))) 0 = false
             /\ PrimFloat.ltb 1 (VAD_Sensitivity (Audio_VAD (Audio cfg))) = false)).
  { clear H1 H2 H3 H4 H5 H6. clear e9 e8. subst e7.
    rewrite appendIf_nil, orb_false_iff. tauto. }
  clearbody e7.
  assert (H8 : e8 = [] <-> e7 = [] /\
            (Hotkey_Enabled (Hotkey cfg) = true ->
             Hotkey_Mode (Hotkey cfg) = "hold"
             \/ Hotkey_Mode (Hotkey cfg) = "toggle")).
  { clear H1 H2 H3 H4 H5 H6 H7. clear e9. subst e8.
    destruct (Hotkey_Enabled (Hotkey cfg));
      rewrite ?appendIf_nil, ?andb_false_iff, ?negb_false_iff, ?String.eqb_eq;
      intuition congruence. }
  clearbody e8.
  assert (H9 : e9 = [] <-> e8 = [] /\
            (PrimFloat.ltb (Music_DefaultVolume (Music cfg)) 0 = false
             /\ PrimFloat.ltb 1 (Music_DefaultVolume (Music cfg)) = false)).
  { clear H1 H2 H3 H4 H5 H6 H7 H8. subst e9.
    rewrite appendIf_nil, orb_false_iff. tauto. }
  clearbody e9.
  assert (Hfin : (if 0 <? Z.of_nat (List.length e9)
                  then Some ("validation errors:" ++ newline ++ "- "
                             ++ Join e9 (newline ++ "- "))
                  else None) = None <-> e9 = []).
  { destruct e9; cbn [List.length]; [split; reflexivity|].
    replace (0 <? Z.of_nat (S (List.length e9))) with true
      by (symmetry; apply Z.ltb_lt; lia).
    split; discriminate. }
  rewrite Hfin, H9, H8, H7, H6, H5, H4, H3, H2, H1.
  split.
  - intros ((((((((h1 & h2) & h3) & h4) & h5) & h6) & h7) & h8) & h9).
    exact (conj h1 (conj h2 (conj h3 (conj h4 (conj h5 (conj h6
             (conj h7 (conj h8 h9)))))))).
  - intros (h1 & h2 & h3 & h4 & h5 & h6 & h7 & h8 & h9).
    exact (conj (conj (conj (conj (conj (conj (conj (conj h1 h2) h3) h4) h5) h6)
                   h7) h8) h9).
Qed.

(** The default configuration is one of those [Validate] accepts. *)
Lemma Validate_accepts_witness : Validate DefaultConfig = None.
Proof.
  apply (proj2 (Validate_accepts DefaultConfig)).
  repeat split; try reflexivity; try discriminate; auto.
Defined.

Lemma orStr_filled (v d : string) : d <> EmptyString -> orStr v d <> EmptyString.
Proof.
  unfold orStr. intros Hd. destruct (String.eqb_spec v EmptyString); assumption.
Qed.

Lemma orInt_filled (v d : Z) : d <> 0 -> orInt v d <> 0.
Proof. unfold orInt. intros Hd. destruct (Z.eqb_spec v 0); assumption. Qed.

(** X14. Every configuration [Load] returns passes [Validate], and the
    fields that have a default and that no environment variable is
    expanded into are never left empty or zero, whatever the file held. *)
Theorem Load_valid (env : Env) (configPath : string) (cfg : Config) :
  Load env configPath = Ok cfg ->
  Validate cfg = None
  /\ Audio_ChunkSize (Audio cfg) <> 0
  /\ VAD_SilenceThresholdMs (Audio_VAD (Audio cfg)) <> 0
  /\ VAD_MinSpeechMs (Audio_VAD (Audio cfg)) <> 0
  /\ Hotkey_Key (Hotkey cfg) <> EmptyString
  /\ Ollama_URL (LLM_Ollama (LLM cfg)) <> EmptyString
  /\ Ollama_Model (LLM_Ollama (LLM cfg)) <> EmptyString
  /\ Ollama_TimeoutSeconds (LLM_Ollama (LLM cfg)) <> 0
  /\ OBS_URL (OBS cfg) <> EmptyString.
Proof.
  unfold Load. intros H.
  destruct (if negb (String.eqb configPath EmptyString) then _ else _)
    as [|err|[c|err]]; try discriminate H.
  - inversion H; subst cfg. repeat split; try reflexivity; discriminate.
  - destruct (Validate (expandEnvVars env (ApplyDefaults c))) eqn:Hv;
      inversion H; subst cfg.
    split; [exact Hv|].
    unfold expandEnvVars, ApplyDefaults. cbv zeta.
    cbn [Audio Hotkey LLM OBS Audio_ChunkSize Audio_VAD VAD_SilenceThresholdMs
         VAD_MinSpeechMs Hotkey_Key LLM_Ollama Ollama_URL Ollama_Model
         Ollama_TimeoutSeconds OBS_URL DefaultConfig].
    repeat split; first [apply orStr_filled | apply orInt_filled]; discriminate.
Qed.

Lemma Load_valid_witness :
  Validate (ApplyDefaults Samples.zeroConfig) = None
  /\ Audio_ChunkSize (Audio (ApplyDefaults Samples.zeroConfig)) <> 0
  /\ VAD_SilenceThresholdMs (Audio_VAD (Audio (ApplyDefaults Samples.zeroConfig)))
     <> 0
  /\ VAD_MinSpeechMs (Audio_VAD (Audio (ApplyDefaults Samples.zeroConfig))) <> 0
  /\ Hotkey_Key (Hotkey (ApplyDefaults Samples.zeroConfig)) <> EmptyString
  /\ Ollama_URL (LLM_Ollama (LLM (ApplyDefaults Samples.zeroConfig)))
     <> EmptyString
  /\ Ollama_Model (LLM_Ollama (LLM (ApplyDefaults Samples.zeroConfig)))
     <> EmptyString
  /\ Ollama_TimeoutSeconds (LLM_Ollama (LLM (ApplyDefaults Samples.zeroConfig)))
     <> 0
  /\ OBS_URL (OBS (ApplyDefaults Samples.zeroConfig)) <> EmptyString.
Proof.
  apply (Load_valid (Samples.fileEnv Samples.zeroConfig) "jarvis.config.yaml"
           (ApplyDefaults Samples.zeroConfig)).
  reflexivity.
Defined.

End ConfigMoreProps.
(** ** The OBS executor: handshake, request ids, required names *)
Section ObsMoreProps.
Import Go Llm World Executor ObsExecutor ObsTrace.

(** X15. After [Connect] the executor is connected exactly when no error
    was returned. A failed handshake leaves it disconnected, and unless
    the dial itself failed the connection it opened has been closed. The
    address, the password, the enabled flag and the request counter are
    never touched. *)
Theorem Connect_outcome (net : Net) (e : Executor) (tr : Trace) :
  let r := Connect net e tr in
  match fst (fst r) with
  | None => connected (snd (fst r)) = true
  | Some _ =>
      connected (snd (fst r)) = false
      /\ (snd r = (tr ++ [EvObsDial (url e) (Dial net tr (url e))])%list
          \/ List.last (snd r) EvStopSignal = EvObsClose)
  end
  /\ url (snd (fst r)) = url e /\ password (snd (fst r)) = password e
  /\ enabled (snd (fst r)) = enabled e
  /\ requestID (snd (fst r)) = requestID e.
Proof.
  cbv zeta. unfold Connect, log.
  destruct (connected e) eqn:Hc; [cbn [fst snd]; auto|].
  destruct (Dial net tr (url e)) as [derr|];
    [cbn [fst snd]; repeat split; auto|].
  destruct (ReadJSON net _) as [msg|err].
  2:{ cbn [fst snd connected setConn url password enabled requestID].
      repeat split; auto. right. apply List.last_last. }
  destruct (negb (Op msg =? OpHello)).
  { cbn [fst snd connected setConn url password enabled requestID].
    repeat split; auto. right. apply List.last_last. }
  destruct (UnmarshalHello net (D msg)) as [hello|err].
  2:{ cbn [fst snd connected setConn url password enabled requestID].
      repeat split; auto. right. apply List.last_last. }
  cbv zeta.
  destruct (WriteJSON net _) as [werr|].
  { cbn [fst snd connected setConn url password enabled requestID].
    repeat split; auto. right. apply List.last_last. }
  destruct (ReadJSON net _) as [msg2|err].
  2:{ cbn [fst snd connected setConn url password enabled requestID].
      repeat split; auto. right. apply List.last_last. }
  destruct (negb (Op msg2 =? OpIdentified)).
  { cbn [fst snd connected setConn url password enabled requestID].
    repeat split; auto. right. apply List.last_last. }
  cbn [fst snd connected setConn setConnected url password enabled requestID].
  repeat split; reflexivity.
Qed.

(** *** Request ids *)

Lemma requestIDs_app (a b : list Event) :
  requestIDs (a ++ b) = (requestIDs a ++ requestIDs b)%list.
Proof. unfold requestIDs. apply List.flat_map_app. Qed.

Lemma idsAfter_shift (from : Z) (n m s : nat) :
  List.map (fun k => FormatD (from + Z.of_nat k)) (List.seq (s + n) m)
  = List.map (fun k => FormatD (from + Z.of_nat n + Z.of_nat k)) (List.seq s m).
Proof.
  revert s. induction m as [|m IH]; intros s; [reflexivity|].
  cbn [List.seq List.map]. f_equal.
  - f_equal. lia.
  - exact (IH (S s)).
Qed.

Lemma idsAfter_app (from : Z) (n m : nat) :
  idsAfter from (n + m)
  = (idsAfter from n ++ idsAfter (from + Z.of_nat n) m)%list.
Proof.
  unfold idsAfter. rewrite List.seq_app, List.map_app. f_equal.
  exact (idsAfter_shift from n m 1).
Qed.

Lemma numbered_none (e e' : Executor) (added : list Event) :
  requestIDs added = [] -> requestID e' = requestID e -> numbered e added e'.
Proof. intros Ha He. exists 0%nat. split; [exact Ha | cbn; lia]. Qed.

Lemma numbered_app (e e1 e2 : Executor) (a b : list Event) :
  numbered e a e1 -> numbered e1 b e2 -> numbered e (a ++ b) e2.
Proof.
  intros (n & Ha & Hn) (m & Hb & Hm). exists (n + m)%nat.
  rewrite requestIDs_app, idsAfter_app, Ha, Hb, Hn. split; [reflexivity | lia].
Qed.

(** The effect of a step on the executor and the trace. *)
Lemma sendRequest_numbered (net : Net) (requestType : string)
  (data : option (list (string * Value))) (e : Executor) (tr : Trace) :
  exists added,
    snd (sendRequest net requestType data e tr) = (tr ++ added)%list
    /\ numbered e added (snd (fst (sendRequest net requestType data e tr))).
Proof.
  unfold sendRequest, log.
  destruct (negb (connected e)).
  { exists []. cbn [fst snd]. rewrite app_nil_r. split; [reflexivity|].
    apply numbered_none; reflexivity. }
  cbv zeta.
  assert (Hone : forall werr,
            numbered e
              [EvObsSend (mkRequestData requestType (FormatD (requestID e + 1)) data)
                 werr]
              (setRequestID e (requestID e + 1))).
  { intros werr. exists 1%nat. split; [reflexivity | cbn; lia]. }
  destruct (WriteJSON net tr) as [err|].
  { eexists. cbn [fst snd]. split; [reflexivity | apply Hone]. }
  destruct (Wait net _ _) as [[resp|err]|err|];
    (eexists; cbn [fst snd]; split; [reflexivity | apply Hone]).
Qed.

Lemma Connect_numbered (net : Net) (e : Executor) (tr : Trace) :
  exists added,
    snd (Connect net e tr) = (tr ++ added)%list
    /\ numbered e added (snd (fst (Connect net e tr))).
Proof.
  pose proof (Connect_outcome net e tr) as Ho. cbv zeta in Ho.
  destruct Ho as (_ & _ & _ & _ & Hid).
  pose proof (Connect_prefix net e tr) as [added Ha].
  exists added. split; [exact Ha|].
  apply numbered_none; [|exact Hid].
  revert Ha. unfold Connect, log.
  destruct (connected e).
  { cbn [snd]. intros Ha. rewrite <- (app_nil_r tr) in Ha at 1.
    apply app_inv_head in Ha. subst added. reflexivity. }
  assert (Hstep : forall (evs : list Event),
            requestIDs evs = [] -> (tr ++ evs)%list = (tr ++ added)%list ->
            requestIDs added = []).
  { intros evs Hevs Heq. apply app_inv_head in Heq. subst added. exact Hevs. }
  destruct (Dial net tr (url e)).
  { cbn [snd]. apply Hstep. reflexivity. }
  destruct (ReadJSON net _) as [msg|err].
  2:{ cbn [snd]. rewrite <- !app_assoc. apply Hstep. reflexivity. }
  destruct (negb (Op msg =? OpHello)).
  { cbn [snd]. rewrite <- !app_assoc. apply Hstep. reflexivity. }
  destruct (UnmarshalHello net (D msg)) as [hello|err].
  2:{ cbn [snd]. rewrite <- !app_assoc. apply Hstep. reflexivity. }
  cbv zeta.
  destruct (WriteJSON net _).
  { cbn [snd]. rewrite <- !app_assoc. apply Hstep. reflexivity. }
  destruct (ReadJSON net _) as [msg2|err].
  2:{ cbn [snd]. rewrite <- !app_assoc. apply Hstep. reflexivity. }
  destruct (negb (Op msg2 =? OpIdentified));
    cbn [snd]; rewrite <- !app_assoc; apply Hstep; reflexivity.
Qed.

(** A run that extends the trace with numbered requests. *)
Lemma numbered_here (e : Executor) (tr : Trace) :
  exists added, tr = (tr ++ added)%list /\ numbered e added e.
Proof.
  exists []. rewrite app_nil_r. split; [reflexivity|].
  apply numbered_none; reflexivity.
Qed.

Lemma numbered_then (e e1 e2 : Executor) (tr tr1 tr2 : Trace) :
  (exists a, tr1 = (tr ++ a)%list /\ numbered e a e1) ->
  (exists b, tr2 = (tr1 ++ b)%list /\ numbered e1 b e2) ->
  exists c, tr2 = (tr ++ c)%list /\ numbered e c e2.
Proof.
  intros (a & -> & Ha) (b & -> & Hb). exists (a ++ b)%list.
  rewrite app_assoc. split; [reflexivity | exact (numbered_app _ _ _ _ _ Ha Hb)].
Qed.

(** Steps through a handler, request by request. *)
Ltac numbered_steps :=
  repeat lazymatch goal with
    | |- exists b, snd ?X = (?tr0 ++ b)%list /\ numbered ?e0 b _ =>
        lazymatch X with
        | if ?c then _ else _ => destruct c
        | context [sendRequest ?n ?t ?d e0 tr0] =>
            let H := fresh "Hreq" in
            let e2 := fresh "e" in
            let t2 := fresh "t" in
            pose proof (sendRequest_numbered n t d e0 tr0) as H;
            destruct (sendRequest n t d e0 tr0) as [[? e2] t2];
            cbn [fst snd] in H;
            apply (numbered_then e0 e2 _ tr0 t2 _ H); clear H
        | match ?x with _ => _ end => destruct x
        | _ => cbn [fst snd]; apply numbered_here
        end
    end.

Lemma handlers_numbered (net : Net) (action : Action) (e : Executor) (tr : Trace) :
  let r :=
    (let a := Action_name action in
     if String.eqb a "obs.scene" then setScene net action e tr
     else if String.eqb a "obs.source.show" then
       setSourceVisibility net action true e tr
     else if String.eqb a "obs.source.hide" then
       setSourceVisibility net action false e tr
     else if String.eqb a "obs.volume" then setVolume net action e tr
     else if String.eqb a "obs.mute" then setMute net action true e tr
     else if String.eqb a "obs.unmute" then setMute net action false e tr
     else if String.eqb a "obs.text" then setText net action e tr
     else ((NewErrorResult ("unknown OBS action: " ++ a), None), e, tr)) in
  exists added, snd r = (tr ++ added)%list /\ numbered e added (snd (fst r)).
Proof.
  cbv zeta.
  unfold setScene, setSourceVisibility, setVolume, setMute, setText.
  cbv zeta. numbered_steps.
Qed.

(** X16. The requests an action sends to OBS carry consecutive ids: the
    ids written during [Execute] are the numbers that follow the
    executor's counter, in order, and the counter ends at the last of
    them. No id is used twice, and a run that sends nothing leaves the
    counter where it was. *)
Theorem Execute_request_ids (net : Net) (e : Executor) (action : Action)
  (tr : Trace) :
  exists added n,
    snd (Execute net e action tr) = (tr ++ added)%list
    /\ requestIDs added
       = List.map (fun k => FormatD (requestID e + Z.of_nat k)) (List.seq 1 n)
    /\ requestID (snd (fst (Execute net e action tr)))
       = requestID e + Z.of_nat n.
Proof.
  assert (H : exists added,
            snd (Execute net e action tr) = (tr ++ added)%list
            /\ numbered e added (snd (fst (Execute net e action tr)))).
  { unfold Execute.
    destruct (negb (enabled e)); [apply numbered_here|].
    destruct (negb (connected e)).
    - pose proof (Connect_numbered net e tr) as Hc.
      destruct (Connect net e tr) as [[cerr e1] tr1]. cbn [fst snd] in Hc.
      destruct cerr; [exact Hc|].
      eapply numbered_then; [exact Hc|].
      apply (handlers_numbered net action e1 tr1).
    - apply (handlers_numbered net action e tr). }
  destruct H as (added & Ha & n & Hids & Hn).
  exists added, n. auto.
Qed.

(** X17. The handlers check the name they need before anything is sent:
    on a connected executor an action without its scene or source name is
    answered with a failure result and a nil error, and neither the
    executor nor the trace changes. *)
Theorem Execute_requires_names (net : Net) (e : Executor) (action : Action)
  (tr : Trace) :
  enabled e = true -> connected e = true ->
  (Action_name action = "obs.scene" ->
   GetStringParam action "scene" = EmptyString ->
   Execute net e action tr
   = ((NewErrorResult "scene name is required", None), e, tr))
  /\ (In (Action_name action)
        ["obs.source.show"; "obs.source.hide"; "obs.volume"; "obs.mute";
         "obs.unmute"; "obs.text"] ->
      GetStringParam action "source" = EmptyString ->
      Execute net e action tr
      = ((NewErrorResult "source name is required", None), e, tr)).
Proof.
  intros He Hc. unfold Execute. rewrite He, Hc. cbn [negb]. cbv iota zeta.
  split.
  - intros Hn Hs. rewrite Hn. unfold setScene. rewrite Hs. reflexivity.
  - intros Hn Hs.
    destruct Hn as [H|[H|[H|[H|[H|[H|[]]]]]]]; rewrite <- H;
      unfold setSourceVisibility, setVolume, setMute, setText; rewrite Hs;
      reflexivity.
Qed.

Lemma Execute_requires_names_witness :
  Execute Samples.okObsNet Samples.obsUp Samples.muteNothing []
  = ((NewErrorResult "source name is required", None), Samples.obsUp, []).
Proof.
  refine (proj2 (Execute_requires_names Samples.okObsNet Samples.obsUp
                   Samples.muteNothing [] _ _) _ _); try reflexivity.
  simpl. auto 10.
Defined.

End ObsMoreProps.
(** ** The Twitch client: what a refresh does to the tokens *)
Section TwitchMoreProps.
Import Go Llm World TwitchExecutor.

(** X18. [refreshAccessToken] changes the executor only when it
    succeeds: on every error the tokens are as before, and on success both
    tokens are the ones decoded from a 200 reply to the refresh request,
    the rest of the executor being untouched. Without a refresh token it
    fails at once and nothing is sent. *)
Theorem refreshAccessToken_tokens (net : Net) (e : Executor) (tr : Trace) :
  let r := refreshAccessToken net e tr in
  match fst (fst r) with
  | Some _ => snd (fst r) = e
  | None =>
      exists resp,
        Do net tr (refreshRequest e) = Ok resp
        /\ StatusCode resp = 200
        /\ Tokens resp = Ok (accessToken (snd (fst r)), refreshToken (snd (fst r)))
        /\ snd (fst r)
           = withTokens e (accessToken (snd (fst r))) (refreshToken (snd (fst r)))
        /\ snd r = (tr ++ [EvHTTP (refreshRequest e) (Ok resp); EvRefresh None])%list
  end
  /\ (if String.eqb (refreshToken e) EmptyString
      then r = (Some "no refresh token available", e,
                (tr ++ [EvRefresh (Some "no refresh token available")])%list)
      else True).
Proof.
  cbv zeta. unfold refreshAccessToken, refreshAccessToken_body, log.
  destruct (String.eqb (refreshToken e) EmptyString); [split; reflexivity|].
  split; [|exact I].
  destruct (NewRequestError net "POST" _); [reflexivity|].
  destruct (Do net tr (refreshRequest e)) as [resp|err] eqn:Hd; [|reflexivity].
  destruct (StatusCode resp =? 200) eqn:Hs; [|reflexivity].
  cbn [negb]. cbv iota.
  destruct (Tokens resp) as [[access refresh]|err] eqn:Ht; [|reflexivity].
  cbn [fst snd]. exists resp. apply Z.eqb_eq in Hs.
  rewrite <- app_assoc. repeat split; auto.
Qed.

Lemma apiRequest_prefix (net : Net) (fuel : nat) (method endpoint : string)
  (body : option string) (e : Executor) (tr : Trace) :
  exists rest, snd (apiRequest net fuel method endpoint body e tr) = (tr ++ rest)%list.
Proof.
  revert e tr. induction fuel as [|fuel IH]; intros e tr.
  - exists []. rewrite app_nil_r. reflexivity.
  - cbn [apiRequest]. cbv zeta. unfold log.
    destruct (NewRequestError net method _).
    { exists []. rewrite app_nil_r. reflexivity. }
    destruct (Do net tr _) as [resp|err]; [|eexists; reflexivity].
    destruct (ReadErr resp); [eexists; reflexivity|].
    destruct (StatusCode resp =? 401).
    2:{ destruct (400 <=? StatusCode resp); eexists; reflexivity. }
    destruct (refreshAccessToken_trace net e
                (tr ++ [EvHTTP (apiRequestOf e method endpoint body) (Ok resp)])%list)
      as (mid & Hm & _).
    destruct (refreshAccessToken net e _) as [[rerr e1] tr1]. cbn [fst snd] in Hm.
    destruct rerr as [err|].
    + cbn [snd]. rewrite Hm, <- app_assoc. eexists; reflexivity.
    + destruct (IH e1 tr1) as (rest & Hr). rewrite Hr, Hm, <- !app_assoc.
      eexists; reflexivity.
Qed.

(** Once the request can be built, the first thing a call does is send it. *)
Lemma apiRequest_first_event (net : Net) (fuel : nat) (method endpoint : string)
  (body : option string) (e : Executor) (tr : Trace) :
  NewRequestError net method (twitchAPIURL ++ endpoint) = None ->
  exists rest,
    snd (apiRequest net (S fuel) method endpoint body e tr)
    = (tr ++ EvHTTP (apiRequestOf e method endpoint body)
               (Do net tr (apiRequestOf e method endpoint body)) :: rest)%list.
Proof.
  intros Hn. cbn [apiRequest]. cbv zeta. rewrite Hn. unfold log.
  set (req := apiRequestOf e method endpoint body).
  destruct (Do net tr req) as [resp|err]; [|exists []; reflexivity].
  destruct (ReadErr resp); [exists []; reflexivity|].
  destruct (StatusCode resp =? 401).
  2:{ destruct (400 <=? StatusCode resp); exists []; reflexivity. }
  destruct (refreshAccessToken_trace net e (tr ++ [EvHTTP req (Ok resp)])%list)
    as (mid & Hm & _).
  destruct (refreshAccessToken net e _) as [[rerr e2] tr2]. cbn [fst snd] in Hm.
  destruct rerr as [err|].
  - cbn [snd]. rewrite Hm, <- app_assoc. eexists; reflexivity.
  - destruct (apiRequest_prefix net fuel method endpoint body e2 tr2) as (rest & Hp).
    exists (mid ++ [EvRefresh None] ++ rest)%list. cbv beta iota.
    transitivity (tr2 ++ rest)%list; [exact Hp|].
    rewrite Hm, <- !app_assoc. reflexivity.
Qed.

(** X19. After a 401 and a refresh that succeeded, the request is sent
    again with the new access token: the next event of the call is the
    same request, to the same address, whose [Authorization] header
    carries the token the refresh stored. *)
Theorem apiRequest_retry_bears_new_token (net : Net) (fuel : nat)
  (method endpoint : string) (body : option string)
  (e e1 : Executor) (tr tr1 : Trace) (resp : Response) :
  NewRequestError net method (twitchAPIURL ++ endpoint) = None ->
  Do net tr (apiRequestOf e method endpoint body) = Ok resp ->
  ReadErr resp = None -> StatusCode resp = 401 ->
  refreshAccessToken net e
    (tr ++ [EvHTTP (apiRequestOf e method endpoint body) (Ok resp)])%list
  = (None, e1, tr1) ->
  exists rest,
    snd (apiRequest net (S (S fuel)) method endpoint body e tr)
    = (tr1 ++ EvHTTP (apiRequestOf e1 method endpoint body)
                (Do net tr1 (apiRequestOf e1 method endpoint body)) :: rest)%list
    /\ URL (apiRequestOf e1 method endpoint body) = twitchAPIURL ++ endpoint
    /\ Method (apiRequestOf e1 method endpoint body) = method
    /\ In ("Authorization", "Bearer " ++ accessToken e1)
         (Header (apiRequestOf e1 method endpoint body)).
Proof.
  intros Hn Hd Hr Hs Href.
  rewrite (apiRequest_unauthorized net (S fuel) method endpoint body e tr resp
             Hn Hd Hr Hs), Href.
  destruct (apiRequest_first_event net fuel method endpoint body e1 tr1 Hn)
    as (rest & Hrest).
  exists rest. split; [exact Hrest|]. repeat split. left. reflexivity.
Qed.

Lemma apiRequest_retry_bears_new_token_witness :
  exists rest,
    snd (apiRequest Samples.stubbornNet 2 "GET" "/users?login=a" None
           Samples.streamer [])
    = ([EvHTTP (apiRequestOf Samples.streamer "GET" "/users?login=a" None)
          (Ok (mkResponse 401 "{}" None (Err "not a token reply")));
        EvHTTP (refreshRequest Samples.streamer)
          (Ok (mkResponse 200 "{}" None (Ok ("fresh", "refresh-1"))));
        EvRefresh None]
       ++ EvHTTP (apiRequestOf (withTokens Samples.streamer "fresh" "refresh-1")
                    "GET" "/users?login=a" None)
            (Ok (mkResponse 401 "{}" None (Err "not a token reply"))) :: rest)%list
    /\ URL (apiRequestOf (withTokens Samples.streamer "fresh" "refresh-1")
              "GET" "/users?login=a" None)
       = twitchAPIURL ++ "/users?login=a"
    /\ Method (apiRequestOf (withTokens Samples.streamer "fresh" "refresh-1")
                 "GET" "/users?login=a" None) = "GET"
    /\ In ("Authorization", "Bearer " ++ "fresh")
         (Header (apiRequestOf (withTokens Samples.streamer "fresh" "refresh-1")
                    "GET" "/users?login=a" None)).
Proof.
  apply (apiRequest_retry_bears_new_token Samples.stubbornNet 0 "GET"
           "/users?login=a" None Samples.streamer
           (withTokens Samples.streamer "fresh" "refresh-1") []
           [EvHTTP (apiRequestOf Samples.streamer "GET" "/users?login=a" None)
              (Ok (mkResponse 401 "{}" None (Err "not a token reply")));
            EvHTTP (refreshRequest Samples.streamer)
              (Ok (mkResponse 200 "{}" None (Ok ("fresh", "refresh-1"))));
            EvRefresh None]
           (mkResponse 401 "{}" None (Err "not a token reply")));
    reflexivity.
Defined.

End TwitchMoreProps.
(** ** The music player: the playlist, the volume, pausing *)
Section MusicMoreProps.
Import Go Llm World Executor MusicExecutor.

(** X20. What [loadPlaylist] puts in the playlist: exactly the paths that
    [filepath.Walk] visits without error under a configured folder, that
    are not directories, whose lowered extension is a supported format,
    and, when a query is given, whose lowered base name contains the
    lowered query. What the playlist held before plays no part. *)
Theorem loadPlaylist_contents (env : Env) (query : string) (e : Executor)
  (p : string) :
  In p (playlist (loadPlaylist env query e)) <->
  exists folder w,
    In folder (folders e) /\ In w (Walk env folder) /\ path w = p
    /\ walkErr w = false /\ IsDir w = false
    /\ In (ToLower env (Ext (OS env) p)) (supportedFormats e)
    /\ (ToLower env query = EmptyString
        \/ Contains (ToLower env (Base (OS env) p)) (ToLower env query) = true).
Proof.
  unfold loadPlaylist. cbv zeta. cbn [playlist setPlaylist].
  rewrite in_flat_map.
  assert (Hacc : forall w,
            accepted env e (ToLower env query) w = true <->
            walkErr w = false /\ IsDir w = false
            /\ In (ToLower env (Ext (OS env) (path w))) (supportedFormats e)
            /\ (ToLower env query = EmptyString
                \/ Contains (ToLower env (Base (OS env) (path w)))
                     (ToLower env query) = true)).
  { intros w. unfold accepted.
    destruct (walkErr w); [split; [discriminate | intros [H _]; discriminate H]|].
    destruct (IsDir w); [split; [discriminate | intros (_ & H & _); discriminate H]|].
    cbv zeta.
    destruct (existsb _ (supportedFormats e)) eqn:Ex; cbn [negb].
    - apply existsb_exists in Ex. destruct Ex as (fmt & Hin & Heq).
      apply String.eqb_eq in Heq. rewrite <- Heq in Hin.
      destruct (String.eqb_spec (ToLower env query) EmptyString) as [Hq|Hq];
        cbn [negb].
      + split; [intros _; repeat split; auto | reflexivity].
      + split.
        * intros Hc. repeat split; auto.
        * intros (_ & _ & _ & [Hq'|Hc]); [contradiction | exact Hc].
    - split; [discriminate|]. intros (_ & _ & Hin & _). exfalso.
      assert (Ht : existsb
                (fun fmt => String.eqb (ToLower env (Ext (OS env) (path w))) fmt)
                (supportedFormats e) = true).
      { apply existsb_exists. eexists. split; [exact Hin | apply String.eqb_refl]. }
      rewrite Ht in Ex. discriminate Ex. }
  split.
  - intros (folder & Hf & Hp). apply in_map_iff in Hp.
    destruct Hp as (w & Hw & Hin). apply filter_In in Hin.
    destruct Hin as [Hin Ha]. apply Hacc in Ha. rewrite Hw in Ha.
    exists folder, w. tauto.
  - intros (folder & w & Hf & Hw & Hp & H). exists folder. split; [exact Hf|].
    apply in_map_iff. exists w. split; [exact Hp|].
    apply filter_In. split; [exact Hw|]. apply Hacc. rewrite Hp. exact H.
Qed.

(** X21. [music.volume] stores the volume clamped to the range from 0 to
    1: below 0 it stores 0, above 1 it stores 1, otherwise the volume
    given; every number is stored within the range. It does nothing else:
    the playlist, the position and the playing flags are untouched and
    nothing reaches the running player. *)
Theorem setVolume_clamps (action : Action) (e : Executor) (tr : Trace) :
  PrimFloat.is_nan (GetFloatParam action "volume") = false ->
  let v := GetFloatParam action "volume" in
  let r := setVolume action e tr in
  volume (snd (fst r))
  = (if PrimFloat.ltb v 0 then 0 else if PrimFloat.ltb 1 v then 1 else v)%float
  /\ PrimFloat.leb 0 (volume (snd (fst r))) = true
  /\ PrimFloat.leb (volume (snd (fst r))) 1 = true
  /\ snd (fst r) = setVolumeField e (volume (snd (fst r)))
  /\ snd r = tr.
Proof.
  intros Hnan v r. subst r. unfold setVolume. cbv zeta.
  cbn [fst snd volume setVolumeField]. fold v.
  destruct (PrimFloat.ltb v 0) eqn:E0.
  - repeat split; reflexivity.
  - destruct (PrimFloat.ltb 1 v) eqn:E1.
    + repeat split; reflexivity.
    + repeat split; apply not_ltb_leb; auto.
Qed.

Lemma setVolume_clamps_witness :
  volume (snd (fst (setVolume Samples.tooLoud Samples.threeTracks []))) = 1%float
  /\ snd (setVolume Samples.tooLoud Samples.threeTracks []) = [].
Proof.
  destruct (setVolume_clamps Samples.tooLoud Samples.threeTracks [] eq_refl)
    as (H1 & _ & _ & _ & H2).
  split; [exact H1 | exact H2].
Defined.

(** X22. Pausing and resuming. [pause] on a playing executor kills the
    player process if there is one, sets the paused flag and sends no
    stop signal to the playback loop; [resume] after it clears the flag
    and starts a playback loop, so the two calls together add no stop
    signal to the trace; a second [resume] is refused. Once playback has
    been stopped, [pause] and [resume] are both refused. *)
Theorem pause_then_resume (e : Executor) (tr : Trace) :
  isPlaying e = true ->
  pause e tr
  = (Returns (NewResult "Music paused", None), setPlaying e true true,
     killCurrent e tr)
  /\ resume (setPlaying e true true) (killCurrent e tr)
     = (Returns (NewResult "Music resumed", None), setPlaying e true false,
        (killCurrent e tr ++ [EvStartPlayLoop])%list)
  /\ resume (setPlaying e true false) (killCurrent e tr ++ [EvStartPlayLoop])%list
     = (Returns (NewErrorResult "music is not paused", None),
        setPlaying e true false, (killCurrent e tr ++ [EvStartPlayLoop])%list)
  /\ (forall tr', pause (fst (stopPlayback e tr)) tr'
        = (Returns (NewErrorResult "nothing is playing", None),
           fst (stopPlayback e tr), tr'))
  /\ (forall tr', resume (fst (stopPlayback e tr)) tr'
        = (Returns (NewErrorResult "music is not paused", None),
           fst (stopPlayback e tr), tr')).
Proof.
  intros Hp. unfold pause, resume, stopPlayback. rewrite Hp.
  cbn [negb fst isPlaying isPaused setPlaying]. repeat split.
Qed.

Lemma pause_then_resume_witness :
  pause Samples.threeTracks []
  = (Returns (NewResult "Music paused", None),
     setPlaying Samples.threeTracks true true, [])
  /\ resume (setPlaying Samples.threeTracks true true) []
     = (Returns (NewResult "Music resumed", None),
        setPlaying Samples.threeTracks true false, [EvStartPlayLoop]).
Proof.
  destruct (pause_then_resume Samples.threeTracks [] eq_refl) as (H1 & H2 & _).
  split; [exact H1 | exact H2].
Defined.

End MusicMoreProps.
(** ** The pipeline: recordings from press to release *)
Section PipelineMoreProps.
Import Go Llm World Pipeline.

Lemma setState_fields (p : Pipeline) (s : State) (tr : Trace) :
  fst (setState p s tr) = withState p s.
Proof. unfold setState. cbv zeta. destruct (_ && _); reflexivity. Qed.

Lemma body_buffer (now : Time) (p : Pipeline) (tr : Trace) :
  audioBuffer (snd (fst (processRecordedAudio_body now p tr))) = [].
Proof.
  unfold processRecordedAudio_body. cbv zeta.
  destruct (_ =? 0); [reflexivity|].
  destruct (floorApplies now _); [reflexivity|].
  destruct (Transcribe _ _ _) as [text|err]; [|reflexivity].
  destruct (String.eqb text EmptyString); [reflexivity|].
  destruct (Brain.ProcessCommand _ _ _) as [[out b] tr1].
  destruct out as [[response [err|]]|msg|]; try reflexivity.
  destruct (Brain.ProcessAndSpeak _ _ _) as [[out2 b2] tr2].
  destruct out2; reflexivity.
Qed.

(** X23. However [processRecordedAudio] ends (nothing recorded, speech
    too short, a failed transcription, an answered command, a panic in
    the evaluator), the pipeline is left in the idle state with an empty
    audio buffer. *)
Theorem processRecordedAudio_ends_idle (now : Time) (p : Pipeline) (tr : Trace) :
  state (snd (fst (processRecordedAudio now p tr))) = StateIdle
  /\ audioBuffer (snd (fst (processRecordedAudio now p tr))) = [].
Proof.
  unfold processRecordedAudio.
  destruct (setState p StateProcessing tr) as [p1 tr1].
  pose proof (body_buffer now p1 tr1) as Hb.
  destruct (processRecordedAudio_body now p1 tr1) as [[out p2] tr2].
  cbn [fst snd] in Hb.
  pose proof (setState_fields p2 StateIdle tr2) as Hs.
  destruct (setState p2 StateIdle tr2) as [p3 tr3]. cbn [fst snd] in *.
  subst p3. split; [reflexivity | exact Hb].
Qed.

Lemma handleAudio_recording (now : Time) (p : Pipeline) (audio : list Byte.byte)
  (tr : Trace) :
  vadEnabled p = false -> state p = StateRecording ->
  handleAudio now p audio tr = (withBuffer p (audioBuffer p ++ audio)%list, tr).
Proof.
  intros Hv Hs. unfold handleAudio, GetState. rewrite Hs, Hv.
  cbn [State_eqb andb orb]. cbv zeta iota.
  change (vadEnabled (withBuffer p (audioBuffer p ++ audio)%list))
    with (vadEnabled p).
  rewrite Hv. reflexivity.
Qed.

Lemma handleFrames_recording frames : forall (p : Pipeline) (tr : Trace),
  vadEnabled p = false -> state p = StateRecording ->
  Samples.handleFrames frames p tr
  = (withBuffer p (audioBuffer p ++ List.concat (List.map snd frames))%list, tr).
Proof.
  induction frames as [|[now audio] rest IH]; intros p tr Hv Hs.
  - cbn [Samples.handleFrames List.map List.concat]. rewrite app_nil_r.
    destruct p; reflexivity.
  - cbn [Samples.handleFrames]. rewrite (handleAudio_recording now p audio tr Hv Hs).
    rewrite IH; [|exact Hv|exact Hs].
    cbn [List.map List.concat snd audioBuffer withBuffer].
    rewrite <- app_assoc. reflexivity.
Qed.

(** X24. Hold to talk with voice-activity detection off: after the
    hotkey is pressed, the frames handled accumulate in the buffer in the
    order they arrive, nothing else happens until the key is released,
    and the release hands the speech-to-text provider exactly the
    concatenation of those frames (when it is not empty), whatever the
    time. *)
Theorem hold_to_talk (p : Pipeline) (tr : Trace)
  (frames : list (Time * list Byte.byte)) (now : Time) :
  vadEnabled p = false ->
  List.concat (List.map snd frames) <> [] ->
  let pressed := startRecording p tr in
  let held := Samples.handleFrames frames (fst pressed) (snd pressed) in
  audioBuffer (fst held) = List.concat (List.map snd frames)
  /\ state (fst held) = StateRecording
  /\ snd held = snd pressed
  /\ (snd (setState (fst held) StateProcessing (snd held))
        ++ [EvTranscribe (List.concat (List.map snd frames))])%list
       `prefix_of` snd (handleHotkeyRelease now (fst held) (snd held)).
Proof.
  intros Hv Hne pressed held.
  assert (Hp : fst pressed
               = withVAD (withState (withBuffer p []) StateRecording)
                   zeroTime zeroTime false).
  { subst pressed. unfold startRecording. cbv zeta.
    pose proof (setState_fields (withBuffer p []) StateRecording tr) as Hs.
    destruct (setState (withBuffer p []) StateRecording tr) as [p1 tr1].
    cbn [fst] in *. rewrite Hs. reflexivity. }
  assert (Hheld : held
                  = (withBuffer (fst pressed) (List.concat (List.map snd frames)),
                     snd pressed)).
  { subst held. rewrite handleFrames_recording.
    - rewrite Hp. reflexivity.
    - rewrite Hp. exact Hv.
    - rewrite Hp. reflexivity. }
  rewrite Hheld. cbn [fst snd audioBuffer withBuffer].
  split; [reflexivity|]. split; [rewrite Hp; reflexivity|]. split; [reflexivity|].
  set (q := withBuffer (fst pressed) (List.concat (List.map snd frames))).
  assert (Hq : state q = StateRecording) by (subst q; rewrite Hp; reflexivity).
  unfold handleHotkeyRelease, GetState. rewrite Hq. cbn [State_eqb negb].
  cbv iota. unfold processRecordedAudio.
  pose proof (setState_fields q StateProcessing (snd pressed)) as Hs.
  destruct (setState q StateProcessing (snd pressed)) as [q1 tr1].
  cbn [fst snd] in *.
  assert (Hbuf : audioBuffer q1 = List.concat (List.map snd frames))
    by (rewrite Hs; reflexivity).
  assert (Hfl : floorApplies now q1 = false).
  { apply floor_needs_onset. left. rewrite Hs. subst q. rewrite Hp. reflexivity. }
  pose proof (body_transcribes now q1 tr1) as Hb. rewrite Hbuf in Hb.
  specialize (Hb Hne Hfl).
  destruct (processRecordedAudio_body now q1 tr1) as [[out q2] tr2].
  cbn [snd] in Hb.
  pose proof (setState_prefix q2 StateIdle tr2) as Hi.
  destruct (setState q2 StateIdle tr2) as [q3 tr3]. cbn [snd] in *.
  etrans; [exact Hb | exact Hi].
Qed.

Lemma hold_to_talk_witness :
  audioBuffer
    (fst (Samples.handleFrames [(1, [x01]); (2, [x02; x03])]
            (fst (startRecording Samples.quietRecording []))
            (snd (startRecording Samples.quietRecording []))))
  = [x01; x02; x03]
  /\ ([] ++ [EvTranscribe [x01; x02; x03]])%list
       `prefix_of`
       snd (handleHotkeyRelease 3
              (fst (Samples.handleFrames [(1, [x01]); (2, [x02; x03])]
                      (fst (startRecording Samples.quietRecording []))
                      (snd (startRecording Samples.quietRecording []))))
              []).
Proof.
  destruct (hold_to_talk Samples.quietRecording []
              [(1, [x01]); (2, [x02; x03])] 3 eq_refl)
    as (H1 & _ & _ & H4); [discriminate|].
  split; [exact H1 | exact H4].
Defined.

Lemma analyzeVAD_onset (now : Time) (q : Pipeline) (audio : list Byte.byte) :
  hasSpeech q = true ->
  state (analyzeVAD now q audio) = state q
  /\ hasSpeech (analyzeVAD now q audio) = true
  /\ speechStart (analyzeVAD now q audio) = speechStart q.
Proof.
  intros Hh. unfold analyzeVAD. cbv zeta. rewrite Hh. cbn [negb andb].
  destruct (PrimFloat.ltb _ _); cbv iota.
  - cbn [state hasSpeech speechStart withVAD]. auto.
  - destruct (IsZero _); cbn [state hasSpeech speechStart withVAD]; auto.
Qed.

Lemma handleAudio_onset (now : Time) (p : Pipeline) (audio : list Byte.byte)
  (tr : Trace) :
  state p <> StateIdle -> hasSpeech p = true ->
  state (fst (handleAudio now p audio tr)) = state p
  /\ hasSpeech (fst (handleAudio now p audio tr)) = true
  /\ speechStart (fst (handleAudio now p audio tr)) = speechStart p.
Proof.
  intros Hs Hh. unfold handleAudio, GetState.
  assert (Hrec : let q := withBuffer p (audioBuffer p ++ audio)%list in
            state (fst (if vadEnabled q then (analyzeVAD now q audio, tr)
                        else (q, tr))) = state p
            /\ hasSpeech (fst (if vadEnabled q then (analyzeVAD now q audio, tr)
                               else (q, tr))) = true
            /\ speechStart (fst (if vadEnabled q then (analyzeVAD now q audio, tr)
                                 else (q, tr))) = speechStart p).
  { cbv zeta. destruct (vadEnabled _); cbn [fst]; [|auto].
    apply (analyzeVAD_onset now (withBuffer p (audioBuffer p ++ audio)%list) audio).
    exact Hh. }
  destruct (state p) eqn:Es; [contradiction | | |];
    cbn [State_eqb andb orb]; cbv zeta iota; rewrite ?Es;
    cbn [State_eqb andb orb]; cbv iota.
  - exact Hrec.
  - exact Hrec.
  - cbn [fst]. auto.
Qed.

(** X25. The onset of speech is fixed by the first speech frame of a
    recording: once an onset is flagged, no frame handled afterwards
    (loud or quiet) moves [speechStart] or clears the flag, as long as the
    pipeline is not idle. The minimum-duration test at the end of the
    recording therefore measures from the first speech frame. *)
Theorem speech_onset_fixed (frames : list (Time * list Byte.byte))
  (p : Pipeline) (tr : Trace) :
  state p <> StateIdle -> hasSpeech p = true ->
  hasSpeech (fst (Samples.handleFrames frames p tr)) = true
  /\ speechStart (fst (Samples.handleFrames frames p tr)) = speechStart p
  /\ state (fst (Samples.handleFrames frames p tr)) = state p.
Proof.
  revert p tr. induction frames as [|[now audio] rest IH]; intros p tr Hs Hh.
  - cbn [Samples.handleFrames fst]. auto.
  - cbn [Samples.handleFrames].
    destruct (handleAudio_onset now p audio tr Hs Hh) as (H1 & H2 & H3).
    destruct (handleAudio now p audio tr) as [p1 tr1]. cbn [fst] in *.
    destruct (IH p1 tr1) as (I1 & I2 & I3); [rewrite H1; exact Hs | exact H2 |].
    rewrite I1, I2, I3, H1, H3. auto.
Qed.

Lemma speech_onset_fixed_witness :
  speechStart
    (fst (Samples.handleFrames [(8, [x00; x40]); (9, [x00; x00])]
            (withVAD
               (withState
                  (NewPipeline Config.DefaultConfig Samples.parrotSTT
                     Samples.deafBrain) StateRecording) 0 5 true) []))
  = 5.
Proof.
  refine (proj1 (proj2 (speech_onset_fixed [(8, [x00; x40]); (9, [x00; x00])]
            (withVAD
               (withState
                  (NewPipeline Config.DefaultConfig Samples.parrotSTT
                     Samples.deafBrain) StateRecording) 0 5 true) [] _ _))).
  - discriminate.
  - reflexivity.
Defined.

Lemma ProcessAndSpeak_after_command (b : Brain.Brain) (text : string) (tr : Trace) :
  snd (Brain.ProcessCommand b text tr)
    `prefix_of` snd (Brain.ProcessAndSpeak b text tr).
Proof.
  unfold Brain.ProcessAndSpeak.
  destruct (Brain.ProcessCommand b text tr) as [[out b1] tr1]. cbn [snd].
  destruct out as [[response err]|msg|]; cbn [snd]; try reflexivity.
  destruct (String.eqb _ EmptyString); cbn [snd]; [reflexivity|].
  destruct (Brain.ttsProvider b1) as [tts|]; cbn [snd]; [|reflexivity].
  unfold Brain.log.
  destruct (Brain.TTS_IsAvailable tts tr1); cbn [snd];
    [apply prefix_snoc; apply prefix_snoc; reflexivity
    |apply prefix_snoc; reflexivity].
Qed.

(** X26. A voice command that the Brain answers without error is
    processed a second time. After the transcript has been interpreted and
    its action carried out, [processRecordedAudio] calls
    [ProcessAndSpeak], which runs [ProcessCommand] on the same text again,
    from the state the first run left: the language model is asked again
    and the action it names is dispatched again before anything is
    spoken. *)
Theorem voice_command_processed_twice (now : Time) (p : Pipeline) (tr tr2 : Trace)
  (text response : string) (b1 : Brain.Brain) :
  audioBuffer p <> [] -> floorApplies now p = false ->
  Transcribe (sttProvider p) tr (audioBuffer p) = Ok text ->
  text <> EmptyString ->
  let heard :=
    ((tr ++ [EvTranscribe (audioBuffer p)])
     ++ (if onTranscript p then [EvOnTranscript text] else []))%list in
  Brain.ProcessCommand (brain p) text heard = (Returns (response, None), b1, tr2) ->
  let answered :=
    (tr2 ++ (if negb (String.eqb response EmptyString) && onResponse p
             then [EvOnResponse response] else []))%list in
  heard `prefix_of` tr2
  /\ snd (Brain.ProcessCommand b1 text answered)
       `prefix_of` snd (processRecordedAudio_body now p tr).
Proof.
  intros Hbuf Hfl Hstt Htext heard Hcmd answered.
  split.
  { pose proof (ProcessCommand_prefix (brain p) text heard) as Hp.
    rewrite Hcmd in Hp. exact Hp. }
  unfold processRecordedAudio_body. cbv zeta.
  destruct (Z.eqb_spec (Z.of_nat (List.length (audioBuffer p))) 0) as [E|_].
  { destruct (audioBuffer p); [contradiction | discriminate E]. }
  change (floorApplies now (withBuffer p [])) with (floorApplies now p).
  rewrite Hfl. cbn [sttProvider withBuffer]. rewrite Hstt.
  destruct (String.eqb_spec text EmptyString) as [E|_]; [contradiction|].
  cbn [onTranscript onResponse onError brain withBuffer withBrain].
  assert (Hheard : (if onTranscript p
                    then log (log tr (EvTranscribe (audioBuffer p)))
                           (EvOnTranscript text)
                    else log tr (EvTranscribe (audioBuffer p))) = heard).
  { subst heard. unfold log. destruct (onTranscript p);
      [reflexivity | rewrite app_nil_r; reflexivity]. }
  rewrite Hheard, Hcmd.
  assert (Hans : (if negb (String.eqb response EmptyString) && onResponse p
                  then log tr2 (EvOnResponse response) else tr2) = answered).
  { subst answered. unfold log. destruct (_ && _);
      [reflexivity | rewrite app_nil_r; reflexivity]. }
  rewrite Hans.
  pose proof (ProcessAndSpeak_after_command b1 text answered) as Hp.
  destruct (Brain.ProcessAndSpeak b1 text answered) as [[out2 b2] tr3].
  cbn [snd] in Hp. destruct out2; exact Hp.
Qed.

Lemma voice_command_processed_twice_witness :
  snd (Brain.ProcessCommand Samples.helpfulBrain "hola"
         [EvTranscribe [x01; x02]; EvLLMIsAvailable; EvLLMComplete "hola"])
    `prefix_of` snd (processRecordedAudio_body 0 Samples.chattyRecording []).
Proof.
  refine (proj2 (voice_command_processed_twice 0 Samples.chattyRecording []
                   [EvTranscribe [x01; x02]; EvLLMIsAvailable; EvLLMComplete "hola"]
                   "hola"
                   "Puedo ayudarte con: - OBS: 7 acciones (escenas, fuentes, volumen) ¿Qué necesitas?"
                   Samples.helpfulBrain _ _ _ _ _)).
  - discriminate.
  - reflexivity.
  - reflexivity.
  - discriminate.
  - reflexivity.
Defined.

End PipelineMoreProps.
